(** * ip_changer.py: rotation orchestrator, adapters and IP probe

    A shallow embedding of [src/ip_changer.py].  Python text is a list of
    Unicode code points.  The outside world (HTTP service, Tor control port,
    user at the terminal, child processes, file system, log file, signals)
    is an oracle record [Env] that answers the external calls of a run by
    their number.  Every function of the script is a computation in a small
    state-and-exception monad [M]; each external call is recorded in a
    time-stamped trace, and the properties are stated on outcomes and
    traces.

    Modelling choices.  The clock is ideal: a [time.sleep(x)] that is
    accepted takes [x] and nothing else takes time; [time.sleep] refuses a
    length as CPython 3.11 does on Linux.  A signal is taken at an external
    call and runs [AutoChanger._signal_handler] before the call goes on.  The two loops
    that may not end ([while] in [run_loop], [while] in [_wait_or_stop]) take
    fuel; running out of it is the outcome [Diverge], and the inner loop is
    proved never to do so. *)

From Stdlib Require Import List ZArith Bool Lia String Ascii DecimalString.
From Stdlib Require Import Sorted Permutation.
Import ListNotations.
Local Open Scope Z_scope.

(** ** Python text *)

Module Py.

(** A [str] is a sequence of code points. *)
Definition str := list Z.

Definition lit (s : string) : str :=
  map (fun c => Z.of_nat (nat_of_ascii c)) (list_ascii_of_string s).

(** [str.isspace] on one code point: the table of [_PyUnicode_IsWhitespace]. *)
Definition isspace (c : Z) : bool :=
  ((9 <=? c) && (c <=? 13)) || ((28 <=? c) && (c <=? 32))
  || (c =? 133) || (c =? 160) || (c =? 5760)
  || ((8192 <=? c) && (c <=? 8202))
  || (c =? 8232) || (c =? 8233) || (c =? 8239) || (c =? 8287) || (c =? 12288).

Fixpoint lstrip (s : str) : str :=
  match s with
  | c :: r => if isspace c then lstrip r else s
  | [] => []
  end.

Definition rstrip (s : str) : str := rev (lstrip (rev s)).

(** [s.strip()] *)
Definition strip (s : str) : str := rstrip (lstrip s).

Fixpoint eqb (a b : str) : bool :=
  match a, b with
  | [], [] => true
  | x :: a', y :: b' => (x =? y) && eqb a' b'
  | _, _ => false
  end.

(** [s.startswith(p)] *)
Fixpoint startswith (s p : str) {struct p} : bool :=
  match p, s with
  | [], _ => true
  | x :: p', y :: s' => (x =? y) && startswith s' p'
  | _ :: _, [] => false
  end.

(** [s.endswith(p)] *)
Definition endswith (s p : str) : bool := startswith (rev s) (rev p).

(** [s.lower()], on the ASCII capitals.  The script only compares lowered
    text with ["y"] and with the suffix [".ovpn"]; no code point outside
    [A-Z] lowers to one of the letters y, o, v, p, n, so for these two tests
    the restriction to ASCII changes nothing. *)
Definition lower_char (c : Z) : Z :=
  if (65 <=? c) && (c <=? 90) then c + 32 else c.
Definition lower (s : str) : str := map lower_char s.

(** [bool(s)] *)
Definition truthy (s : str) : bool :=
  match s with [] => false | _ :: _ => true end.

(** [str(n)] for an integer. *)
Definition of_Z (n : Z) : str := lit (NilZero.string_of_int (Z.to_int n)).

(** [sep.join(l)] *)
Fixpoint join (sep : str) (l : list str) : str :=
  match l with
  | [] => []
  | [x] => x
  | x :: r => x ++ sep ++ join sep r
  end.

(** Lexicographic order on code points, as [sorted] uses on [str]. *)
Fixpoint leb (a b : str) : bool :=
  match a, b with
  | [], _ => true
  | _ :: _, [] => false
  | x :: a', y :: b' => (x <? y) || ((x =? y) && leb a' b')
  end.

Fixpoint insert_sorted (x : str) (l : list str) : list str :=
  match l with
  | [] => [x]
  | y :: r => if leb x y then x :: l else y :: insert_sorted x r
  end.

(** [sorted(l)] *)
Definition sorted (l : list str) : list str :=
  fold_right insert_sorted [] l.

(** Iterating a file opened in text mode with universal newlines: the text
    is cut after each line end, and ["\r\n"] and ["\r"] are read as
    ["\n"]; a last line without line end is delivered as it is. *)
Fixpoint lines_from (cur : str) (text : str) : list str :=
  match text with
  | [] => match cur with [] => [] | _ :: _ => [rev cur] end
  | 13 :: rest =>
      match rest with
      | 10 :: rest' => rev (10 :: cur) :: lines_from [] rest'
      | _ => rev (10 :: cur) :: lines_from [] rest
      end
  | 10 :: rest => rev (10 :: cur) :: lines_from [] rest
  | c :: rest => lines_from (c :: cur) rest
  end.

Definition file_lines (text : str) : list str := lines_from [] text.

(** [os.path.join(a, b)] on POSIX. *)
Definition path_join (a b : str) : str :=
  if startswith b (lit "/") then b
  else if negb (truthy a) || endswith a (lit "/") then a ++ b
  else a ++ lit "/" ++ b.

End Py.


(** ** The outside world *)

(** Exceptions, by the classes the script tells apart in its [except]
    clauses; every class here derives from [Exception].  [exn_text] is
    [str(e)]. *)
Inductive exn_class :=
| CalledProcessError | FileNotFoundError | TimeoutExpired | ValueError
| OverflowError | OSError | OtherError.

Record exn := mk_exn { exn_kind : exn_class; exn_text : Py.str }.

Definition is_CalledProcessError (e : exn) : bool :=
  match exn_kind e with CalledProcessError => true | _ => false end.
Definition is_FileNotFoundError (e : exn) : bool :=
  match exn_kind e with FileNotFoundError => true | _ => false end.

(** [requests]' [proxies] argument: [None] or a dict from scheme to URL. *)
Definition proxies_arg := option (list (Py.str * Py.str)).

(** A child process is named by the number of the call that created it. *)
Definition proc := nat.

(** One entry per external call the script makes, whether the call then
    succeeds or raises; and one for each arrival of a signal. *)
Inductive event :=
| ELog (msg : Py.str)                      (* log(msg): append to LOGFILE, print *)
| EHttpGet (url : Py.str) (proxies : proxies_arg) (timeout : Z)
| ESockConnect (host : Py.str) (port : Z) (timeout : Z)
| ESockSend (data : Py.str)                (* s_file.write(data); s_file.flush() *)
| ESockReadline
| ESockClose
| EInput (prompt : Py.str)
| ECheckCall (argv : list Py.str)          (* subprocess.check_call *)
| EPopen (argv : list Py.str)              (* subprocess.Popen *)
| EPoll (p : proc)
| ETerminate (p : proc)
| EWait (p : proc) (timeout : Z)
| EKill (p : proc)
| ESleep (ms : Z)                          (* time.sleep, in milliseconds *)
| EOpenRead (path : Py.str)                (* open(path, "r") and reading it *)
| EListdir (path : Py.str)
| EIsSet (value : bool)                    (* stop_event.is_set() *)
| ESignal.                                 (* SIGINT or SIGTERM arrives *)

(** What the world answers to the [n]-th external call of a run.  A call
    that raises answers [inl e].  [log_error n] is the exception, if any,
    that a [log] raises at the moment of call [n] (the log file cannot be
    opened or written, or the line cannot be encoded): it decides a [log]
    that is call [n] and the [log] of the signal handler, should a signal
    arrive during call [n].  [monotonic n] is the reading of the monotonic
    clock at call [n], in nanoseconds. *)
Record Env := mk_env {
  log_error : nat -> option exn;           (* what log(...) raises, if anything *)
  http_get : nat -> exn + Py.str;          (* r.text of the response *)
  sock_connect : nat -> option exn;
  sock_send : nat -> option exn;
  sock_readline : nat -> exn + Py.str;
  user_input : nat -> exn + Py.str;
  check_call : nat -> option exn;
  popen : nat -> option exn;
  poll : nat -> option Z;                  (* None: still running *)
  terminate : nat -> option exn;
  wait : nat -> option exn;
  kill : nat -> option exn;
  open_read : nat -> Py.str -> exn + Py.str;       (* decoded file text *)
  listdir : nat -> Py.str -> exn + list Py.str;
  signal_at : nat -> bool;                 (* a signal arrives during call n *)
  monotonic : nat -> Z                     (* time.monotonic_ns() at call n *)
}.

(** The state of a run: number of external calls made so far, the clock in
    milliseconds, the [threading.Event], whether [AutoChanger.__init__] has
    installed the handlers, and the trace, each entry stamped with the clock
    at the call.  The clock is an ideal one: a [time.sleep(x)] that is
    accepted takes exactly [x] and nothing else takes time. *)
Record World := mk_world {
  ops : nat;
  clock : Z;
  stop_event : bool;
  installed : bool;
  trace : list (Z * event)
}.

Definition world0 : World := mk_world 0 0 false false [].

Inductive Outcome (A : Type) :=
| Ret (a : A)
| Raise (e : exn)
| Diverge.                                 (* a loop ran out of fuel *)
Arguments Ret {A} a.
Arguments Raise {A} e.
Arguments Diverge {A}.

Definition M (A : Type) := World -> Outcome A * World.

Definition ret {A} (a : A) : M A := fun w => (Ret a, w).
Definition raise {A} (e : exn) : M A := fun w => (Raise e, w).
Definition diverge {A} : M A := fun w => (Diverge, w).

Definition bind {A B} (m : M A) (f : A -> M B) : M B := fun w =>
  match m w with
  | (Ret a, w1) => f a w1
  | (Raise e, w1) => (Raise e, w1)
  | (Diverge, w1) => (Diverge, w1)
  end.

Declare Scope py_scope.
Delimit Scope py_scope with py.
Notation "x <- m ;; k" := (bind m (fun x => k))
  (at level 100, m at next level, right associativity) : py_scope.
Notation "m ;; k" := (bind m (fun _ => k))
  (at level 100, right associativity) : py_scope.
Local Open Scope py_scope.

(** [try: m  except <classes accepted by sel> as e: h e] *)
Definition try_except {A} (m : M A) (sel : exn -> bool) (h : exn -> M A) : M A :=
  fun w =>
    match m w with
    | (Raise e, w1) => if sel e then h e w1 else (Raise e, w1)
    | other => other
    end.

(** [except Exception] *)
Definition any_exception (e : exn) : bool := true.

Definition record (ev : event) (w : World) : World :=
  mk_world (ops w) (clock w) (stop_event w) (installed w)
           (trace w ++ [(clock w, ev)]).
Definition next_op (w : World) : World :=
  mk_world (S (ops w)) (clock w) (stop_event w) (installed w) (trace w).
Definition advance (ms : Z) (w : World) : World :=
  mk_world (ops w) (clock w + ms) (stop_event w) (installed w) (trace w).
Definition set_stop (w : World) : World :=
  mk_world (ops w) (clock w) true (installed w) (trace w).
Definition install (w : World) : World :=
  mk_world (ops w) (clock w) false true (trace w).

(** ** Configuration: the [argparse] namespace *)

Inductive Mode := mode_tor | mode_proxy | mode_vpn | mode_all.

Definition mode_name (m : Mode) : Py.str :=
  match m with
  | mode_tor => Py.lit "tor" | mode_proxy => Py.lit "proxy"
  | mode_vpn => Py.lit "vpn" | mode_all => Py.lit "all"
  end.

Record Args := mk_args {
  mode : Mode;
  interval : Z;                            (* seconds *)
  wait_after_change : Z;                   (* seconds *)
  proxy_list : option Py.str;
  ovpn_dir : option Py.str;
  tor_control_password : option Py.str;
  count : Z;
  run_once : bool;
  dry_run : bool;
  logfile : Py.str
}.

(** [bool(x)] for an optional string argument. *)
Definition given (o : option Py.str) : bool :=
  match o with Some s => Py.truthy s | None => false end.

Definition opt_text (o : option Py.str) : Py.str :=
  match o with Some s => s | None => [] end.

(** The longest sleep, in milliseconds, whose length fits: 9223372036 s. *)
Definition sleep_limit : Z := 9223372036000.

(** The largest time in nanoseconds, [2^63 - 1]. *)
Definition time_max : Z := 9223372036854775807.

Definition too_large : exn :=
  mk_exn OverflowError (Py.lit "timestamp too large to convert to C _PyTime_t").

Definition invalid_argument : exn :=
  mk_exn OSError (Py.lit "[Errno 22] Invalid argument").

Section Program.

Variable env : Env.

(** [AutoChanger._signal_handler], run on the main thread when a signal
    arrives during external call [n].  Its [log] can fail like any other;
    the exception then surfaces in the interrupted call and the flag stays
    unset. *)
Definition _signal_handler (n : nat) : M unit := fun w =>
  let w1 := record (ELog (Py.lit "Interrupt received, stopping...")) w in
  match log_error env n with
  | Some e => (Raise e, w1)
  | None => (Ret tt, set_stop w1)
  end.

(** Signals are taken at external calls, by the handlers once they are
    installed; a signal before that ends the process and is no run of the
    orchestrator. *)
Definition deliver (n : nat) : M unit := fun w =>
  if installed w && signal_at env n
  then _signal_handler n (record ESignal w)
  else (Ret tt, w).

(** An external call: it takes the next call number; a signal arriving
    during it runs the handler first (an exception of the handler aborts the
    call; otherwise the call is resumed, as [time.sleep] is, for its full
    length); then the call is recorded and the world answers.  [ms] is the
    time the call takes. *)
Definition call {A} (ev : World -> event) (answer : nat -> World -> exn + A)
    (ms : Z) : M A := fun w =>
  let n := ops w in
  match deliver n (next_op w) with
  | (Ret _, w1) =>
      let w2 := record (ev w1) w1 in
      match answer n w1 with
      | inl e => (Raise e, w2)
      | inr a => (Ret a, advance ms w2)
      end
  | (Raise e, w1) => (Raise e, w1)
  | (Diverge, w1) => (Diverge, w1)
  end.

Definition unit_answer (o : option exn) : exn + unit :=
  match o with Some e => inl e | None => inr tt end.

(** ** Logging, clock, probe *)

(** [log(msg)]: one call that appends the stamped line to LOGFILE and
    prints [msg]; [main] has bound LOGFILE to [args.logfile]. *)
Definition log (msg : Py.str) : M unit :=
  call (fun _ => ELog msg) (fun n _ => unit_answer (log_error env n)) 0.

(** [time.time()], in milliseconds. *)
Definition now : M Z := fun w => (Ret (clock w), w).

(** The monotonic clock at call [n], read within [0, 2^62] ns: no system
    has been up for 146 years. *)
Definition uptime (n : nat) : Z :=
  Z.max 0 (Z.min (monotonic env n) 4611686018427387904).

(** The deadline of a sleep is the monotonic clock plus its length, in
    nanoseconds in a signed 64-bit integer; when the sum does not fit the
    system call refuses the deadline. *)
Definition sleep_refused (n : nat) (ms : Z) : option exn :=
  if time_max <? uptime n + ms * 1000000 then Some invalid_argument else None.

(** [time.sleep] of [ms] milliseconds, as in CPython 3.11 on Linux.  The
    length is first converted to nanoseconds in a signed 64-bit integer: [OverflowError] when it does not
    fit, which for a whole number of seconds is beyond 9223372036 s in
    either sign.  A negative length then raises [ValueError].  Otherwise the
    system call is made, and raises [OSError] when it refuses the
    deadline. *)
Definition sleep (ms : Z) : M unit :=
  if (ms <? - sleep_limit) || (sleep_limit <? ms) then raise too_large
  else if ms <? 0
  then raise (mk_exn ValueError (Py.lit "sleep length must be non-negative"))
  else call (fun _ => ESleep ms) (fun n _ => unit_answer (sleep_refused n ms)) ms.

(** The exception, if any, that [time.sleep] of [ms] milliseconds raises
    when it is call [n]. *)
Definition sleep_fault (n : nat) (ms : Z) : option exn :=
  if (ms <? - sleep_limit) || (sleep_limit <? ms) then Some too_large
  else if ms <? 0
  then Some (mk_exn ValueError (Py.lit "sleep length must be non-negative"))
  else sleep_refused n ms.

(** [self.stop_event.is_set()] *)
Definition is_set : M bool :=
  call (fun w => EIsSet (stop_event w)) (fun _ w => inr (stop_event w)) 0.

Definition check_url : Py.str := Py.lit "http://checkip.amazonaws.com".

Definition check_ip (proxies : proxies_arg) (timeout : Z) : M Py.str :=
  try_except
    (text <- call (fun _ => EHttpGet check_url proxies timeout)
                  (fun n _ => http_get env n) 0 ;;
     let ip := Py.strip text in
     ret ip)
    any_exception
    (fun e => ret (Py.lit "ERROR: " ++ exn_text e)).

(** ** Tor *)

Definition crlf : Py.str := [13; 10].

Definition sock_close : M unit :=
  call (fun _ => ESockClose) (fun _ _ => inr tt) 0.
Definition send (data : Py.str) : M unit :=
  call (fun _ => ESockSend data) (fun n _ => unit_answer (sock_send env n)) 0.
Definition readline : M Py.str :=
  call (fun _ => ESockReadline) (fun n _ => sock_readline env n) 0.

Definition tor_newnym_via_control (control_host : Py.str) (control_port : Z)
    (password : option Py.str) (timeout : Z) : M bool :=
  try_except
    (call (fun _ => ESockConnect control_host control_port timeout)
          (fun n _ => unit_answer (sock_connect env n)) 0 ;;
     send (if given password
           then Py.lit "AUTHENTICATE " ++ [34] ++ opt_text password ++ [34] ++ crlf
           else Py.lit "AUTHENTICATE" ++ crlf) ;;
     auth_resp <- readline ;;
     if negb (Py.startswith auth_resp (Py.lit "250")) then
       log (Py.lit "Tor control auth failed: " ++ Py.strip auth_resp) ;;
       sock_close ;;
       ret false
     else
       send (Py.lit "SIGNAL NEWNYM" ++ crlf) ;;
       resp <- readline ;;
       sock_close ;;
       if Py.startswith resp (Py.lit "250") then ret true
       else
         log (Py.lit "Tor control SIGNAL response: " ++ Py.strip resp) ;;
         ret false)
    any_exception
    (fun e => log (Py.lit "Tor control error: " ++ exn_text e) ;; ret false).

Definition cmd_try : list (list Py.str) :=
  [ [Py.lit "systemctl"; Py.lit "restart"; Py.lit "tor"];
    [Py.lit "service"; Py.lit "tor"; Py.lit "restart"] ].

(** The [for cmd in cmd_try] loop of [tor_reload_service] with the two
    statements after it. *)
Fixpoint restart_with (cmds : list (list Py.str)) : M bool :=
  match cmds with
  | [] =>
      log (Py.lit "Could not restart tor service automatically. Please restart tor manually.") ;;
      ret false
  | cmd :: rest =>
      try_except
        (call (fun _ => ECheckCall (Py.lit "sudo" :: cmd))
              (fun n _ => unit_answer (check_call env n)) 0 ;;
         log (Py.lit "Ran: sudo " ++ Py.join (Py.lit " ") cmd) ;;
         ret true)
        (fun e => is_CalledProcessError e || is_FileNotFoundError e)
        (fun _ => restart_with rest)
  end.

Definition restart_prompt : Py.str :=
  Py.lit "This will run 'sudo systemctl restart tor' (or 'service tor restart'). Continue? [y/N] >> ".

Definition tor_reload_service : M bool :=
  log (Py.lit "Attempting to restart 'tor' service (requires sudo).") ;;
  raw <- call (fun _ => EInput restart_prompt) (fun n _ => user_input env n) 0 ;;
  let ans := Py.lower (Py.strip raw) in
  if negb (Py.eqb ans (Py.lit "y")) then
    log (Py.lit "User declined to restart tor service.") ;;
    ret false
  else restart_with cmd_try.

Definition tor_change_identity (control_password : option Py.str) : M bool :=
  ok <- tor_newnym_via_control (Py.lit "127.0.0.1") 9051 control_password 5 ;;
  if ok then
    log (Py.lit "Requested NEWNYM via Tor control port.") ;;
    ret true
  else
    log (Py.lit "Tor control port NEWNYM failed; falling back to service restart.") ;;
    tor_reload_service.

(** ** Proxy rotation *)

(** The [for line in f] loop of [load_proxy_list]; [proxies] is the list
    being appended to. *)
Fixpoint collect_proxies (lines : list Py.str) (proxies : list Py.str)
    : list Py.str :=
  match lines with
  | [] => proxies
  | line :: rest =>
      let s := Py.strip line in
      if negb (Py.truthy s) || Py.startswith s (Py.lit "#")
      then collect_proxies rest proxies
      else collect_proxies rest (proxies ++ [s])
  end.

Definition load_proxy_list (path : Py.str) : M (list Py.str) :=
  text <- call (fun _ => EOpenRead path) (fun n _ => open_read env n path) 0 ;;
  ret (collect_proxies (Py.file_lines text) []).

Definition proxy_to_requests_proxies (proxy_url : Py.str) : proxies_arg :=
  Some [(Py.lit "http", proxy_url); (Py.lit "https", proxy_url)].

(** ** VPN rotation *)

Definition find_ovpn_files (dirpath : Py.str) : M (list Py.str) :=
  names <- call (fun _ => EListdir dirpath) (fun n _ => listdir env n dirpath) 0 ;;
  ret (map (Py.path_join dirpath)
           (filter (fun p => Py.endswith (Py.lower p) (Py.lit ".ovpn"))
                   (Py.sorted names))).

Definition start_openvpn (config_path : Py.str) : M (option proc) :=
  log (Py.lit "Starting OpenVPN config: " ++ config_path) ;;
  try_except
    (p <- call (fun _ => EPopen [Py.lit "sudo"; Py.lit "openvpn"; Py.lit "--config"; config_path])
               (fun n _ => match popen env n with Some e => inl e | None => inr n end) 0 ;;
     sleep 2000 ;;
     rc <- call (fun _ => EPoll p) (fun n _ => inr (poll env n)) 0 ;;
     match rc with
     | None =>
         log (Py.lit "OpenVPN process started.") ;;
         ret (Some p)
     | Some returncode =>
         log (Py.lit "OpenVPN process exited quickly. Returncode: " ++ Py.of_Z returncode) ;;
         ret None
     end)
    any_exception
    (fun e =>
       if is_FileNotFoundError e then
         log (Py.lit "openvpn binary not found. Install OpenVPN (e.g. apt install openvpn).") ;;
         ret None
       else
         log (Py.lit "Failed to start openvpn: " ++ exn_text e) ;;
         ret None).

Definition stop_process (p : proc) : M unit :=
  try_except
    (call (fun _ => ETerminate p) (fun n _ => unit_answer (terminate env n)) 0 ;;
     call (fun _ => EWait p 10) (fun n _ => unit_answer (wait env n)) 0 ;;
     log (Py.lit "VPN process terminated."))
    any_exception
    (fun _ =>
       try_except
         (call (fun _ => EKill p) (fun n _ => unit_answer (kill env n)) 0)
         any_exception
         (fun _ => ret tt) ;;
       log (Py.lit "VPN process killed.")).

(** ** Orchestration: class [AutoChanger] *)

Section Changer.

Variable args : Args.

Definition tor_proxies : proxies_arg :=
  Some [(Py.lit "http", Py.lit "socks5h://127.0.0.1:9050");
        (Py.lit "https", Py.lit "socks5h://127.0.0.1:9050")].

Definition run_once_tor : M unit :=
  before <- check_ip None 10 ;;
  log (Py.lit "IP before (direct): " ++ before) ;;
  ok <- tor_change_identity (tor_control_password args) ;;
  if negb ok then
    log (Py.lit "TOR identity change did not complete.") ;;
    ret tt
  else
    sleep (wait_after_change args * 1000) ;;
    try_except
      (after <- check_ip tor_proxies 10 ;;
       log (Py.lit "IP after (via TOR): " ++ after))
      any_exception
      (fun e => log (Py.lit "Failed to check IP via tor: " ++ exn_text e)).

Definition run_once_proxy (proxy_url : Py.str) : M unit :=
  before <- check_ip None 10 ;;
  log (Py.lit "IP before (direct): " ++ before) ;;
  let proxies := proxy_to_requests_proxies proxy_url in
  sleep (wait_after_change args * 1000) ;;
  after <- check_ip proxies 10 ;;
  log (Py.lit "IP via proxy " ++ proxy_url ++ Py.lit ": " ++ after).

Definition run_once_vpn (ovpn_path : Py.str) : M unit :=
  before <- check_ip None 10 ;;
  log (Py.lit "IP before (direct): " ++ before) ;;
  p <- start_openvpn ovpn_path ;;
  match p with
  | None =>
      log (Py.lit "OpenVPN failed to start for this config.") ;;
      ret tt
  | Some p =>
      let wait := Z.max 5 (wait_after_change args) in
      log (Py.lit "Sleeping " ++ Py.of_Z wait ++ Py.lit " seconds for VPN to establish...") ;;
      sleep (wait * 1000) ;;
      after <- check_ip None 10 ;;
      log (Py.lit "IP after VPN: " ++ after) ;;
      stop_process p ;;
      sleep 2000
  end.

(** The [while] loop of [_wait_or_stop]; [start] is [time.time()] at
    entry. *)
Fixpoint wait_loop (fuel : nat) (start : Z) : M unit :=
  match fuel with
  | O => diverge
  | S fuel' =>
      t <- now ;;
      if t - start <? interval args * 1000 then
        stop <- is_set ;;
        if stop then ret tt
        else sleep 500 ;; wait_loop fuel' start
      else ret tt
  end.

(** Each pass of the loop sleeps half a second, so [2 * interval] passes
    and one last test of the clock end it. *)
Definition wait_fuel : nat := S (Z.to_nat (2 * interval args)).

Definition _wait_or_stop : M unit :=
  start <- now ;;
  wait_loop wait_fuel start.

(** [for purl in proxies: ...] of [run_loop] *)
Fixpoint for_proxies (proxies : list Py.str) : M unit :=
  match proxies with
  | [] => ret tt
  | purl :: rest =>
      stop <- is_set ;;
      if stop then ret tt
      else
        log (Py.lit "Using proxy: " ++ purl) ;;
        run_once_proxy purl ;;
        _wait_or_stop ;;
        for_proxies rest
  end.

(** [for cfg in ovpns: ...] of [run_loop] *)
Fixpoint for_ovpns (ovpns : list Py.str) : M unit :=
  match ovpns with
  | [] => ret tt
  | cfg :: rest =>
      stop <- is_set ;;
      if stop then ret tt
      else
        log (Py.lit "Using VPN config: " ++ cfg) ;;
        run_once_vpn cfg ;;
        _wait_or_stop ;;
        for_ovpns rest
  end.

Definition nonempty {A} (l : list A) : bool :=
  match l with [] => false | _ :: _ => true end.

Definition in_tor_all (m : Mode) : bool :=
  match m with mode_tor | mode_all => true | _ => false end.
Definition in_proxy_all (m : Mode) : bool :=
  match m with mode_proxy | mode_all => true | _ => false end.
Definition in_vpn_all (m : Mode) : bool :=
  match m with mode_vpn | mode_all => true | _ => false end.
Definition is_proxy (m : Mode) : bool :=
  match m with mode_proxy => true | _ => false end.
Definition is_vpn (m : Mode) : bool :=
  match m with mode_vpn => true | _ => false end.

(** The per-mode part of one pass of the [while] loop (from "TOR mode" to
    the two "sleeping" cases). *)
Definition modes_pass (proxies ovpns : list Py.str) : M unit :=
  (if in_tor_all (mode args) then
     log (Py.lit "Running TOR change...") ;;
     run_once_tor
   else ret tt) ;;
  (if in_proxy_all (mode args) && nonempty proxies
   then for_proxies proxies else ret tt) ;;
  (if in_vpn_all (mode args) && nonempty ovpns
   then for_ovpns ovpns else ret tt) ;;
  (if is_proxy (mode args) && negb (nonempty proxies) then
     log (Py.lit "No proxies provided; sleeping.") ;;
     _wait_or_stop
   else ret tt) ;;
  (if is_vpn (mode args) && negb (nonempty ovpns) then
     log (Py.lit "No .ovpn files provided; sleeping.") ;;
     _wait_or_stop
   else ret tt).

(** The [while not self.stop_event.is_set()] loop.  [fuel] bounds the
    number of passes; the result is the value of [iteration] at exit. *)
Fixpoint while_loop (fuel : nat) (proxies ovpns : list Py.str)
    (iteration : Z) : M Z :=
  match fuel with
  | O => diverge
  | S fuel' =>
      stop <- is_set ;;
      if stop then ret iteration
      else
        let iteration := iteration + 1 in
        log (Py.lit "--- Iteration " ++ Py.of_Z iteration ++ Py.lit " ---") ;;
        modes_pass proxies ovpns ;;
        if run_once args then
          log (Py.lit "run_once specified; exiting loop.") ;;
          ret iteration
        else if negb (count args =? 0) && (count args <=? iteration) then
          log (Py.lit "Reached count " ++ Py.of_Z (count args) ++ Py.lit ", exiting.") ;;
          ret iteration
        else while_loop fuel' proxies ovpns iteration
  end.

(** [prepare lists] of [run_loop] *)
Definition prepare_proxies : M (list Py.str) :=
  if given (proxy_list args) then
    proxies <- load_proxy_list (opt_text (proxy_list args)) ;;
    log (Py.lit "Loaded " ++ Py.of_Z (Z.of_nat (List.length proxies))
         ++ Py.lit " proxies from " ++ opt_text (proxy_list args)) ;;
    ret proxies
  else ret [].

Definition prepare_ovpns : M (list Py.str) :=
  if given (ovpn_dir args) then
    ovpns <- find_ovpn_files (opt_text (ovpn_dir args)) ;;
    log (Py.lit "Found " ++ Py.of_Z (Z.of_nat (List.length ovpns))
         ++ Py.lit " .ovpn files in " ++ opt_text (ovpn_dir args)) ;;
    ret ovpns
  else ret [].

(** [run_loop]; it returns the number of passes made, which the script
    keeps in the local [iteration]. *)
Definition run_loop (fuel : nat) : M Z :=
  proxies <- prepare_proxies ;;
  ovpns <- prepare_ovpns ;;
  iteration <- while_loop fuel proxies ovpns 0 ;;
  log (Py.lit "AutoChanger finished.") ;;
  ret iteration.

(** [main], after [parse_args] has produced [args]. *)
Definition main (fuel : nat) : M Z :=
  log (Py.lit "AutoChanger started. Mode: " ++ mode_name (mode args)) ;;
  (if dry_run args
   then log (Py.lit "Dry-run mode enabled. Privileged actions will NOT run.")
   else ret tt) ;;
  (fun w => (Ret tt, install w)) ;;
  try_except (run_loop fuel) any_exception
    (fun e => log (Py.lit "Fatal error: " ++ exn_text e) ;; raise e).

End Changer.

End Program.

(** ** Reasoning about runs *)

(** [m] takes every world to one related to it by [R]. *)
Definition respects (R : World -> World -> Prop) {A} (m : M A) : Prop :=
  forall w, R w (snd (m w)).

(** The elementary changes of the world all go along [R]. *)
Definition atom (R : World -> World -> Prop) (f : World -> World) : Prop :=
  forall w, R w (f w).

Definition interrupt_log : event := ELog (Py.lit "Interrupt received, stopping...").

(** What a relation needs so that external calls, and the signal handler
    that may run inside them, go along it. *)
Class Invariant (R : World -> World -> Prop) : Prop := {
  inv_refl : forall w, R w w;
  inv_trans : forall a b c, R a b -> R b c -> R a c;
  inv_next_op : atom R next_op;
  inv_signal : atom R (record ESignal);
  inv_interrupt : atom R (record interrupt_log);
  inv_set_stop : atom R set_stop
}.

(** [m] never runs out of fuel. *)
Definition total {A} (m : M A) : Prop := forall w, fst (m w) <> Diverge.

(** The entries a run adds to the trace all satisfy [P]. *)
Definition emits (P : event -> bool) : World -> World -> Prop :=
  fun w w' => exists evs, trace w' = trace w ++ evs
                          /\ Forall (fun te => P (snd te) = true) evs.

(** The handlers stay as they are, a set flag stays set, the clock and the
    call counter do not go back. *)
Definition frame : World -> World -> Prop :=
  fun w w' => installed w' = installed w
              /\ (stop_event w = true -> stop_event w' = true)
              /\ clock w <= clock w'
              /\ (ops w <= ops w')%nat.

(** ** Kinds of trace entries *)

(** Entries made by a signal: its arrival and the handler's log line. *)
Definition is_noise (ev : event) : bool :=
  match ev with
  | ESignal => true
  | ELog m => Py.eqb m (Py.lit "Interrupt received, stopping...")
  | _ => false
  end.

Definition is_header (m : Py.str) : bool :=
  Py.startswith m (Py.lit "--- Iteration ").

Definition not_header (ev : event) : bool :=
  match ev with ELog m => negb (is_header m) | _ => true end.

(** Entries that can occur before the first pass of the loop: log lines
    other than an iteration header, signals, and the reading of the proxy
    file and of the VPN directory.  No poll of the flag, no sleep, no
    adapter action. *)
Definition preparing (ev : event) : bool :=
  match ev with
  | ELog m => negb (is_header m)
  | ESignal | EOpenRead _ | EListdir _ => true
  | _ => false
  end.

(** Entries of a service restart: the confirmation prompt and the command. *)
Definition no_restart (ev : event) : bool :=
  match ev with EInput _ | ECheckCall _ => false | _ => true end.

Definition no_command (ev : event) : bool :=
  match ev with ECheckCall _ => false | _ => true end.

Definition no_poll (ev : event) : bool :=
  match ev with EIsSet _ => false | _ => true end.

(** Entries of a loop that has seen the flag set: polls, log lines and
    signals.  No sleep and no adapter action. *)
Definition idle (ev : event) : bool :=
  match ev with EIsSet _ | ESignal | ELog _ => true | _ => false end.

(** Entries of [_wait_or_stop]: polls, sleeps of half a second, signals. *)
Definition wait_event (ev : event) : bool :=
  match ev with
  | EIsSet _ | ESignal => true
  | ESleep ms => ms =? 500
  | ELog m => Py.eqb m (Py.lit "Interrupt received, stopping...")
  | _ => false
  end.

Definition is_sleep (ev : event) : bool :=
  match ev with ESleep _ => true | _ => false end.

Definition is_newnym (te : Z * event) : bool :=
  match snd te with
  | ESockSend d => Py.eqb d (Py.lit "SIGNAL NEWNYM" ++ [13; 10])
  | _ => false
  end.

Definition is_teardown (ev : event) : bool :=
  match ev with ETerminate _ | EWait _ _ | EKill _ => true | _ => false end.

(** ** Vocabulary of the statements *)

(** A stripped line that [load_proxy_list] keeps: not empty, not a comment. *)
Definition is_endpoint (s : Py.str) : bool :=
  Py.truthy s && negb (Py.startswith s (Py.lit "#")).

Definition str_eq_dec : forall a b : Py.str, {a = b} + {a <> b} :=
  list_eq_dec Z.eq_dec.

(** The configured proxy file or VPN directory cannot be read: the first
    of the two that [run_loop] touches and that fails raises [e]. *)
Definition unreadable (env : Env) (args : Args) (e : exn) : Prop :=
  (given (proxy_list args) = true
   /\ forall n, open_read env n (opt_text (proxy_list args)) = inl e)
  \/ (given (ovpn_dir args) = true
      /\ (forall n, listdir env n (opt_text (ovpn_dir args)) = inl e)
      /\ (given (proxy_list args) = true ->
          forall n, exists text,
            open_read env n (opt_text (proxy_list args)) = inr text)).

(** [args] with the dry-run flag replaced. *)
Definition with_dry_run (b : bool) (a : Args) : Args :=
  mk_args (mode a) (interval a) (wait_after_change a) (proxy_list a)
          (ovpn_dir a) (tor_control_password a) (count a) (run_once a)
          b (logfile a).

(** Whatever the user types, it is not a yes. *)
Definition declines (env : Env) : Prop :=
  forall n raw, user_input env n = inr raw ->
                Py.eqb (Py.lower (Py.strip raw)) (Py.lit "y") = false.

Definition fallback_msg : Py.str :=
  Py.lit "Tor control port NEWNYM failed; falling back to service restart.".

(** What a stretch of a run did: the entries it added to the trace, without
    the noise of signals and without the time stamps. *)
Definition did (w w' : World) (l : list event) : Prop :=
  exists evs,
    trace w' = trace w ++ evs
    /\ filter (fun ev => negb (is_noise ev)) (map snd evs) = l.

(** The teardown of [stop_process] for child [p], by what [terminate] and
    [wait] answered. *)
Definition teardown (p : proc) (terminated waited : option exn) : list event :=
  match terminated, waited with
  | None, None =>
      [ETerminate p; EWait p 10; ELog (Py.lit "VPN process terminated.")]
  | None, Some _ =>
      [ETerminate p; EWait p 10; EKill p; ELog (Py.lit "VPN process killed.")]
  | Some _, _ =>
      [ETerminate p; EKill p; ELog (Py.lit "VPN process killed.")]
  end.

(** [f"--- Iteration {k} ---"] *)
Definition header (k : Z) : Py.str :=
  Py.lit "--- Iteration " ++ Py.of_Z k ++ Py.lit " ---".

(** The iteration headers among the entries of a trace. *)
Fixpoint headers (evs : list (Z * event)) : list Py.str :=
  match evs with
  | [] => []
  | (_, ELog m) :: r => if is_header m then m :: headers r else headers r
  | _ :: r => headers r
  end.

(** [a, a+1, ..., a+len-1] *)
Fixpoint upto (a : Z) (len : nat) : list Z :=
  match len with
  | O => []
  | S len' => a :: upto (a + 1) len'
  end.

(** The first poll that read the flag as set: its time, and the entries
    after it. *)
Fixpoint after_set_poll (evs : list (Z * event))
    : option (Z * list (Z * event)) :=
  match evs with
  | [] => None
  | (t, EIsSet true) :: r => Some (t, r)
  | _ :: r => after_set_poll r
  end.

Definition all_idle (evs : list (Z * event)) : Prop :=
  Forall (fun te => idle (snd te) = true) evs.

(** After a poll that read the flag as set, a run only adds idle entries
    and ends at the time of that poll. *)
Definition settled (evs : list (Z * event)) (end_clock : Z) : Prop :=
  match after_set_poll evs with
  | Some (t, post) => all_idle post /\ end_clock = t
  | None => True
  end.

(** Started with the flag set, a run only adds idle entries, takes no time
    and leaves the flag set. *)
Definition halted (w w' : World) (evs : list (Z * event)) : Prop :=
  stop_event w = true ->
  all_idle evs /\ clock w' = clock w /\ stop_event w' = true.

(** A stretch of a run that honours the flag: once a poll has read it as
    set, and from the start if it is set then, nothing but idle entries is
    added and no time passes. *)
Definition calm : World -> World -> Prop :=
  fun w w' => exists evs,
    trace w' = trace w ++ evs
    /\ settled evs (clock w')
    /\ halted w w' evs
    /\ (after_set_poll evs <> None -> stop_event w' = true).

(** [calm] without the part about a start with the flag set: what holds of a
    stretch that begins with adapter actions. *)
Definition calm0 : World -> World -> Prop :=
  fun w w' => exists evs,
    trace w' = trace w ++ evs
    /\ settled evs (clock w')
    /\ (after_set_poll evs <> None -> stop_event w' = true).

(** ** Worlds and command lines used as examples *)

(** A world in which the IP service answers with an address, the Tor control
    port accepts once connected and commands succeed; a started child keeps
    running and stops when told to.  The log file fails as [log_fails] says,
    connecting to the control port gives [connect], the user answers the
    prompt with [answer], the proxy file reads as [file], the VPN directory
    lists as [names], and signals arrive as [signals] says.  The system has
    been up for an hour. *)
Definition env_with (log_fails : nat -> option exn) (connect : option exn)
    (answer : Py.str) (file : exn + Py.str) (names : exn + list Py.str)
    (signals : nat -> bool) : Env :=
  mk_env log_fails
         (fun _ => inr (Py.lit "203.0.113.7" ++ [10]))
         (fun _ => connect) (fun _ => None)
         (fun _ => inr (Py.lit "250 OK" ++ [13; 10]))
         (fun _ => inr answer)
         (fun _ => None) (fun _ => None) (fun _ => None)
         (fun _ => None) (fun _ => None) (fun _ => None)
         (fun _ _ => file) (fun _ _ => names) signals
         (fun _ => 3600000000000).

Definition says_no : Py.str := Py.lit "n" ++ [10].
Definition says_yes : Py.str := Py.lit "y" ++ [10].

(** The well-behaved world: nothing fails, the user declines, no signal. *)
Definition env_fine (file : Py.str) (names : list Py.str) : Env :=
  env_with (fun _ => None) None says_no (inr file) (inr names) (fun _ => false).

Definition no_such_file : exn :=
  mk_exn FileNotFoundError (Py.lit "[Errno 2] No such file or directory").

(** Neither the proxy file nor the VPN directory exists. *)
Definition env_missing : Env :=
  env_with (fun _ => None) None says_no (inl no_such_file) (inl no_such_file)
           (fun _ => false).

Definition refused : exn :=
  mk_exn OtherError (Py.lit "[Errno 111] Connection refused").

(** The Tor control port refuses the connection and the user answers the
    prompt with [answer]. *)
Definition env_refused (answer : Py.str) : Env :=
  env_with (fun _ => None) (Some refused) answer (inr []) (inr [])
           (fun _ => false).

Definition disk_full : exn :=
  mk_exn OtherError (Py.lit "[Errno 28] No space left on device").

(** One VPN profile, and the log file cannot be written at call [k]. *)
Definition env_log_fails_at (k : nat) : Env :=
  env_with (fun n => if Nat.eqb n k then Some disk_full else None) None says_no
           (inr []) (inr [Py.lit "a.ovpn"]) (fun _ => false).

Definition proxies_txt : Py.str := Py.lit "proxies.txt".
Definition p1 : Py.str := Py.lit "http://p1:8080".

(** One proxy in the file, and a signal arrives during call [k]. *)
Definition env_signal_at (k : nat) : Env :=
  env_with (fun _ => None) None says_no (inr (p1 ++ [10])) (inr [])
           (fun n => Nat.eqb n k).

(** A proxy-list file with the same endpoint on two lines, a comment and a
    blank line. *)
Definition twice_file : Py.str :=
  Py.lit "http://p1:8080" ++ [10] ++ Py.lit "# again" ++ [10] ++ [10]
  ++ Py.lit "  http://p1:8080 " ++ [13; 10].

Definition log_path : Py.str := Py.lit "auto_changer.log".

(** [--mode proxy --proxy-list proxies.txt --interval 60 --wait-after-change 5] *)
Definition args_proxy_loop : Args :=
  mk_args mode_proxy 60 5 (Some proxies_txt) None None 0 false false log_path.

(** [--mode all --ovpn-dir /etc/openvpn --interval 0 --wait-after-change 0
    --run-once --dry-run] *)
Definition args_dry : Args :=
  mk_args mode_all 0 0 None (Some (Py.lit "/etc/openvpn")) None 0 true true
          log_path.

(** [--mode tor --interval 60 --wait-after-change 5 --count 2] *)
Definition args_tor_twice : Args :=
  mk_args mode_tor 60 5 None None None 2 false false log_path.

(** [--mode vpn --ovpn-dir /etc/openvpn --interval 0 --run-once] *)
Definition args_vpn_once : Args :=
  mk_args mode_vpn 0 5 None (Some (Py.lit "/etc/openvpn")) None 0 true false
          log_path.

(** ** Vocabulary of the further properties *)

(** [p.lower().endswith(".ovpn")] *)
Definition is_ovpn (p : Py.str) : bool :=
  Py.endswith (Py.lower p) (Py.lit ".ovpn").

Definition str_le (a b : Py.str) : Prop := Py.leb a b = true.

Fixpoint argv_eqb (a b : list Py.str) : bool :=
  match a, b with
  | [], [] => true
  | x :: a', y :: b' => Py.eqb x y && argv_eqb a' b'
  | _, _ => false
  end.

(** Actions of the Tor adapter: the control-port socket, the restart prompt
    and the restart commands. *)
Definition tor_action (ev : event) : bool :=
  match ev with
  | ESockConnect _ _ _ | ESockSend _ | ESockReadline | ESockClose
  | EInput _ | ECheckCall _ => true
  | _ => false
  end.

(** Actions on an OpenVPN child. *)
Definition vpn_action (ev : event) : bool :=
  match ev with
  | EPopen _ | EPoll _ | ETerminate _ | EWait _ _ | EKill _ => true
  | _ => false
  end.

(** A probe sent through some proxy. *)
Definition proxied (ev : event) : bool :=
  match ev with EHttpGet _ (Some _) _ => true | _ => false end.

(** A probe sent through Tor's SOCKS port for both schemes. *)
Definition via_tor (ev : event) : bool :=
  match ev with
  | EHttpGet _ (Some [(_, a); (_, b)]) _ =>
      Py.eqb a (Py.lit "socks5h://127.0.0.1:9050")
      && Py.eqb b (Py.lit "socks5h://127.0.0.1:9050")
  | _ => false
  end.

(** What a run in each mode may do. *)
Definition allowed (m : Mode) (ev : event) : bool :=
  match m with
  | mode_tor => negb (vpn_action ev) && (negb (proxied ev) || via_tor ev)
  | mode_proxy => negb (tor_action ev) && negb (vpn_action ev)
  | mode_vpn => negb (tor_action ev) && negb (proxied ev)
  | mode_all => true
  end.

Definition openvpn_argv (config_path : Py.str) : list Py.str :=
  [Py.lit "sudo"; Py.lit "openvpn"; Py.lit "--config"; config_path].

(** What [start_openvpn] gives back when it is entered as call [n]: the
    child, if [Popen] (call [1 + n]) succeeds and the poll (call [3 + n])
    finds it alive. *)
Definition started (env : Env) (n : nat) : option proc :=
  match popen env (1 + n)%nat, poll env (3 + n)%nat with
  | None, None => Some (1 + n)%nat
  | _, _ => None
  end.

(** The line [start_openvpn] logs last. *)
Definition start_report (env : Env) (n : nat) : Py.str :=
  match popen env (1 + n)%nat, poll env (3 + n)%nat with
  | Some e, _ =>
      if is_FileNotFoundError e
      then Py.lit "openvpn binary not found. Install OpenVPN (e.g. apt install openvpn)."
      else Py.lit "Failed to start openvpn: " ++ exn_text e
  | None, None => Py.lit "OpenVPN process started."
  | None, Some returncode =>
      Py.lit "OpenVPN process exited quickly. Returncode: " ++ Py.of_Z returncode
  end.

(** What [start_openvpn] does between its first and its last log line. *)
Definition start_actions (env : Env) (n : nat) (config_path : Py.str)
    : list event :=
  match popen env (1 + n)%nat with
  | Some _ => [EPopen (openvpn_argv config_path)]
  | None => [EPopen (openvpn_argv config_path); ESleep 2000; EPoll (1 + n)%nat]
  end.

Definition negative_sleep : exn :=
  mk_exn ValueError (Py.lit "sleep length must be non-negative").

(** [time.sleep] takes a length of [ms] milliseconds whenever it is called:
    the length fits and is not negative, and the system does not refuse the
    deadline. *)
Definition accepts (env : Env) (ms : Z) : Prop :=
  forall n, sleep_fault env n ms = None.

(** What [time.sleep] raises for a whole number of seconds that is negative
    or beyond 9223372036. *)
Definition rejected_length (secs : Z) : exn :=
  if (secs <? -9223372036) || (9223372036 <? secs)
  then too_large else negative_sleep.

(** The first line sent to the control port. *)
Definition auth_line (password : option Py.str) : Py.str :=
  if given password
  then Py.lit "AUTHENTICATE " ++ [34] ++ opt_text password ++ [34] ++ crlf
  else Py.lit "AUTHENTICATE" ++ crlf.

Definition newnym_line : Py.str := Py.lit "SIGNAL NEWNYM" ++ crlf.

(** The external actions the script is written to make: probes of the one
    IP service with a timeout of 10; the local Tor control port with a
    timeout of 5, on which exactly two lines are written, the
    authentication line made from the configured password and the request
    for a new identity; the restart prompt; the two restart commands and the
    OpenVPN command, each under [sudo]; and a [wait] with a timeout of 10.
    Log lines, sleeps and reads of the two configured paths are not
    restricted. *)
Definition scripted (args : Args) (ev : event) : bool :=
  match ev with
  | EHttpGet url _ timeout => Py.eqb url check_url && (timeout =? 10)
  | ESockConnect host port timeout =>
      Py.eqb host (Py.lit "127.0.0.1") && (port =? 9051) && (timeout =? 5)
  | ESockSend data =>
      Py.eqb data newnym_line
      || Py.eqb data (auth_line (tor_control_password args))
  | EInput prompt => Py.eqb prompt restart_prompt
  | ECheckCall argv =>
      argv_eqb argv [Py.lit "sudo"; Py.lit "systemctl"; Py.lit "restart"; Py.lit "tor"]
      || argv_eqb argv [Py.lit "sudo"; Py.lit "service"; Py.lit "tor"; Py.lit "restart"]
  | EPopen argv =>
      match argv with
      | [a; b; c; _] =>
          Py.eqb a (Py.lit "sudo") && Py.eqb b (Py.lit "openvpn")
          && Py.eqb c (Py.lit "--config")
      | _ => false
      end
  | EWait _ timeout => timeout =? 10
  | _ => true
  end.

Definition control_error (e : exn) : event :=
  ELog (Py.lit "Tor control error: " ++ exn_text e).

(** The control port, reached as call [n], takes the request: the
    connection and both writes succeed and both replies start with [250]. *)
Definition newnym_accepts (env : Env) (n : nat) : bool :=
  match sock_connect env n with
  | Some _ => false
  | None =>
    match sock_send env (1 + n)%nat with
    | Some _ => false
    | None =>
      match sock_readline env (2 + n)%nat with
      | inl _ => false
      | inr auth_resp =>
        Py.startswith auth_resp (Py.lit "250")
        && match sock_send env (3 + n)%nat with
           | Some _ => false
           | None =>
             match sock_readline env (4 + n)%nat with
             | inl _ => false
             | inr resp => Py.startswith resp (Py.lit "250")
             end
           end
      end
    end
  end.

(** The exception, if any, that a write or a read on the connected socket
    raises during the exchange that starts as call [n]. *)
Definition socket_fault (env : Env) (n : nat) : option exn :=
  match sock_send env (1 + n)%nat with
  | Some e => Some e
  | None =>
    match sock_readline env (2 + n)%nat with
    | inl e => Some e
    | inr auth_resp =>
      if Py.startswith auth_resp (Py.lit "250") then
        match sock_send env (3 + n)%nat with
        | Some e => Some e
        | None =>
          match sock_readline env (4 + n)%nat with
          | inl e => Some e
          | inr _ => None
          end
        end
      else None
    end
  end.

(** What [tor_newnym_via_control] does when it is entered as call [n]. *)
Definition newnym_events (env : Env) (n : nat) (host : Py.str) (port : Z)
    (password : option Py.str) (timeout : Z) : list event :=
  ESockConnect host port timeout ::
  match sock_connect env n with
  | Some e => [control_error e]
  | None =>
    ESockSend (auth_line password) ::
    match sock_send env (1 + n)%nat with
    | Some e => [control_error e]
    | None =>
      ESockReadline ::
      match sock_readline env (2 + n)%nat with
      | inl e => [control_error e]
      | inr auth_resp =>
        if Py.startswith auth_resp (Py.lit "250") then
          ESockSend newnym_line ::
          match sock_send env (3 + n)%nat with
          | Some e => [control_error e]
          | None =>
            ESockReadline ::
            match sock_readline env (4 + n)%nat with
            | inl e => [control_error e]
            | inr resp =>
              ESockClose ::
              if Py.startswith resp (Py.lit "250") then []
              else [ELog (Py.lit "Tor control SIGNAL response: " ++ Py.strip resp)]
            end
          end
        else [ELog (Py.lit "Tor control auth failed: " ++ Py.strip auth_resp);
              ESockClose]
      end
    end
  end.

Definition is_close (ev : event) : bool :=
  match ev with ESockClose => true | _ => false end.

(** The user's answer to the restart prompt is a yes. *)
Definition says_y (raw : Py.str) : bool :=
  Py.eqb (Py.lower (Py.strip raw)) (Py.lit "y").

(** An exception after which the next restart command is tried. *)
Definition retryable (e : exn) : bool :=
  is_CalledProcessError e || is_FileNotFoundError e.

Definition systemctl_restart : list Py.str :=
  [Py.lit "sudo"; Py.lit "systemctl"; Py.lit "restart"; Py.lit "tor"].
Definition service_restart : list Py.str :=
  [Py.lit "sudo"; Py.lit "service"; Py.lit "tor"; Py.lit "restart"].

(** How the two restart commands end, by what [check_call] answers to the
    first and to the second. *)
Definition restart_outcome (first second : option exn) : Outcome bool :=
  match first with
  | None => Ret true
  | Some e =>
      if retryable e then
        match second with
        | None => Ret true
        | Some e' => if retryable e' then Ret false else Raise e'
        end
      else Raise e
  end.

Definition restart_events (first second : option exn) : list event :=
  ECheckCall systemctl_restart ::
  match first with
  | None => [ELog (Py.lit "Ran: sudo systemctl restart tor")]
  | Some e =>
      if retryable e then
        ECheckCall service_restart ::
        match second with
        | None => [ELog (Py.lit "Ran: sudo service tor restart")]
        | Some e' =>
            if retryable e'
            then [ELog (Py.lit "Could not restart tor service automatically. Please restart tor manually.")]
            else []
        end
      else []
  end.

Definition attempt_msg : Py.str :=
  Py.lit "Attempting to restart 'tor' service (requires sudo).".

(** Neither a sleep, nor a probe through a proxy, nor a command. *)
Definition tor_quiet (ev : event) : bool :=
  negb (is_sleep ev) && negb (proxied ev) && no_command ev.

(** The lines [main] logs before it builds the [AutoChanger]. *)
Definition startup_lines (args : Args) : list event :=
  ELog (Py.lit "AutoChanger started. Mode: " ++ mode_name (mode args))
  :: (if dry_run args
      then [ELog (Py.lit "Dry-run mode enabled. Privileged actions will NOT run.")]
      else []).

(** [m] never raises. *)
Definition safe {A} (m : M A) : Prop := forall w e, fst (m w) <> Raise e.

(** The probes through a proxy among the entries of a trace. *)
Definition proxied_probes (evs : list (Z * event)) : list event :=
  filter proxied (map snd evs).

(** The probe of [run_once_proxy] for one proxy URL. *)
Definition probe_through (proxy_url : Py.str) : event :=
  EHttpGet check_url (proxy_to_requests_proxies proxy_url) 10.

(** The probes through a proxy that a stretch of a run made, in order. *)
Definition probed (w w' : World) (l : list event) : Prop :=
  exists evs, trace w' = trace w ++ evs /\ proxied_probes evs = l.

Definition is_popen (ev : event) : bool :=
  match ev with EPopen _ => true | _ => false end.

Definition no_popen (ev : event) : bool := negb (is_popen ev).

(** The entries of kind [Q] that a stretch of a run added, in order. *)
Definition saw (Q : event -> bool) (w w' : World) (l : list event) : Prop :=
  exists evs, trace w' = trace w ++ evs /\ filter Q (map snd evs) = l.

(** Neither the proxy file nor the VPN directory is read. *)
Definition no_read (ev : event) : bool :=
  match ev with EOpenRead _ | EListdir _ => false | _ => true end.

(** One stretch that only does what mode [a] may do, then one for mode [b]. *)
Definition then_mode (a b : Mode) (w w' : World) : Prop :=
  exists wm, emits (allowed a) w wm /\ emits (allowed b) wm w'.

(** The stop flag is as it was. *)
Definition same_flag (w w' : World) : Prop := stop_event w' = stop_event w.

(** What the [except] clauses of [start_openvpn] log for [e]. *)
Definition start_failure (e : exn) : Py.str :=
  if is_FileNotFoundError e
  then Py.lit "openvpn binary not found. Install OpenVPN (e.g. apt install openvpn)."
  else Py.lit "Failed to start openvpn: " ++ exn_text e.

(** What a VPN cycle entered as call [n] does up to the start of a child
    that is alive at the poll; [before] is the address the probe gave. *)
Definition vpn_started (n : nat) (ovpn_path before : Py.str) : list event :=
  [ EHttpGet check_url None 10;
    ELog (Py.lit "IP before (direct): " ++ before);
    ELog (Py.lit "Starting OpenVPN config: " ++ ovpn_path);
    EPopen (openvpn_argv ovpn_path);
    ESleep 2000;
    EPoll (3 + n)%nat;
    ELog (Py.lit "OpenVPN process started.") ].

(** [wait = max(5, self.args.wait_after_change)] *)
Definition settle_time (args : Args) : Z := Z.max 5 (wait_after_change args).

Definition sleeping_line (args : Args) : event :=
  ELog (Py.lit "Sleeping " ++ Py.of_Z (settle_time args)
        ++ Py.lit " seconds for VPN to establish...").

(** [--mode vpn --ovpn-dir /etc/openvpn --wait-after-change 10000000000
    --run-once] *)
Definition args_vpn_long : Args :=
  mk_args mode_vpn 0 10000000000 None (Some (Py.lit "/etc/openvpn")) None 0 true
          false log_path.

(** * Properties *)

(** ** Text *)

Lemma lstrip_head (s : Py.str) (c : Z) (r : Py.str) :
  Py.lstrip s = c :: r -> Py.isspace c = false.
Proof.
  induction s as [|x s IH]; simpl; [discriminate|].
  destruct (Py.isspace x) eqn:E; [exact IH|].
  intros H. injection H as -> _. exact E.
Qed.

Lemma lstrip_snoc (s : Py.str) (c : Z) :
  Py.isspace c = false -> Py.lstrip (s ++ [c]) = Py.lstrip s ++ [c].
Proof.
  intros Hc. induction s as [|x s IH]; simpl.
  - now rewrite Hc.
  - destruct (Py.isspace x); [exact IH | reflexivity].
Qed.

Lemma strip_head (s : Py.str) (c : Z) (r : Py.str) :
  Py.strip s = c :: r -> Py.isspace c = false.
Proof.
  unfold Py.strip, Py.rstrip.
  destruct (Py.lstrip s) as [|x l] eqn:E; [discriminate|].
  pose proof (lstrip_head _ _ _ E) as Hx.
  simpl rev. rewrite (lstrip_snoc _ _ Hx), rev_app_distr. simpl.
  intros H. injection H as -> _. exact Hx.
Qed.

(** ** Proxy list *)

Lemma collect_proxies_filter (lines acc : list Py.str) :
  collect_proxies lines acc = acc ++ filter is_endpoint (map Py.strip lines).
Proof.
  revert acc. induction lines as [|l lines IH]; intros acc;
    cbn [collect_proxies map filter].
  - now rewrite app_nil_r.
  - unfold is_endpoint at 1.
    destruct (Py.truthy (Py.strip l)); cbn [negb orb andb].
    + destruct (Py.startswith (Py.strip l) (Py.lit "#")); cbn [negb].
      * apply IH.
      * rewrite IH, <- app_assoc. reflexivity.
    + apply IH.
Qed.

Lemma load_proxy_list_inv env path w ps w' :
  load_proxy_list env path w = (Ret ps, w') ->
  exists text, open_read env (ops w) path = inr text
               /\ ps = collect_proxies (Py.file_lines text) [].
Proof.
  unfold load_proxy_list, bind, call.
  destruct (deliver env (ops w) (next_op w)) as [[[]|e|] w1]; try discriminate.
  destruct (open_read env (ops w) path) as [e|text] eqn:E; [discriminate|].
  unfold ret. intros H. injection H as <- _. eauto.
Qed.

Lemma lstrip_fixed (s : Py.str) :
  match s with c :: _ => Py.isspace c = false | [] => True end ->
  Py.lstrip s = s.
Proof. destruct s as [|c r]; simpl; [reflexivity|]. now intros ->. Qed.

Lemma strip_idempotent (s : Py.str) : Py.strip (Py.strip s) = Py.strip s.
Proof.
  assert (L : Py.lstrip (Py.strip s) = Py.strip s).
  { apply lstrip_fixed. destruct (Py.strip s) as [|c r] eqn:E; [exact I|].
    exact (strip_head _ _ _ E). }
  unfold Py.strip at 1. rewrite L. unfold Py.rstrip.
  assert (R : Py.lstrip (rev (Py.strip s)) = rev (Py.strip s)).
  { apply lstrip_fixed. unfold Py.strip, Py.rstrip. rewrite rev_involutive.
    destruct (Py.lstrip (rev (Py.lstrip s))) as [|c r] eqn:E; [exact I|].
    exact (lstrip_head _ _ _ E). }
  rewrite R. apply rev_involutive.
Qed.

Lemma filter_strip_entries (lines : list Py.str) :
  Forall (fun s => Py.strip s = s /\ s <> [] /\ Py.startswith s (Py.lit "#") = false)
         (filter is_endpoint (map Py.strip lines)).
Proof.
  apply Forall_forall. intros s Hs. apply filter_In in Hs as [Hin Hk].
  apply in_map_iff in Hin as (l & <- & _).
  unfold is_endpoint in Hk. apply andb_true_iff in Hk as [Ht Hc].
  split; [apply strip_idempotent|]. split.
  - destruct (Py.strip l); [discriminate | discriminate].
  - now apply negb_true_iff in Hc.
Qed.

(** C8.  Whatever the file holds, the list [load_proxy_list] returns is the
    stripped lines of the file, in file order, without the empty ones and
    without those that begin with [#]: no entry is blank (even after another
    strip) and none starts with [#]. *)
Theorem load_proxy_list_filtered_in_order env path w ps w' :
  load_proxy_list env path w = (Ret ps, w') ->
  exists text,
    open_read env (ops w) path = inr text
    /\ ps = filter is_endpoint (map Py.strip (Py.file_lines text))
    /\ Forall (fun s => Py.strip s <> []
                        /\ Py.startswith (Py.strip s) (Py.lit "#") = false) ps.
Proof.
  intros H. apply load_proxy_list_inv in H as (text & Ho & ->).
  exists text. split; [exact Ho|].
  rewrite collect_proxies_filter. simpl. split; [reflexivity|].
  eapply Forall_impl; [|apply filter_strip_entries].
  intros s (-> & Hne & Hc). now split.
Qed.

Lemma load_proxy_list_filtered_in_order_witness :
  exists text,
    open_read (env_fine twice_file []) (ops world0) proxies_txt = inr text
    /\ [p1; p1] = filter is_endpoint (map Py.strip (Py.file_lines text))
    /\ Forall (fun s => Py.strip s <> []
                        /\ Py.startswith (Py.strip s) (Py.lit "#") = false) [p1; p1].
Proof.
  exact (load_proxy_list_filtered_in_order (env_fine twice_file []) proxies_txt
           world0 [p1; p1]
           (snd (load_proxy_list (env_fine twice_file []) proxies_txt world0))
           eq_refl).
Defined.

Lemma count_occ_filter_kept (f : Py.str -> bool) (l : list Py.str) (s : Py.str) :
  f s = true ->
  count_occ str_eq_dec (filter f l) s = count_occ str_eq_dec l s.
Proof.
  intros Hs. induction l as [|x l IH]; simpl; [reflexivity|].
  destruct (str_eq_dec x s) as [->|Hne].
  - rewrite Hs. simpl. destruct (str_eq_dec s s); [now rewrite IH | contradiction].
  - destruct (f x); simpl; [|exact IH].
    destruct (str_eq_dec x s); [contradiction | exact IH].
Qed.

(** C9, as the code has it.  Nothing removes duplicates: an endpoint is
    returned once for every line of the file whose stripped text is that
    endpoint. *)
Theorem load_proxy_list_one_entry_per_line env path w ps w' :
  load_proxy_list env path w = (Ret ps, w') ->
  exists text,
    open_read env (ops w) path = inr text
    /\ forall s, is_endpoint s = true ->
         count_occ str_eq_dec ps s
         = count_occ str_eq_dec (map Py.strip (Py.file_lines text)) s.
Proof.
  intros H. apply load_proxy_list_inv in H as (text & Ho & ->).
  exists text. split; [exact Ho|]. intros s Hs.
  rewrite collect_proxies_filter. simpl. now apply count_occ_filter_kept.
Qed.

Lemma load_proxy_list_one_entry_per_line_witness :
  exists text,
    open_read (env_fine twice_file []) (ops world0) proxies_txt = inr text
    /\ forall s, is_endpoint s = true ->
         count_occ str_eq_dec [p1; p1] s
         = count_occ str_eq_dec (map Py.strip (Py.file_lines text)) s.
Proof.
  exact (load_proxy_list_one_entry_per_line (env_fine twice_file []) proxies_txt
           world0 [p1; p1]
           (snd (load_proxy_list (env_fine twice_file []) proxies_txt world0))
           eq_refl).
Defined.

(** C9, as stated, fails: a file that names the same endpoint on two lines
    is parsed into a list that holds it twice. *)
Lemma load_proxy_list_keeps_duplicates :
  fst (load_proxy_list (env_fine twice_file []) proxies_txt world0)
  = Ret [p1; p1]
  /\ ~ NoDup [p1; p1].
Proof.
  split; [reflexivity|].
  intros H. inversion H as [|x l Hin _]; subst. apply Hin. now left.
Qed.

(** ** Runs: structural rules *)

Lemma bind_Ret_inv {A B} (m : M A) (f : A -> M B) w b w' :
  bind m f w = (Ret b, w') ->
  exists a w1, m w = (Ret a, w1) /\ f a w1 = (Ret b, w').
Proof.
  unfold bind. destruct (m w) as [[a|e|] w1]; try discriminate. eauto.
Qed.

Lemma bind_Ret {A B} (m : M A) (f : A -> M B) w a w1 :
  m w = (Ret a, w1) -> bind m f w = f a w1.
Proof. unfold bind. now intros ->. Qed.

Lemma bind_Raise {A B} (m : M A) (f : A -> M B) w e w1 :
  m w = (Raise e, w1) -> bind m f w = (Raise e, w1).
Proof. unfold bind. now intros ->. Qed.

Section Structural.

Context (R : World -> World -> Prop) `{Invariant R}.

Lemma respects_ret {A} (a : A) : respects R (ret a).
Proof. intros w. apply inv_refl. Qed.

Lemma respects_raise {A} (e : exn) : respects R (@raise A e).
Proof. intros w. apply inv_refl. Qed.

Lemma respects_diverge {A} : respects R (@diverge A).
Proof. intros w. apply inv_refl. Qed.

Lemma respects_now : respects R now.
Proof. intros w. apply inv_refl. Qed.

Lemma respects_bind {A B} (m : M A) (f : A -> M B) :
  respects R m -> (forall a, respects R (f a)) -> respects R (bind m f).
Proof.
  intros Hm Hf w. unfold bind. specialize (Hm w).
  destruct (m w) as [[a|e|] w1]; simpl in *; try exact Hm.
  eapply inv_trans; [exact Hm | apply Hf].
Qed.

Lemma respects_try {A} (m : M A) sel (h : exn -> M A) :
  respects R m -> (forall e, respects R (h e)) -> respects R (try_except m sel h).
Proof.
  intros Hm Hh w. unfold try_except. specialize (Hm w).
  destruct (m w) as [[a|e|] w1]; simpl in *; try exact Hm.
  destruct (sel e); [|exact Hm].
  eapply inv_trans; [exact Hm | apply Hh].
Qed.

Lemma respects_deliver env n : respects R (deliver env n).
Proof.
  intros w. unfold deliver.
  destruct (installed w && signal_at env n); [|apply inv_refl].
  unfold _signal_handler. fold interrupt_log.
  assert (R w (record interrupt_log (record ESignal w))).
  { eapply inv_trans; [apply inv_signal | apply inv_interrupt]. }
  destruct (log_error env n); simpl; [assumption|].
  eapply inv_trans; [eassumption | apply inv_set_stop].
Qed.

Lemma respects_call env {A} ev (answer : nat -> World -> exn + A) ms :
  (forall w0, atom R (record (ev w0))) -> atom R (advance ms) ->
  respects R (call env ev answer ms).
Proof.
  intros Hev Hms w. unfold call.
  pose proof (respects_deliver env (ops w) (next_op w)) as Hd.
  assert (Hn : R w (snd (deliver env (ops w) (next_op w)))).
  { eapply inv_trans; [apply inv_next_op | exact Hd]. }
  destruct (deliver env (ops w) (next_op w)) as [[[]|e|] w1]; simpl in *;
    try exact Hn.
  assert (R w (record (ev w1) w1)) by (eapply inv_trans; [exact Hn | apply Hev]).
  destruct (answer (ops w) w1); simpl; [assumption|].
  eapply inv_trans; [eassumption | apply Hms].
Qed.

Lemma respects_sleep env ms :
  atom R (record (ESleep ms)) -> (0 <= ms -> atom R (advance ms)) ->
  respects R (sleep env ms).
Proof.
  intros Hev Hms. unfold sleep.
  destruct ((ms <? - sleep_limit) || (sleep_limit <? ms)); [apply respects_raise|].
  destruct (ms <? 0) eqn:E.
  - apply respects_raise.
  - apply respects_call; [intros _; exact Hev | apply Hms; lia].
Qed.

End Structural.

Lemma total_ret {A} (a : A) : total (ret a).
Proof. intros w. discriminate. Qed.

Lemma total_raise {A} (e : exn) : total (@raise A e).
Proof. intros w. discriminate. Qed.

Lemma total_now : total now.
Proof. intros w. discriminate. Qed.

Lemma total_bind {A B} (m : M A) (f : A -> M B) :
  total m -> (forall a, total (f a)) -> total (bind m f).
Proof.
  intros Hm Hf w. unfold bind. specialize (Hm w).
  destruct (m w) as [[a|e|] w1]; simpl in *;
    [apply Hf | discriminate | contradiction].
Qed.

Lemma total_try {A} (m : M A) sel (h : exn -> M A) :
  total m -> (forall e, total (h e)) -> total (try_except m sel h).
Proof.
  intros Hm Hh w. unfold try_except. specialize (Hm w).
  destruct (m w) as [[a|e|] w1]; simpl in *;
    [discriminate | | contradiction].
  destruct (sel e); [apply Hh | discriminate].
Qed.

Lemma deliver_not_Diverge env n w : fst (deliver env n w) <> Diverge.
Proof.
  unfold deliver. destruct (installed w && signal_at env n); [|discriminate].
  unfold _signal_handler. destruct (log_error env n); discriminate.
Qed.

Lemma total_call env {A} ev (answer : nat -> World -> exn + A) ms :
  total (call env ev answer ms).
Proof.
  intros w. unfold call.
  pose proof (deliver_not_Diverge env (ops w) (next_op w)) as Hd.
  destruct (deliver env (ops w) (next_op w)) as [[[]|e|] w1]; simpl in *;
    [|discriminate|contradiction].
  destruct (answer (ops w) w1); discriminate.
Qed.

Lemma total_sleep env ms : total (sleep env ms).
Proof.
  unfold sleep.
  destruct ((ms <? - sleep_limit) || (sleep_limit <? ms)); [apply total_raise|].
  destruct (ms <? 0); [apply total_raise | apply total_call].
Qed.

(** ** The two families of invariants *)

#[export] Instance frame_invariant : Invariant frame.
Proof.
  split; unfold atom, frame; simpl.
  - intros w. repeat split; auto; lia.
  - intros a b c (I1 & S1 & C1 & O1) (I2 & S2 & C2 & O2).
    repeat split; [congruence | auto | lia | lia].
  - intros w. repeat split; auto; lia.
  - intros w. repeat split; auto; lia.
  - intros w. repeat split; auto; lia.
  - intros w. repeat split; auto; lia.
Qed.

Lemma emits_invariant (P : event -> bool) :
  P ESignal = true -> P interrupt_log = true -> Invariant (emits P).
Proof.
  intros Hs Hi. split; unfold atom, emits; simpl.
  - intros w. exists []. now rewrite app_nil_r.
  - intros a b c (e1 & -> & F1) (e2 & -> & F2). exists (e1 ++ e2).
    split; [now rewrite app_assoc | now apply Forall_app].
  - intros w. exists []. now rewrite app_nil_r.
  - intros w. eexists. split; [reflexivity|]. now constructor.
  - intros w. eexists. split; [reflexivity|]. now constructor.
  - intros w. exists []. now rewrite app_nil_r.
Qed.

Lemma emits_record (P : event -> bool) ev : P ev = true -> atom (emits P) (record ev).
Proof. intros HP w. eexists. split; [reflexivity|]. now constructor. Qed.

Lemma emits_advance (P : event -> bool) ms : atom (emits P) (advance ms).
Proof. intros w. exists []. now rewrite app_nil_r. Qed.

Lemma frame_record ev : atom frame (record ev).
Proof. intros w. unfold frame. simpl. repeat split; auto; lia. Qed.

Lemma frame_advance ms : 0 <= ms -> atom frame (advance ms).
Proof. intros Hms w. unfold frame. simpl. repeat split; auto; lia. Qed.

Create HintDb py_defs.
#[export] Hint Unfold log is_set send readline sock_close check_ip
  tor_newnym_via_control tor_reload_service tor_change_identity
  load_proxy_list find_ovpn_files start_openvpn stop_process
  run_once_tor run_once_proxy run_once_vpn _wait_or_stop modes_pass
  prepare_proxies prepare_ovpns run_loop : py_defs.

Create HintDb walk.

(** Follow the structure of a computation down to its external calls;
    [leaf] settles what is asked of each call. *)
Ltac the_invariant := first [assumption | typeclasses eauto].

Ltac walk leaf :=
  repeat (cbv beta zeta; first
    [ solve [auto with walk]
    | lazymatch goal with
      | |- respects _ (ret _) => apply respects_ret; the_invariant
      | |- respects _ (raise _) => apply respects_raise; the_invariant
      | |- respects _ now => apply respects_now; the_invariant
      | |- respects _ diverge => apply respects_diverge; the_invariant
      | |- respects _ (bind _ _) =>
          apply respects_bind; [the_invariant | | intros ?]
      | |- respects _ (try_except _ _ _) =>
          apply respects_try; [the_invariant | | intros ?]
      | |- respects _ (call _ _ _ _) =>
          apply respects_call; [the_invariant | intros ?; leaf | leaf]
      | |- respects _ (sleep _ _) =>
          apply respects_sleep; [the_invariant | leaf | intros ?; leaf]
      | |- respects _ (if ?b then _ else _) => destruct b
      | |- respects _ (match ?x with _ => _ end) => destruct x
      end
    | progress autounfold with py_defs ]).

Ltac frame_leaf := first [apply frame_record | apply frame_advance; lia].


(** ** IP probe *)

(** C7.  For every [proxies] argument, every timeout and every behaviour of
    the network, [check_ip] returns a string and raises nothing: the stripped
    body of the answer, or ["ERROR: "] followed by the text of the exception
    that the request raised (or that the signal handler raised while the
    request was under way). *)
Theorem check_ip_never_raises env proxies timeout w :
  exists s,
    fst (check_ip env proxies timeout w) = Ret s
    /\ ((exists text, http_get env (ops w) = inr text /\ s = Py.strip text)
        \/ (exists e, http_get env (ops w) = inl e
                      /\ s = Py.lit "ERROR: " ++ exn_text e)
        \/ (exists e, signal_at env (ops w) = true
                      /\ log_error env (ops w) = Some e
                      /\ s = Py.lit "ERROR: " ++ exn_text e)).
Proof.
  unfold check_ip, try_except, bind, call, deliver, _signal_handler.
  destruct (installed (next_op w) && signal_at env (ops w)) eqn:Es.
  - apply andb_true_iff in Es as [_ Es].
    destruct (log_error env (ops w)) as [e|] eqn:El; simpl.
    + eexists. split; [reflexivity|]. right. right. eauto.
    + destruct (http_get env (ops w)) as [e|text]; simpl;
        eexists; (split; [reflexivity|]); [right; left | left]; eauto.
  - destruct (http_get env (ops w)) as [e|text]; simpl;
      eexists; (split; [reflexivity|]); [right; left | left]; eauto.
Qed.

(** ** Calls when no call of [log] raises *)

Section WritableLog.

Variable env : Env.
Hypothesis Hlog : forall n, log_error env n = None.

Lemma noise_invariant : Invariant (emits is_noise).
Proof. now apply emits_invariant. Qed.

Lemma deliver_returns n w :
  exists w1, deliver env n w = (Ret tt, w1) /\ emits is_noise w w1.
Proof.
  unfold deliver. destruct (installed w && signal_at env n).
  - unfold _signal_handler. rewrite Hlog. eexists. split; [reflexivity|].
    eexists. split; [simpl; rewrite <- app_assoc; reflexivity|].
    repeat constructor.
  - exists w. split; [reflexivity|]. apply (@inv_refl _ noise_invariant).
Qed.

Lemma call_answer {A} ev (answer : nat -> World -> exn + A) ms w :
  exists w1,
    emits is_noise w w1
    /\ call env ev answer ms w
       = match answer (ops w) w1 with
         | inl e => (Raise e, record (ev w1) w1)
         | inr a => (Ret a, advance ms (record (ev w1) w1))
         end.
Proof.
  unfold call.
  destruct (deliver_returns (ops w) (next_op w)) as (w1 & -> & Hn).
  exists w1. split; [|reflexivity].
  destruct Hn as (evs & Ht & Hf). exists evs. now split.
Qed.

(** A log call returns, and adds its line after the noise of a signal. *)
Lemma log_returns msg w :
  exists w1 w',
    log env msg w = (Ret tt, w')
    /\ emits is_noise w w1
    /\ trace w' = trace w1 ++ [(clock w1, ELog msg)].
Proof.
  unfold log. destruct (call_answer (fun _ => ELog msg)
    (fun n _ => unit_answer (log_error env n)) 0 w) as (w1 & Hn & ->).
  rewrite Hlog. simpl. eauto.
Qed.

Lemma noise_preparing w w' : emits is_noise w w' -> emits preparing w w'.
Proof.
  intros (evs & Ht & Hf). exists evs. split; [exact Ht|].
  eapply Forall_impl; [|exact Hf]. intros [t ev]. simpl.
  destruct ev; try discriminate; [|reflexivity].
  intros Hm. simpl.
  destruct msg as [|c msg]; [discriminate|]. simpl in Hm.
  destruct (Z.eqb_spec c 73) as [->|]; [reflexivity | discriminate].
Qed.

End WritableLog.

(** ** Unreadable configuration *)

Section Unreadable.

Variable env : Env.
Hypothesis Hlog : forall n, log_error env n = None.

Lemma emits_preparing_trans a b c :
  emits preparing a b -> emits preparing b c -> emits preparing a c.
Proof. apply (@inv_trans _ (emits_invariant preparing eq_refl eq_refl)). Qed.

Lemma log_preparing msg w :
  is_header msg = false ->
  exists w' evs,
    log env msg w = (Ret tt, w')
    /\ trace w' = trace w ++ evs
    /\ Forall (fun te => preparing (snd te) = true) evs
    /\ In (ELog msg) (map snd evs).
Proof.
  intros Hm. destruct (log_returns env Hlog msg w) as (w1 & w' & E & Hn & Ht).
  apply noise_preparing in Hn. destruct Hn as (evs & Hevs & Hf).
  exists w', (evs ++ [(clock w1, ELog msg)]). split; [exact E|]. split.
  - now rewrite Ht, Hevs, app_assoc.
  - split.
    + apply Forall_app. split; [exact Hf|].
      constructor; [|constructor]. simpl. now rewrite Hm.
    + rewrite map_app. apply in_or_app. right. now left.
Qed.

(** Reading the lists, when one of them cannot be read: [run_loop] raises
    before its loop. *)
Lemma run_loop_unreadable args e fuel w :
  unreadable env args e ->
  exists w', run_loop env args fuel w = (Raise e, w') /\ emits preparing w w'.
Proof.
  intros [(Hg & Ho) | (Hg & Hl & Hp)]; unfold run_loop.
  - unfold prepare_proxies. rewrite Hg. unfold load_proxy_list.
    destruct (call_answer env Hlog (fun _ => EOpenRead (opt_text (proxy_list args)))
      (fun n _ => open_read env n (opt_text (proxy_list args))) 0 w) as (w1 & Hn & Hc).
    rewrite Ho in Hc. eexists. split.
    + unfold bind at 1 2 3. rewrite Hc. reflexivity.
    + eapply emits_preparing_trans; [apply noise_preparing, Hn|].
      eexists. split; [reflexivity|]. now repeat constructor.
  - assert (Hprep : exists ps w1, prepare_proxies env args w = (Ret ps, w1)
                                  /\ emits preparing w w1).
    { unfold prepare_proxies. destruct (given (proxy_list args)) eqn:Eg.
      - unfold load_proxy_list.
        destruct (call_answer env Hlog (fun _ => EOpenRead (opt_text (proxy_list args)))
          (fun n _ => open_read env n (opt_text (proxy_list args))) 0 w) as (w1 & Hn & Hc).
        destruct (Hp eq_refl (ops w)) as (text & Ht). rewrite Ht in Hc.
        set (ps := collect_proxies (Py.file_lines text) []).
        destruct (log_preparing (Py.lit "Loaded " ++ Py.of_Z (Z.of_nat (List.length ps))
           ++ Py.lit " proxies from " ++ opt_text (proxy_list args))
           (advance 0 (record (EOpenRead (opt_text (proxy_list args))) w1)))
          as (w2 & ev2 & E2 & T2 & P2 & _); [reflexivity|].
        exists ps, w2. split.
        + unfold bind at 1 2. rewrite Hc. unfold ret at 1. fold ps.
          unfold bind. rewrite E2. reflexivity.
        + eapply emits_preparing_trans; [apply noise_preparing, Hn|].
          eapply emits_preparing_trans; [|eexists; eauto].
          eexists. split; [reflexivity|]. now repeat constructor.
      - exists [], w. split; [reflexivity|].
        apply (@inv_refl _ (emits_invariant preparing eq_refl eq_refl)). }
    destruct Hprep as (ps & w1 & E1 & P1).
    rewrite (bind_Ret _ _ _ _ _ E1).
    unfold prepare_ovpns. rewrite Hg. unfold find_ovpn_files.
    destruct (call_answer env Hlog (fun _ => EListdir (opt_text (ovpn_dir args)))
      (fun n _ => listdir env n (opt_text (ovpn_dir args))) 0 w1) as (w2 & Hn & Hc).
    rewrite Hl in Hc. eexists. split.
    + unfold bind at 1 2 3. rewrite Hc. reflexivity.
    + eapply emits_preparing_trans; [exact P1|].
      eapply emits_preparing_trans; [apply noise_preparing, Hn|].
      eexists. split; [reflexivity|]. now repeat constructor.
Qed.

End Unreadable.

Lemma modes_pass_no_proxies env args ovpns w :
  mode args = mode_proxy ->
  modes_pass env args [] ovpns w
  = (log env (Py.lit "No proxies provided; sleeping.") ;; _wait_or_stop env args)%py w.
Proof.
  intros Hm. unfold modes_pass. rewrite Hm. simpl.
  unfold bind at 1 2 3 4. unfold ret at 1 2 3.
  destruct ((log env (Py.lit "No proxies provided; sleeping.") ;;
             _wait_or_stop env args)%py w) as [[[]|e|] w1]; reflexivity.
Qed.

(** C10.  When the configured proxy file or VPN directory cannot be read
    (and the log file can be written), [main] ends by raising the very
    exception of the failed read, after logging it as a fatal error; nothing
    but preparation has happened by then: no pass of the loop was begun, the
    flag was never polled and nothing slept.  With an empty list, by
    contrast, a pass in proxy mode is a log line and an idle wait. *)
Theorem unreadable_lists_are_fatal env args fuel w e :
  (forall n, log_error env n = None) ->
  unreadable env args e ->
  fst (main env args fuel w) = Raise e
  /\ (exists evs,
        trace (snd (main env args fuel w)) = trace w ++ evs
        /\ In (ELog (Py.lit "Fatal error: " ++ exn_text e)) (map snd evs)
        /\ Forall (fun te => preparing (snd te) = true) evs)
  /\ (mode args = mode_proxy ->
      forall ovpns w0,
        modes_pass env args [] ovpns w0
        = (log env (Py.lit "No proxies provided; sleeping.") ;;
           _wait_or_stop env args)%py w0).
Proof.
  intros Hlog Hun.
  assert (Hmain : exists w',
    main env args fuel w = (Raise e, w')
    /\ exists evs, trace w' = trace w ++ evs
        /\ In (ELog (Py.lit "Fatal error: " ++ exn_text e)) (map snd evs)
        /\ Forall (fun te => preparing (snd te) = true) evs).
  { assert (Hrest : forall w1, exists w' evs,
      ((fun w => (Ret tt, install w)) ;;
       try_except (run_loop env args fuel) any_exception
         (fun e => log env (Py.lit "Fatal error: " ++ exn_text e) ;; raise e))%py w1
      = (Raise e, w')
      /\ trace w' = trace w1 ++ evs
      /\ In (ELog (Py.lit "Fatal error: " ++ exn_text e)) (map snd evs)
      /\ Forall (fun te => preparing (snd te) = true) evs).
    { intros w1.
      destruct (run_loop_unreadable env Hlog args e fuel (install w1) Hun)
        as (w2 & E2 & (ev2 & T2 & F2)).
      destruct (log_preparing env Hlog (Py.lit "Fatal error: " ++ exn_text e) w2)
        as (w3 & ev3 & E3 & T3 & F3 & I3); [reflexivity|].
      exists w3, (ev2 ++ ev3). split; [|split; [|split]].
      - unfold bind at 1. unfold try_except. rewrite E2.
        cbv beta iota delta [any_exception].
        unfold bind. rewrite E3. reflexivity.
      - rewrite T3, T2. simpl. now rewrite app_assoc.
      - rewrite map_app. apply in_or_app. now right.
      - apply Forall_app. now split. }
    unfold main.
    destruct (log_preparing env Hlog
                (Py.lit "AutoChanger started. Mode: " ++ mode_name (mode args)) w)
      as (w1 & ev1 & E1 & T1 & F1 & _); [reflexivity|].
    rewrite (bind_Ret _ _ _ _ _ E1).
    destruct (dry_run args).
    - destruct (log_preparing env Hlog
                  (Py.lit "Dry-run mode enabled. Privileged actions will NOT run.") w1)
        as (w2 & ev2 & E2 & T2 & F2 & _); [reflexivity|].
      rewrite (bind_Ret _ _ _ _ _ E2).
      destruct (Hrest w2) as (w' & evs & E & T & I & F).
      exists w'. split; [exact E|]. exists (ev1 ++ ev2 ++ evs). split; [|split].
      + rewrite T, T2, T1. now rewrite <- !app_assoc.
      + rewrite !map_app. apply in_or_app. right. apply in_or_app. now right.
      + repeat (apply Forall_app; split); assumption.
    - rewrite (bind_Ret _ _ w1 tt w1 eq_refl).
      destruct (Hrest w1) as (w' & evs & E & T & I & F).
      exists w'. split; [exact E|]. exists (ev1 ++ evs). split; [|split].
      + rewrite T, T1. now rewrite <- !app_assoc.
      + rewrite !map_app. apply in_or_app. now right.
      + apply Forall_app. now split. }
  destruct Hmain as (w' & E & Hevs). rewrite E. simpl.
  split; [reflexivity|]. split; [exact Hevs|].
  intros Hm ovpns w0. now apply modes_pass_no_proxies.
Qed.

Lemma unreadable_lists_are_fatal_witness :
  fst (main env_missing args_proxy_loop 3 world0) = Raise no_such_file
  /\ (exists evs,
        trace (snd (main env_missing args_proxy_loop 3 world0)) = trace world0 ++ evs
        /\ In (ELog (Py.lit "Fatal error: " ++ exn_text no_such_file)) (map snd evs)
        /\ Forall (fun te => preparing (snd te) = true) evs)
  /\ (mode args_proxy_loop = mode_proxy ->
      forall ovpns w0,
        modes_pass env_missing args_proxy_loop [] ovpns w0
        = (log env_missing (Py.lit "No proxies provided; sleeping.") ;;
           _wait_or_stop env_missing args_proxy_loop)%py w0).
Proof.
  apply (unreadable_lists_are_fatal env_missing args_proxy_loop 3 world0 no_such_file).
  - intros n. reflexivity.
  - left. split; [reflexivity | intros n; reflexivity].
Defined.

(** ** Dry run *)

(** C1 fails on the code.  [run_loop] never reads the dry-run flag: a run
    with the flag set is the run without it.  With the flag set, in the
    well-behaved world, [main] logs that privileged actions will not run and
    then opens the connection to the Tor control port, sends NEWNYM and
    starts [sudo openvpn]. *)
Theorem dry_run_is_ignored :
  (forall env a fuel w,
      run_loop env (with_dry_run true a) fuel w
      = run_loop env (with_dry_run false a) fuel w)
  /\ (let w' := snd (main (env_fine [] [Py.lit "a.ovpn"]) args_dry 1 world0) in
      nth_error (map snd (trace w')) 1
      = Some (ELog (Py.lit "Dry-run mode enabled. Privileged actions will NOT run."))
      /\ nth_error (map snd (trace w')) 9
         = Some (ESockConnect (Py.lit "127.0.0.1") 9051 5)
      /\ nth_error (map snd (trace w')) 12
         = Some (ESockSend (Py.lit "SIGNAL NEWNYM" ++ [13; 10]))
      /\ nth_error (map snd (trace w')) 24
         = Some (EPopen [Py.lit "sudo"; Py.lit "openvpn"; Py.lit "--config";
                         Py.lit "/etc/openvpn/a.ovpn"])).
Proof.
  split.
  - intros env a fuel w. reflexivity.
  - vm_compute. repeat split.
Qed.

(** ** Inter-cycle wait in Tor mode *)

Lemma modes_pass_tor env args proxies ovpns w :
  mode args = mode_tor ->
  modes_pass env args proxies ovpns w
  = (log env (Py.lit "Running TOR change...") ;; run_once_tor env args)%py w.
Proof.
  intros Hm. unfold modes_pass. rewrite Hm. simpl.
  unfold bind at 1.
  destruct ((log env (Py.lit "Running TOR change...") ;; run_once_tor env args)%py w)
    as [[[]|e|] w1]; reflexivity.
Qed.

(** C5 fails on the code in Tor mode.  There a pass of the loop is the Tor
    change and nothing else, without [_wait_or_stop]; with an interval of 60
    seconds and a count of 2, the two NEWNYM requests are 5 seconds apart (the
    settle time), the only sleeps are the two settle sleeps, and the run is
    over after 10 seconds. *)
Theorem tor_mode_skips_the_interval :
  (forall env i s pl od pw c ro dr lf proxies ovpns w,
      let args := mk_args mode_tor i s pl od pw c ro dr lf in
      modes_pass env args proxies ovpns w
      = (log env (Py.lit "Running TOR change...") ;; run_once_tor env args)%py w)
  /\ (let r := main (env_fine [] []) args_tor_twice 2 world0 in
      fst r = Ret 2
      /\ clock (snd r) = 10000
      /\ map fst (filter is_newnym (trace (snd r))) = [0; 5000]
      /\ filter is_sleep (map snd (trace (snd r))) = [ESleep 5000; ESleep 5000]).
Proof.
  split.
  - intros. apply modes_pass_tor. reflexivity.
  - vm_compute. repeat split.
Qed.

(** ** Tor: control port and service restart *)

Lemma respects_bind_call R `{Invariant R} env {A B} ev
    (answer : nat -> World -> exn + A) ms (f : A -> M B) :
  (forall w0, atom R (record (ev w0))) -> atom R (advance ms) ->
  (forall n w1 a, answer n w1 = inr a -> respects R (f a)) ->
  respects R (bind (call env ev answer ms) f).
Proof.
  intros Hev Hms Hf w. unfold bind, call.
  pose proof (respects_deliver R env (ops w) (next_op w)) as Hd.
  assert (Hn : R w (snd (deliver env (ops w) (next_op w)))).
  { eapply inv_trans; [apply inv_next_op | exact Hd]. }
  destruct (deliver env (ops w) (next_op w)) as [[[]|e|] w1]; simpl in *;
    try exact Hn.
  assert (R w (record (ev w1) w1)) by (eapply inv_trans; [exact Hn | apply Hev]).
  destruct (answer (ops w) w1) as [e|a] eqn:Ea; simpl; [assumption|].
  eapply inv_trans; [|apply (Hf _ _ _ Ea)].
  eapply inv_trans; [eassumption | apply Hms].
Qed.

Ltac emits_leaf := first [apply emits_record; reflexivity | apply emits_advance].

Lemma newnym_never_restarts env host port password timeout :
  respects (emits no_restart)
           (tor_newnym_via_control env host port password timeout).
Proof.
  pose proof (emits_invariant no_restart eq_refl eq_refl).
  walk emits_leaf.
Qed.

Lemma reload_declined env :
  declines env ->
  respects (emits no_command) (tor_reload_service env)
  /\ forall w, fst (tor_reload_service env w) <> Ret true.
Proof.
  intros Hd. pose proof (emits_invariant no_command eq_refl eq_refl). split.
  - unfold tor_reload_service.
    apply respects_bind; [assumption | walk emits_leaf | intros _].
    apply respects_bind_call; [assumption | intros; emits_leaf | emits_leaf |].
    intros n w1 raw Hraw. cbv zeta. rewrite (Hd _ _ Hraw). simpl.
    walk emits_leaf.
  - intros w. unfold tor_reload_service, bind at 1.
    destruct (log env _ w) as [[[]|e|] w1]; try discriminate.
    unfold bind at 1, call.
    destruct (deliver env (ops w1) (next_op w1)) as [[[]|e|] w2]; try discriminate.
    destruct (user_input env (ops w1)) as [e|raw] eqn:Er; [discriminate|].
    cbv zeta. rewrite (Hd _ _ Er). simpl.
    unfold bind. destruct (log env _ _) as [[[]|e|] w3]; discriminate.
Qed.

(** C2, as the code has it.  When the control-port phase fails,
    [tor_newnym_via_control] returns [False] having neither prompted nor run
    a command; the fallback is taken by its caller [tor_change_identity],
    inside the adapter, which logs it and goes on into [tor_reload_service]
    unconditionally; a restart command is run only if the user answers yes,
    and otherwise failure is reported. *)
Theorem tor_fallback_is_taken_by_tor_change_identity env password w w1 :
  tor_newnym_via_control env (Py.lit "127.0.0.1") 9051 password 5 w
  = (Ret false, w1) ->
  emits no_restart w w1
  /\ tor_change_identity env password w
     = (log env fallback_msg ;; tor_reload_service env)%py w1
  /\ (declines env ->
      emits no_command w (snd (tor_change_identity env password w))
      /\ fst (tor_change_identity env password w) <> Ret true).
Proof.
  intros Hc.
  assert (Ha : emits no_restart w w1).
  { pose proof (newnym_never_restarts env (Py.lit "127.0.0.1") 9051 password 5 w) as Hr.
    now rewrite Hc in Hr. }
  assert (Hb : tor_change_identity env password w
               = (log env fallback_msg ;; tor_reload_service env)%py w1).
  { unfold tor_change_identity. now rewrite (bind_Ret _ _ _ _ _ Hc). }
  split; [exact Ha|]. split; [exact Hb|].
  intros Hd. rewrite Hb. destruct (reload_declined env Hd) as [Hr Hn].
  pose proof (emits_invariant no_command eq_refl eq_refl) as Hinv.
  split.
  - eapply inv_trans.
    + destruct Ha as (evs & Ht & Hf). exists evs. split; [exact Ht|].
      eapply Forall_impl; [|exact Hf]. intros [t ev]. simpl.
      destruct ev; simpl; congruence.
    + apply respects_bind; [assumption | | intros _; exact Hr].
      unfold log, fallback_msg. walk emits_leaf.
  - unfold bind. destruct (log env fallback_msg w1) as [[[]|e|] w2];
      [apply Hn | discriminate | discriminate].
Qed.

Lemma tor_fallback_is_taken_by_tor_change_identity_witness :
  let env := env_refused says_no in
  let w1 := snd (tor_newnym_via_control env (Py.lit "127.0.0.1") 9051 None 5 world0) in
  emits no_restart world0 w1
  /\ tor_change_identity env None world0
     = (log env fallback_msg ;; tor_reload_service env)%py w1
  /\ (declines env ->
      emits no_command world0 (snd (tor_change_identity env None world0))
      /\ fst (tor_change_identity env None world0) <> Ret true).
Proof.
  exact (tor_fallback_is_taken_by_tor_change_identity
           (env_refused says_no) None world0 _ eq_refl).
Defined.

(** C2, as stated, fails: the control port refuses the connection, the
    control-port phase reports failure, and [tor_change_identity] itself
    prompts, runs [sudo systemctl restart tor] and reports success. *)
Lemma tor_change_identity_restarts_the_service :
  let env := env_refused says_yes in
  fst (tor_newnym_via_control env (Py.lit "127.0.0.1") 9051 None 5 world0)
  = Ret false
  /\ fst (tor_change_identity env None world0) = Ret true
  /\ map snd (trace (snd (tor_change_identity env None world0)))
     = [ ESockConnect (Py.lit "127.0.0.1") 9051 5;
         ELog (Py.lit "Tor control error: [Errno 111] Connection refused");
         ELog fallback_msg;
         ELog (Py.lit "Attempting to restart 'tor' service (requires sudo).");
         EInput restart_prompt;
         ECheckCall [Py.lit "sudo"; Py.lit "systemctl"; Py.lit "restart"; Py.lit "tor"];
         ELog (Py.lit "Ran: sudo systemctl restart tor") ]
  /\ forallb no_restart
       (map snd (trace (snd (tor_change_identity env None world0)))) = false.
Proof. vm_compute. repeat split. Qed.

(** ** What a stretch of a run did *)

Lemma did_then w1 w2 w3 l1 l2 :
  did w1 w2 l1 -> did w2 w3 l2 -> did w1 w3 (l1 ++ l2).
Proof.
  intros (e1 & T1 & F1) (e2 & T2 & F2). exists (e1 ++ e2). split.
  - now rewrite T2, T1, app_assoc.
  - now rewrite map_app, filter_app, F1, F2.
Qed.

Lemma did_noise w w' : emits is_noise w w' -> did w w' [].
Proof.
  intros (evs & T & F). exists evs. split; [exact T|]. clear T.
  induction F as [|[t ev] evs Hev F IH]; simpl; [reflexivity|].
  simpl in Hev. rewrite Hev. exact IH.
Qed.

Lemma did_record ev w : is_noise ev = false -> did w (record ev w) [ev].
Proof. intros Hn. exists [(clock w, ev)]. split; [reflexivity|]. simpl. now rewrite Hn. Qed.

Lemma did_same_trace w w1 w2 l : trace w2 = trace w1 -> did w w1 l -> did w w2 l.
Proof. intros E (evs & T & F). exists evs. split; congruence. Qed.

Lemma noise_ops env n w w1 :
  deliver env n w = (Ret tt, w1) -> ops w1 = ops w /\ clock w1 = clock w.
Proof.
  unfold deliver. destruct (installed w && signal_at env n).
  - unfold _signal_handler. destruct (log_error env n); [discriminate|].
    intros H. injection H as <-. now split.
  - intros H. injection H as <-. now split.
Qed.

(** A sleep that [time.sleep] accepts: its length is in range and not
    negative, and the system call takes the deadline. *)
Lemma sleep_accepted env n ms :
  sleep_fault env n ms = None ->
  0 <= ms
  /\ (ms <? - sleep_limit) || (sleep_limit <? ms) = false
  /\ sleep_refused env n ms = None.
Proof.
  unfold sleep_fault.
  destruct ((ms <? - sleep_limit) || (sleep_limit <? ms)); [discriminate|].
  destruct (Z.ltb_spec ms 0); [discriminate|]. now intros ->.
Qed.

(** A length of up to 4611686018 s is always accepted. *)
Lemma short_sleep env n ms :
  0 <= ms <= 4611686018000 -> sleep_fault env n ms = None.
Proof.
  intros [H0 H1]. unfold sleep_fault.
  destruct (Z.ltb_spec ms (- sleep_limit)); [unfold sleep_limit in *; lia|].
  destruct (Z.ltb_spec sleep_limit ms); [unfold sleep_limit in *; lia|]. cbn [orb].
  destruct (Z.ltb_spec ms 0); [lia|].
  unfold sleep_refused, uptime, time_max.
  destruct (Z.ltb_spec 9223372036854775807
              (Z.max 0 (Z.min (monotonic env n) 4611686018427387904) + ms * 1000000));
    [lia | reflexivity].
Qed.

Lemma sleep_call env ms w :
  sleep_fault env (ops w) ms = None ->
  sleep env ms w
  = call env (fun _ => ESleep ms) (fun n _ => unit_answer (sleep_refused env n ms)) ms w.
Proof.
  intros H. apply sleep_accepted in H as (H0 & Hr & _). unfold sleep. rewrite Hr.
  destruct (Z.ltb_spec ms 0); [lia | reflexivity].
Qed.

Section Performs.

Variable env : Env.
Hypothesis Hlog : forall n, log_error env n = None.

(** One external call, when no call of [log] raises: it is made, it is
    call number [ops w], and the world's answer decides the outcome. *)
Lemma call_performs {A} ev (answer : nat -> exn + A) ms w :
  is_noise ev = false -> 0 <= ms ->
  exists w',
    call env (fun _ => ev) (fun n _ => answer n) ms w
    = (match answer (ops w) with inl e => Raise e | inr a => Ret a end, w')
    /\ did w w' [ev]
    /\ ops w' = S (ops w)
    /\ clock w <= clock w' <= clock w + ms.
Proof.
  intros Hev Hms. unfold call.
  destruct (deliver_returns env Hlog (ops w) (next_op w)) as (w1 & E & Hn).
  rewrite E. destruct (noise_ops _ _ _ _ E) as [Ho Hc]. simpl in Ho, Hc.
  assert (D : did w (record ev w1) [ev]).
  { apply (did_then w w1 _ [] [ev]); [|now apply did_record].
    apply did_noise. destruct Hn as (evs & T & F). exists evs. now split. }
  destruct (answer (ops w)); eexists; (split; [reflexivity|]); simpl;
    (split; [eapply did_same_trace; [|exact D]; reflexivity|]);
    (split; [exact Ho | lia]).
Qed.

Lemma log_performs msg w :
  is_noise (ELog msg) = false ->
  exists w',
    log env msg w = (Ret tt, w') /\ did w w' [ELog msg]
    /\ ops w' = S (ops w) /\ clock w' = clock w.
Proof.
  intros Hm. unfold log.
  destruct (call_performs (ELog msg) (fun n => unit_answer (log_error env n)) 0 w Hm (Z.le_refl 0))
    as (w' & E & D & O & C).
  rewrite Hlog in E. exists w'. repeat split; try assumption; lia.
Qed.

Lemma sleep_performs ms w :
  sleep_fault env (ops w) ms = None ->
  exists w',
    sleep env ms w = (Ret tt, w') /\ did w w' [ESleep ms] /\ ops w' = S (ops w).
Proof.
  intros Hok. rewrite (sleep_call env ms w Hok).
  apply sleep_accepted in Hok as (Hms & _ & Hr).
  destruct (call_performs (ESleep ms) (fun n => unit_answer (sleep_refused env n ms))
              ms w eq_refl Hms) as (w' & E & D & O & _).
  rewrite Hr in E. exists w'. now repeat split.
Qed.

Lemma check_ip_performs proxies timeout w :
  exists s w',
    check_ip env proxies timeout w = (Ret s, w')
    /\ did w w' [EHttpGet check_url proxies timeout] /\ ops w' = S (ops w).
Proof.
  unfold check_ip, try_except, bind.
  destruct (call_performs (EHttpGet check_url proxies timeout) (http_get env) 0 w eq_refl
                (Z.le_refl 0))
    as (w' & E & D & O & _).
  rewrite E. destruct (http_get env (ops w)); simpl;
    do 2 eexists; (split; [reflexivity|]); now split.
Qed.

End Performs.

(** ** VPN: start, teardown *)

Section Vpn.

Variable env : Env.
Hypothesis Hlog : forall n, log_error env n = None.

Lemma try_except_Ret {A} (m : M A) sel h w a w' :
  m w = (Ret a, w') -> try_except m sel h w = (Ret a, w').
Proof. unfold try_except. now intros ->. Qed.

Lemma try_except_Raise {A} (m : M A) h w e w' :
  m w = (Raise e, w') -> try_except m any_exception h w = h e w'.
Proof. unfold try_except. now intros ->. Qed.

(** A child that starts and is still running after the grace delay. *)
Lemma start_openvpn_performs config_path w :
  popen env (1 + ops w)%nat = None -> poll env (3 + ops w)%nat = None ->
  exists w',
    start_openvpn env config_path w = (Ret (Some (1 + ops w)%nat), w')
    /\ did w w' [ ELog (Py.lit "Starting OpenVPN config: " ++ config_path);
                  EPopen [Py.lit "sudo"; Py.lit "openvpn"; Py.lit "--config"; config_path];
                  ESleep 2000;
                  EPoll (1 + ops w)%nat;
                  ELog (Py.lit "OpenVPN process started.") ]
    /\ ops w' = (5 + ops w)%nat.
Proof.
  intros Hpopen Hpoll. unfold start_openvpn.
  destruct (log_performs env Hlog (Py.lit "Starting OpenVPN config: " ++ config_path) w eq_refl)
    as (w1 & E1 & D1 & O1 & _).
  rewrite (bind_Ret _ _ _ _ _ E1).
  destruct (call_performs env Hlog
              (EPopen [Py.lit "sudo"; Py.lit "openvpn"; Py.lit "--config"; config_path])
              (fun n => match popen env n with Some e => inl e | None => inr n end)
              0 w1 eq_refl (Z.le_refl 0)) as (w2 & E2 & D2 & O2 & _).
  rewrite O1 in E2. simpl in Hpopen. rewrite Hpopen in E2.
  destruct (sleep_performs env Hlog 2000 w2 (short_sleep env _ 2000 ltac:(lia)))
    as (w3 & E3 & D3 & O3).
  destruct (call_performs env Hlog (EPoll (S (ops w))) (fun n => inr (poll env n))
              0 w3 eq_refl (Z.le_refl 0)) as (w4 & E4 & D4 & O4 & _).
  rewrite O3, O2, O1 in E4. simpl in Hpoll. cbv beta in E4.
  destruct (log_performs env Hlog (Py.lit "OpenVPN process started.") w4 eq_refl)
    as (w5 & E5 & D5 & O5 & _).
  exists w5. split; [|split].
  - apply try_except_Ret.
    rewrite (bind_Ret _ _ _ _ _ E2), (bind_Ret _ _ _ _ _ E3), (bind_Ret _ _ _ _ _ E4).
    rewrite Hpoll. now rewrite (bind_Ret _ _ _ _ _ E5).
  - apply (did_then _ _ _ [_] [_; _; _; _] D1).
    apply (did_then _ _ _ [_] [_; _; _] D2).
    apply (did_then _ _ _ [_] [_; _] D3).
    apply (did_then _ _ _ [_] [_] D4). exact D5.
  - rewrite O5, O4, O3, O2, O1. reflexivity.
Qed.

(** [stop_process] always returns, having done the teardown that the
    answers to [terminate] and [wait] call for. *)
Lemma stop_process_performs p w :
  exists w',
    stop_process env p w = (Ret tt, w')
    /\ did w w' (teardown p (terminate env (ops w)) (wait env (1 + ops w)%nat))
    /\ ops w' = (List.length (teardown p (terminate env (ops w)) (wait env (1 + ops w)%nat))
                 + ops w)%nat.
Proof.
  unfold stop_process.
  assert (Hkill : forall w0, exists w',
    (try_except (call env (fun _ => EKill p) (fun n _ => unit_answer (kill env n)) 0)
       any_exception (fun _ => ret tt) ;;
     log env (Py.lit "VPN process killed."))%py w0 = (Ret tt, w')
    /\ did w0 w' [EKill p; ELog (Py.lit "VPN process killed.")]
    /\ ops w' = (2 + ops w0)%nat).
  { intros w0.
    destruct (call_performs env Hlog (EKill p) (fun n => unit_answer (kill env n))
                0 w0 eq_refl (Z.le_refl 0)) as (w1 & E1 & D1 & O1 & _).
    destruct (log_performs env Hlog (Py.lit "VPN process killed.") w1 eq_refl)
      as (w2 & E2 & D2 & O2 & _).
    exists w2. split; [|split].
    - unfold bind, try_except. rewrite E1.
      destruct (kill env (ops w0)) as [e|]; simpl; exact E2.
    - apply (did_then _ _ _ [_] [_] D1 D2).
    - rewrite O2, O1. reflexivity. }
  destruct (call_performs env Hlog (ETerminate p) (fun n => unit_answer (terminate env n))
              0 w eq_refl (Z.le_refl 0)) as (w1 & E1 & D1 & O1 & _).
  destruct (terminate env (ops w)) as [e|] eqn:Et; simpl in E1.
  - destruct (Hkill w1) as (w2 & E2 & D2 & O2).
    exists w2. split; [|split].
    + erewrite try_except_Raise; [exact E2|]. now rewrite (bind_Raise _ _ _ _ _ E1).
    + apply (did_then _ _ _ [_] [_; _] D1 D2).
    + rewrite O2, O1. reflexivity.
  - destruct (call_performs env Hlog (EWait p 10) (fun n => unit_answer (wait env n))
                0 w1 eq_refl (Z.le_refl 0)) as (w2 & E2 & D2 & O2 & _).
    rewrite O1 in E2. simpl.
    destruct (wait env (S (ops w))) as [e|] eqn:Ew; simpl in E2.
    + destruct (Hkill w2) as (w3 & E3 & D3 & O3).
      exists w3. split; [|split].
      * erewrite try_except_Raise; [exact E3|].
        rewrite (bind_Ret _ _ _ _ _ E1). now rewrite (bind_Raise _ _ _ _ _ E2).
      * apply (did_then _ _ _ [_] [_; _; _] D1).
        apply (did_then _ _ _ [_] [_; _] D2 D3).
      * rewrite O3, O2, O1. reflexivity.
    + destruct (log_performs env Hlog (Py.lit "VPN process terminated.") w2 eq_refl)
        as (w3 & E3 & D3 & O3 & _).
      exists w3. split; [|split].
      * apply try_except_Ret.
        now rewrite (bind_Ret _ _ _ _ _ E1), (bind_Ret _ _ _ _ _ E2).
      * apply (did_then _ _ _ [_] [_; _] D1).
        apply (did_then _ _ _ [_] [_] D2 D3).
      * rewrite O3, O2, O1. reflexivity.
Qed.

End Vpn.

(** ** Facts that hold along every run *)

Ltac walk_total :=
  repeat (cbv beta zeta; first
    [ solve [auto with walk]
    | lazymatch goal with
      | |- total (ret _) => apply total_ret
      | |- total (raise _) => apply total_raise
      | |- total now => apply total_now
      | |- total (call _ _ _ _) => apply total_call
      | |- total (sleep _ _) => apply total_sleep
      | |- total (bind _ _) => apply total_bind; [|intros ?]
      | |- total (try_except _ _ _) => apply total_try; [|intros ?]
      | |- total (if ?b then _ else _) => destruct b
      | |- total (match ?x with _ => _ end) => destruct x
      end
    | progress autounfold with py_defs ]).

Lemma call_Ret_clock env {A} ev (answer : nat -> World -> exn + A) ms w a w' :
  call env ev answer ms w = (Ret a, w') ->
  clock w' = clock w + ms.
Proof.
  unfold call.
  destruct (deliver env (ops w) (next_op w)) as [[[]|e|] w1] eqn:E; try discriminate.
  destruct (noise_ops _ _ _ _ E) as [_ Hc]. simpl in Hc.
  destruct (answer (ops w) w1); [discriminate|].
  intros H. injection H as _ <-. simpl. lia.
Qed.

Section Everywhere.

Variable env : Env.
Variable args : Args.

(** *** Nothing but the loop head logs an iteration header *)

Let HI : Invariant (emits not_header) := emits_invariant not_header eq_refl eq_refl.

Lemma quiet_restart_with cmds :
  respects (emits not_header) (restart_with env cmds).
Proof. induction cmds; cbn [restart_with]; walk emits_leaf. Qed.
Hint Resolve quiet_restart_with : walk.

Lemma quiet_wait_loop fuel start :
  respects (emits not_header) (wait_loop env args fuel start).
Proof. induction fuel; cbn [wait_loop]; walk emits_leaf. Qed.
Hint Resolve quiet_wait_loop : walk.

Lemma quiet_for_proxies proxies :
  respects (emits not_header) (for_proxies env args proxies).
Proof. induction proxies; cbn [for_proxies]; walk emits_leaf. Qed.

Lemma quiet_for_ovpns ovpns :
  respects (emits not_header) (for_ovpns env args ovpns).
Proof. induction ovpns; cbn [for_ovpns]; walk emits_leaf. Qed.
Hint Resolve quiet_for_proxies quiet_for_ovpns : walk.

Lemma quiet_modes_pass proxies ovpns :
  respects (emits not_header) (modes_pass env args proxies ovpns).
Proof. walk emits_leaf. Qed.

Lemma quiet_prepare :
  respects (emits not_header) (prepare_proxies env args)
  /\ respects (emits not_header) (prepare_ovpns env args).
Proof. split; walk emits_leaf. Qed.

(** *** No inner loop runs out of fuel *)

Lemma total_restart_with cmds : total (restart_with env cmds).
Proof. induction cmds; cbn [restart_with]; walk_total. Qed.
Hint Resolve total_restart_with : walk.

Lemma wait_loop_total fuel start w :
  interval args * 1000 - (clock w - start) <= 500 * Z.of_nat fuel ->
  fst (wait_loop env args (S fuel) start w) <> Diverge.
Proof.
  revert w. induction fuel as [|fuel IH]; intros w Hf.
  - simpl. unfold bind at 1, now.
    destruct (Z.ltb_spec (clock w - start) (interval args * 1000)); [lia | discriminate].
  - change (wait_loop env args (S (S fuel)) start w)
      with ((t <- now ;;
             if t - start <? interval args * 1000 then
               stop <- is_set env ;;
               if stop then ret tt
               else sleep env 500 ;; wait_loop env args (S fuel) start
             else ret tt)%py w).
    unfold bind at 1, now.
    destruct (Z.ltb_spec (clock w - start) (interval args * 1000)); [|discriminate].
    unfold bind at 1.
    destruct (is_set env w) as [[b|e|] w1] eqn:E1; [|discriminate|].
    + destruct b; [discriminate|].
      apply call_Ret_clock in E1.
      unfold bind. destruct (sleep env 500 w1) as [[[]|e|] w2] eqn:E2; [|discriminate|].
      * apply call_Ret_clock in E2. apply IH. lia.
      * pose proof (total_sleep env 500 w1) as T. now rewrite E2 in T.
    + pose proof (total_call env (fun w => EIsSet (stop_event w))
                    (fun _ w => inr (stop_event w)) 0 w) as T.
      unfold is_set in E1. now rewrite E1 in T.
Qed.

Lemma total_wait_or_stop : total (_wait_or_stop env args).
Proof.
  intros w. unfold _wait_or_stop, bind, now, wait_fuel.
  apply wait_loop_total. lia.
Qed.
Hint Resolve total_wait_or_stop : walk.

Lemma total_for_proxies proxies : total (for_proxies env args proxies).
Proof. induction proxies; cbn [for_proxies]; walk_total. Qed.

Lemma total_for_ovpns ovpns : total (for_ovpns env args ovpns).
Proof. induction ovpns; cbn [for_ovpns]; walk_total. Qed.
Hint Resolve total_for_proxies total_for_ovpns : walk.

Lemma total_modes_pass proxies ovpns : total (modes_pass env args proxies ovpns).
Proof. walk_total. Qed.

Lemma total_prepare :
  total (prepare_proxies env args) /\ total (prepare_ovpns env args).
Proof. split; walk_total. Qed.

End Everywhere.

(** What one external call does: a signal may be handled first, at the
    time of the call; if the handler raises, so does the call; otherwise the
    call is recorded and the world answers. *)
Lemma call_shape env {A} ev (answer : nat -> World -> exn + A) ms w :
  exists w1 sig,
    trace w1 = trace w ++ sig
    /\ clock w1 = clock w
    /\ installed w1 = installed w
    /\ Forall (fun te => is_noise (snd te) = true /\ fst te = clock w) sig
    /\ (stop_event w = true -> stop_event w1 = true)
    /\ ((exists e, call env ev answer ms w = (Raise e, w1))
        \/ ((sig <> [] -> stop_event w1 = true)
            /\ (sig = [] -> stop_event w1 = stop_event w)
            /\ call env ev answer ms w
               = match answer (ops w) w1 with
                 | inl e => (Raise e, record (ev w1) w1)
                 | inr a => (Ret a, advance ms (record (ev w1) w1))
                 end)).
Proof.
  unfold call, deliver.
  destruct (installed (next_op w) && signal_at env (ops w)).
  - unfold _signal_handler. fold interrupt_log.
    destruct (log_error env (ops w)) as [e|].
    + exists (record interrupt_log (record ESignal (next_op w))),
             [(clock w, ESignal); (clock w, interrupt_log)].
      simpl. rewrite <- app_assoc.
      repeat split; auto. left. eauto.
    + exists (set_stop (record interrupt_log (record ESignal (next_op w)))),
             [(clock w, ESignal); (clock w, interrupt_log)].
      simpl. rewrite <- app_assoc.
      repeat split; auto. right. repeat split; auto. discriminate.
  - exists (next_op w), []. simpl. rewrite app_nil_r.
    repeat split; auto.
Qed.

(** ** The orchestrator loop *)

Lemma headers_app e1 e2 : headers (e1 ++ e2) = headers e1 ++ headers e2.
Proof.
  induction e1 as [|[t ev] e1 IH]; [reflexivity|]. simpl.
  destruct ev; try exact IH. destruct (is_header msg); simpl; now rewrite IH.
Qed.

Lemma headers_none evs :
  Forall (fun te => not_header (snd te) = true) evs -> headers evs = [].
Proof.
  induction 1 as [|[t ev] evs Hev _ IH]; [reflexivity|]. simpl in *.
  destruct ev; try exact IH. apply negb_true_iff in Hev. now rewrite Hev.
Qed.

Lemma is_set_Ret env w b w' :
  is_set env w = (Ret b, w') -> stop_event w' = b.
Proof.
  unfold is_set, call.
  destruct (deliver env (ops w) (next_op w)) as [[[]|e|] w1]; try discriminate.
  intros H. injection H as <- <-. reflexivity.
Qed.

Section Loop.

Variable env : Env.
Variable args : Args.
Variables proxies ovpns : list Py.str.

Lemma while_loop_exit fuel : forall i w n w',
  while_loop env args fuel proxies ovpns i w = (Ret n, w') ->
  i <= n
  /\ (run_once args = true -> n <= i + 1)
  /\ (run_once args = false -> 0 < count args -> i < count args -> n <= count args)
  /\ (stop_event w' = true
      \/ (run_once args = true /\ n = i + 1)
      \/ (run_once args = false /\ count args <> 0
          /\ n = Z.max (i + 1) (count args))).
Proof.
  induction fuel as [|fuel IH]; intros i w n w' H; [discriminate|].
  cbn [while_loop] in H.
  apply bind_Ret_inv in H as (stop & w1 & E1 & H).
  apply is_set_Ret in E1. destruct stop.
  - injection H as <- <-.
    split; [lia|]. split; [intros; lia|]. split; [intros; lia|]. now left.
  - apply bind_Ret_inv in H as ([] & w2 & _ & H).
    apply bind_Ret_inv in H as ([] & w3 & _ & H).
    destruct (run_once args) eqn:Er.
    + apply bind_Ret_inv in H as ([] & w4 & _ & H). injection H as <- _.
      split; [lia|]. split; [intros; lia|]. split; [discriminate|].
      right. left. now split.
    + destruct (negb (count args =? 0) && (count args <=? i + 1)) eqn:Ec.
      * apply bind_Ret_inv in H as ([] & w4 & _ & H). injection H as <- _.
        apply andb_true_iff in Ec as [Ez Ec].
        apply negb_true_iff, Z.eqb_neq in Ez. apply Z.leb_le in Ec.
        split; [lia|]. split; [discriminate|]. split; [intros; lia|].
        right. right. repeat split; lia.
      * apply IH in H as (H1 & H2 & H3 & H4).
        assert (Hc : count args = 0 \/ i + 1 < count args).
        { apply andb_false_iff in Ec as [Ez|Ec].
          - left. apply negb_false_iff in Ez. now apply Z.eqb_eq.
          - right. apply Z.leb_gt in Ec. lia. }
        split; [lia|]. split; [discriminate|]. split; [intros; lia|].
        destruct H4 as [H4 | [[H4 _] | (_ & H4 & H5)]];
          [now left | discriminate |].
        right. right. repeat split; lia.
Qed.

Lemma while_loop_total fuel : forall i,
  (run_once args = true /\ (1 <= fuel)%nat)
  \/ (0 < count args /\ count args - i <= Z.of_nat fuel /\ (1 <= fuel)%nat) ->
  total (while_loop env args fuel proxies ovpns i).
Proof.
  induction fuel as [|fuel IH]; intros i Hf; [lia|].
  cbn [while_loop].
  apply total_bind; [apply total_call | intros stop].
  destruct stop; [apply total_ret|]. cbv zeta.
  apply total_bind; [apply total_call | intros _].
  apply total_bind; [apply total_modes_pass | intros _].
  destruct (run_once args) eqn:Er.
  - apply total_bind; [apply total_call | intros _; apply total_ret].
  - destruct (negb (count args =? 0) && (count args <=? i + 1)) eqn:Ec.
    + apply total_bind; [apply total_call | intros _; apply total_ret].
    + apply IH. right. destruct Hf as [[Hf _] | (Hc & Hf & _)]; [discriminate|].
      apply andb_false_iff in Ec as [Ez|Ec].
      * apply negb_false_iff, Z.eqb_eq in Ez. lia.
      * apply Z.leb_gt in Ec. lia.
Qed.

End Loop.

Lemma noise_not_header ev : is_noise ev = true -> not_header ev = true.
Proof.
  destruct ev; try reflexivity; try discriminate. simpl. intros Hn.
  destruct msg as [|c msg]; [discriminate Hn|]. simpl in Hn.
  destruct (Z.eqb_spec c 73) as [->|]; [reflexivity | discriminate Hn].
Qed.

Lemma noise_no_headers sig c :
  Forall (fun te : Z * event => is_noise (snd te) = true /\ fst te = c) sig ->
  headers sig = [].
Proof.
  intros N. apply headers_none. eapply Forall_impl; [|exact N].
  intros te [Hn _]. now apply noise_not_header.
Qed.

Section Passes.

Variable env : Env.
Variable args : Args.

Lemma no_headers_of {A} (m : M A) w :
  respects (emits not_header) m ->
  exists evs, trace (snd (m w)) = trace w ++ evs /\ headers evs = [].
Proof.
  intros Hm. destruct (Hm w) as (evs & T & F).
  exists evs. split; [exact T | now apply headers_none].
Qed.

(** The header line of a pass: it is in the trace, unless the signal
    handler raised before the line was written. *)
Lemma header_logged k w :
  exists evs,
    trace (snd (log env (header k) w)) = trace w ++ evs
    /\ (headers evs = [header k]
        \/ (headers evs = [] /\ fst (log env (header k) w) <> Ret tt)).
Proof.
  unfold log.
  destruct (call_shape env (fun _ => ELog (header k))
              (fun n _ => unit_answer (log_error env n)) 0 w)
    as (w1 & sig & T & _ & _ & N & _ & [[e E] | (_ & _ & E)]); rewrite E.
  - exists sig. split; [exact T|]. right. split; [|discriminate].
    exact (noise_no_headers _ _ N).
  - exists (sig ++ [(clock w1, ELog (header k))]). split.
    + destruct (unit_answer (log_error env (ops w))); simpl;
        now rewrite T, app_assoc.
    + left. now rewrite headers_app, (noise_no_headers _ _ N).
Qed.

(** Whatever the outcome of the loop, the headers in its trace are those
    of consecutive passes, one each, and there are no more of them than
    [run_once] or a positive count allow. *)
Lemma while_loop_passes fuel proxies ovpns : forall i w r w',
  while_loop env args fuel proxies ovpns i w = (r, w') ->
  exists evs k,
    trace w' = trace w ++ evs
    /\ headers evs = map header (upto (i + 1) k)
    /\ (run_once args = true -> (k <= 1)%nat)
    /\ (run_once args = false -> 0 < count args ->
        Z.of_nat k <= Z.max 1 (count args - i))
    /\ (forall n, r = Ret n -> n = i + Z.of_nat k).
Proof.
  pose proof (emits_invariant not_header eq_refl eq_refl) as HI.
  assert (Hq : forall A (m : M A) w r w',
             respects (emits not_header) m -> m w = (r, w') ->
             exists evs, trace w' = trace w ++ evs /\ headers evs = []).
  { intros A m w r w' Hm E. destruct (no_headers_of m w Hm) as (evs & T & N).
    rewrite E in T. eauto. }
  assert (Hend : forall msg j w0 e1 e2 e3 w3 r w',
    is_header msg = false ->
    trace w3 = trace w0 ++ e1 ++ e2 ++ e3 ->
    headers e1 = [] -> headers e2 = [header (j + 1)] -> headers e3 = [] ->
    (log env msg ;; ret (j + 1))%py w3 = (r, w') ->
    exists evs k,
      trace w' = trace w0 ++ evs
      /\ headers evs = map header (upto (j + 1) k)
      /\ (run_once args = true -> (k <= 1)%nat)
      /\ (run_once args = false -> 0 < count args ->
          Z.of_nat k <= Z.max 1 (count args - j))
      /\ (forall n, r = Ret n -> n = j + Z.of_nat k)).
  { intros msg j w0 e1 e2 e3 w3 r w' Hm T N1 N2 N3 H.
    assert (Hr : respects (emits not_header) (log env msg ;; ret (j + 1))%py).
    { apply respects_bind; [assumption | | intros; apply respects_ret; assumption].
      unfold log. apply respects_call;
        [assumption | intros ?; apply emits_record; simpl; now rewrite Hm
         | apply emits_advance]. }
    destruct (Hq _ _ _ _ _ Hr H) as (e4 & T4 & N4).
    exists (e1 ++ e2 ++ e3 ++ e4), 1%nat. split; [|split; [|split; [|split]]].
    - rewrite T4, T. now rewrite <- !app_assoc.
    - now rewrite !headers_app, N1, N2, N3, N4.
    - intros _. lia.
    - intros _ _. lia.
    - intros n Hn. subst r. apply bind_Ret_inv in H as ([] & w4 & _ & H).
      injection H as <- _. lia. }
  induction fuel as [|fuel IH]; intros i w r w' H.
  - injection H as <- <-. exists [], 0%nat. simpl. rewrite app_nil_r.
    repeat split; try lia. intros n Hn. discriminate Hn.
  - cbn [while_loop] in H. unfold bind at 1 in H.
    destruct (is_set env w) as [[stop|e|] w1] eqn:E1.
    2,3: (apply Hq in E1 as (e1 & T1 & N1);
          [|unfold is_set; apply respects_call;
            [assumption | intros ? ?; now apply emits_record | apply emits_advance]];
          injection H as <- <-; exists e1, 0%nat; simpl;
          split; [exact T1|]; split; [exact N1|];
          split; [intros; lia|]; split; [intros; lia|];
          intros n Hn; discriminate Hn).
    apply Hq in E1 as (e1 & T1 & N1);
      [|unfold is_set; apply respects_call;
        [assumption | intros ? ?; now apply emits_record | apply emits_advance]].
    destruct stop.
    1:{ injection H as <- <-. exists e1, 0%nat. simpl.
        split; [exact T1|]. split; [exact N1|].
        split; [intros; lia|]. split; [intros; lia|].
        intros n Hn. injection Hn as <-. lia. }
    cbv zeta in H. fold (header (i + 1)) in H.
    destruct (header_logged (i + 1) w1) as (e2 & T2 & N2).
    unfold bind at 1 in H.
    destruct (log env (header (i + 1)) w1) as [[[]|e|] w2]; simpl in T2, N2.
    2,3: (injection H as <- <-;
          destruct N2 as [N2 | [N2 _]];
          [exists (e1 ++ e2), 1%nat | exists (e1 ++ e2), 0%nat];
          simpl; (split; [now rewrite T2, T1, app_assoc|]);
          (split; [now rewrite headers_app, N1, N2|]);
          (split; [intros; lia|]); (split; [intros; lia|]);
          intros n Hn; discriminate Hn).
    destruct N2 as [N2 | [_ N2]]; [|now contradiction N2].
    unfold bind at 1 in H.
    destruct (modes_pass env args proxies ovpns w2) as [[[]|e|] w3] eqn:E3;
      apply Hq in E3 as (e3 & T3 & N3); try apply quiet_modes_pass.
    2,3: (injection H as <- <-;
          exists (e1 ++ e2 ++ e3), 1%nat; simpl;
          (split; [rewrite T3, T2, T1; now rewrite <- !app_assoc|]);
          (split; [now rewrite !headers_app, N1, N2, N3|]);
          (split; [intros; lia|]); (split; [intros; lia|]);
          intros n Hn; discriminate Hn).
    assert (T : trace w3 = trace w ++ e1 ++ e2 ++ e3)
      by (rewrite T3, T2, T1; now rewrite <- !app_assoc).
    destruct (run_once args) eqn:Er.
    + eapply (Hend _ i w e1 e2 e3 w3 r w');
        [| exact T | exact N1 | exact N2 | exact N3 | exact H]; reflexivity.
    + destruct (negb (count args =? 0) && (count args <=? i + 1)) eqn:Ec.
      * eapply (Hend _ i w e1 e2 e3 w3 r w');
          [| exact T | exact N1 | exact N2 | exact N3 | exact H]; reflexivity.
      * destruct (IH _ _ _ _ H) as (e4 & k & T4 & N4 & _ & B4 & R4).
        exists (e1 ++ e2 ++ e3 ++ e4), (S k).
        split; [|split; [|split; [|split]]].
        -- rewrite T4, T. now rewrite <- !app_assoc.
        -- now rewrite !headers_app, N1, N2, N3, N4.
        -- discriminate.
        -- intros _ Hc. specialize (B4 eq_refl Hc).
           apply andb_false_iff in Ec as [Ez|Ec].
           ++ apply negb_false_iff, Z.eqb_eq in Ez. lia.
           ++ apply Z.leb_gt in Ec. lia.
        -- intros n Hn. rewrite (R4 n Hn). lia.
Qed.

Lemma run_loop_passes fuel w r w' :
  run_loop env args fuel w = (r, w') ->
  exists evs k,
    trace w' = trace w ++ evs
    /\ headers evs = map header (upto 1 k)
    /\ (run_once args = true -> (k <= 1)%nat)
    /\ (run_once args = false -> 0 < count args -> Z.of_nat k <= count args)
    /\ (forall n, r = Ret n -> n = Z.of_nat k).
Proof.
  pose proof (emits_invariant not_header eq_refl eq_refl) as HI.
  assert (Hq : forall A (m : M A) w r w',
             respects (emits not_header) m -> m w = (r, w') ->
             exists evs, trace w' = trace w ++ evs /\ headers evs = []).
  { intros A m w0 r0 w0' Hm E. destruct (no_headers_of m w0 Hm) as (evs & T & N).
    rewrite E in T. eauto. }
  destruct (quiet_prepare env args) as [Q1 Q2].
  intros H. unfold run_loop in H. unfold bind at 1 in H.
  destruct (prepare_proxies env args w) as [[ps|e|] w1] eqn:E1;
    apply (Hq _ _ _ _ _ Q1) in E1 as (e1 & T1 & N1).
  2,3: (injection H as <- <-; exists e1, 0%nat;
        split; [exact T1|]; split; [exact N1|];
        split; [intros; lia|]; split; [intros; lia|];
        intros n Hn; discriminate Hn).
  unfold bind at 1 in H.
  destruct (prepare_ovpns env args w1) as [[os|e|] w2] eqn:E2;
    apply (Hq _ _ _ _ _ Q2) in E2 as (e2 & T2 & N2).
  2,3: (injection H as <- <-; exists (e1 ++ e2), 0%nat;
        split; [now rewrite T2, T1, app_assoc|];
        split; [now rewrite headers_app, N1, N2|];
        split; [intros; lia|]; split; [intros; lia|];
        intros n Hn; discriminate Hn).
  unfold bind at 1 in H.
  destruct (while_loop env args fuel ps os 0 w2) as [[k0|e|] w3] eqn:E3;
    apply while_loop_passes in E3 as (e3 & k & T3 & N3 & B1 & B2 & R3).
  2,3: (injection H as <- <-; exists (e1 ++ e2 ++ e3), k;
        split; [rewrite T3, T2, T1; now rewrite <- !app_assoc|];
        split; [now rewrite !headers_app, N1, N2, N3|];
        split; [exact B1|];
        split; [intros Hr Hc; specialize (B2 Hr Hc); lia|];
        intros n Hn; discriminate Hn).
  assert (Hr : respects (emits not_header)
                 (log env (Py.lit "AutoChanger finished.") ;; ret k0)%py)
    by walk emits_leaf.
  destruct (Hq _ _ _ _ _ Hr H) as (e4 & T4 & N4).
  exists (e1 ++ e2 ++ e3 ++ e4), k.
  split; [rewrite T4, T3, T2, T1; now rewrite <- !app_assoc|].
  split; [now rewrite !headers_app, N1, N2, N3, N4, app_nil_r|].
  split; [exact B1|].
  split; [intros Hro Hc; specialize (B2 Hro Hc); lia|].
  intros n Hn. subst r. apply bind_Ret_inv in H as ([] & w4 & _ & H).
  injection H as <- _. rewrite (R3 k0 eq_refl). lia.
Qed.

End Passes.

(** ** Cancellation *)

Lemma after_set_poll_app e1 e2 :
  after_set_poll (e1 ++ e2)
  = match after_set_poll e1 with
    | Some (t, post) => Some (t, post ++ e2)
    | None => after_set_poll e2
    end.
Proof.
  induction e1 as [|[t ev] e1 IH]; [reflexivity|]. simpl.
  destruct ev; try exact IH. destruct value; [reflexivity | exact IH].
Qed.

Lemma after_set_poll_none evs :
  Forall (fun te => no_poll (snd te) = true) evs -> after_set_poll evs = None.
Proof.
  induction 1 as [|[t ev] evs Hev _ IH]; [reflexivity|]. simpl in *.
  destruct ev; try exact IH. discriminate.
Qed.

Lemma noise_is_idle sig c :
  Forall (fun te => is_noise (snd te) = true /\ fst te = c) sig ->
  all_idle sig /\ after_set_poll sig = None.
Proof.
  induction 1 as [|[t ev] sig [Hev _] _ [IH1 IH2]]; [split; [constructor | reflexivity]|].
  simpl in Hev. split.
  - constructor; [|exact IH1]. destruct ev; try discriminate; reflexivity.
  - simpl. destruct ev; try discriminate; exact IH2.
Qed.

#[export] Instance calm_invariant : Invariant calm.
Proof.
  assert (Hsame : forall f : World -> World,
            (forall w, trace (f w) = trace w) ->
            (forall w, clock (f w) = clock w) ->
            (forall w, stop_event w = true -> stop_event (f w) = true) ->
            atom calm f).
  { intros f Ht Hc Hs w. exists []. rewrite app_nil_r.
    split; [apply Ht|]. split; [exact I|]. split.
    - intros Hw. repeat split; [constructor | apply Hc | now apply Hs].
    - intros Hn. now contradiction Hn. }
  assert (Hrec : forall ev, idle ev = true -> no_poll ev = true ->
            atom calm (record ev)).
  { intros ev Hi Hp w. exists [(clock w, ev)]. split; [reflexivity|].
    assert (Hn : after_set_poll [(clock w, ev)] = None).
    { apply after_set_poll_none. now repeat constructor. }
    unfold settled. rewrite Hn. split; [exact I|]. split.
    - intros Hw. repeat split; [now repeat constructor | exact Hw].
    - intros H. now contradiction H. }
  split.
  - intros w. exists []. rewrite app_nil_r. split; [reflexivity|].
    split; [exact I|]. split.
    + intros Hw. repeat split; [constructor | exact Hw].
    + intros H. now contradiction H.
  - intros a b c (e1 & T1 & S1 & H1 & M1) (e2 & T2 & S2 & H2 & M2).
    exists (e1 ++ e2). split; [now rewrite T2, T1, app_assoc|].
    unfold settled in *. rewrite after_set_poll_app.
    destruct (after_set_poll e1) as [[t post]|] eqn:E1.
    + destruct S1 as [I1 C1].
      destruct (H2 (M1 ltac:(discriminate))) as (I2 & C2 & St2).
      split; [|split].
      * split; [now apply Forall_app | congruence].
      * intros Ha. destruct (H1 Ha) as (I1' & C1' & St1).
        repeat split; [now apply Forall_app | congruence | exact St2].
      * intros _. exact St2.
    + split; [exact S2|]. split.
      * intros Ha. destruct (H1 Ha) as (I1' & C1' & St1).
        destruct (H2 St1) as (I2 & C2 & St2).
        repeat split; [now apply Forall_app | congruence | exact St2].
      * exact M2.
  - now apply Hsame.
  - now apply Hrec.
  - now apply Hrec.
  - now apply Hsame.
Qed.

Lemma calm_record_idle ev :
  idle ev = true -> no_poll ev = true -> atom calm (record ev).
Proof.
  intros Hi Hp w. exists [(clock w, ev)]. split; [reflexivity|].
  assert (Hn : after_set_poll [(clock w, ev)] = None).
  { apply after_set_poll_none. now repeat constructor. }
  unfold settled. rewrite Hn. split; [exact I|]. split.
  - intros Hw. repeat split; [now repeat constructor | exact Hw].
  - intros H. now contradiction H.
Qed.

Lemma calm_advance_0 : atom calm (advance 0).
Proof.
  intros w. exists []. rewrite app_nil_r. split; [reflexivity|].
  split; [exact I|]. split.
  - intros Hw. repeat split; [constructor | simpl; lia | exact Hw].
  - intros H. now contradiction H.
Qed.

Ltac calm_leaf :=
  first [apply calm_record_idle; reflexivity | apply calm_advance_0].

(** A poll goes along [calm], and what it returns is the flag. *)
Lemma calm_is_set env w :
  calm w (snd (is_set env w))
  /\ forall b w1, is_set env w = (Ret b, w1) -> stop_event w1 = b.
Proof.
  split; [|intros b w1; apply is_set_Ret].
  unfold is_set.
  destruct (call_shape env (fun w => EIsSet (stop_event w))
              (fun _ w => inr (stop_event w)) 0 w)
    as (w1 & sig & T & C & _ & N & St & [[e E] | (_ & _ & E)]);
    rewrite E; simpl; destruct (noise_is_idle _ _ N) as [NI NP].
  - exists sig. split; [exact T|]. unfold settled. rewrite NP.
    split; [exact I|]. split.
    + intros Hw. repeat split; [exact NI | exact C | now apply St].
    + intros H. now contradiction H.
  - exists (sig ++ [(clock w1, EIsSet (stop_event w1))]). split.
    + simpl. now rewrite T, app_assoc.
    + unfold settled, halted. rewrite after_set_poll_app, NP. simpl.
      destruct (stop_event w1) eqn:Es.
      * split; [split; [constructor | lia]|]. split; [|reflexivity].
        intros Hw. repeat split; [|lia].
        apply Forall_app. split; [exact NI | now repeat constructor].
      * split; [exact I|]. split; [|intros H; now contradiction H].
        intros Hw. apply St in Hw. congruence.
Qed.

Lemma calm_calm0 w w' : calm w w' -> calm0 w w'.
Proof. intros (evs & T & S & _ & M). exists evs. now repeat split. Qed.

Lemma calm0_calm w w' : stop_event w = false -> calm0 w w' -> calm w w'.
Proof.
  intros Hw (evs & T & S & M). exists evs.
  split; [exact T|]. split; [exact S|]. split; [|exact M].
  intros Hs. congruence.
Qed.

Lemma calm0_then_calm a b c : calm0 a b -> calm b c -> calm0 a c.
Proof.
  intros (e1 & T1 & S1 & M1) (e2 & T2 & S2 & H2 & M2).
  exists (e1 ++ e2). split; [now rewrite T2, T1, app_assoc|].
  unfold settled in *. rewrite after_set_poll_app.
  destruct (after_set_poll e1) as [[t post]|] eqn:E1.
  - destruct S1 as [I1 C1].
    destruct (H2 (M1 ltac:(discriminate))) as (I2 & C2 & St2).
    split; [|intros _; exact St2].
    split; [now apply Forall_app | congruence].
  - now split.
Qed.

(** A stretch without polls, then a calm0 stretch. *)
Lemma calm0_action {A B} (m : M A) (k : A -> M B) w :
  respects (emits no_poll) m ->
  (forall a w1, calm0 w1 (snd (k a w1))) ->
  calm0 w (snd (bind m k w)).
Proof.
  intros Hm Hk. unfold bind. specialize (Hm w).
  destruct (m w) as [[a|e|] w1]; simpl in Hm;
    destruct Hm as (e1 & T1 & F1); pose proof (after_set_poll_none _ F1) as N1.
  - destruct (Hk a w1) as (e2 & T2 & S2 & M2).
    exists (e1 ++ e2). split; [now rewrite T2, T1, app_assoc|].
    unfold settled. rewrite after_set_poll_app, N1. now split.
  - exists e1. split; [exact T1|]. unfold settled. rewrite N1.
    split; [exact I | intros H; now contradiction H].
  - exists e1. split; [exact T1|]. unfold settled. rewrite N1.
    split; [exact I | intros H; now contradiction H].
Qed.

(** [stop <- is_set ;; if stop then ... else ...] *)
Lemma calm_guarded env {B} (k_true k_false : M B) :
  respects calm k_true ->
  (forall w1, stop_event w1 = false -> calm w1 (snd (k_false w1))) ->
  respects calm (bind (is_set env) (fun stop => if stop then k_true else k_false)).
Proof.
  intros Ht Hf w. destruct (calm_is_set env w) as [Hc Hb].
  unfold bind. destruct (is_set env w) as [[b|e|] w1]; simpl in Hc; try exact Hc.
  specialize (Hb b w1 eq_refl). destruct b.
  - eapply inv_trans; [exact Hc | apply Ht].
  - eapply inv_trans; [exact Hc | now apply Hf].
Qed.

Lemma respects_at R {A} (m : M A) w : respects R m -> R w (snd (m w)).
Proof. intros H. apply H. Qed.

Section Cancellation.

Variable env : Env.
Variable args : Args.

Let HP : Invariant (emits no_poll) := emits_invariant no_poll eq_refl eq_refl.

Lemma no_poll_restart_with cmds :
  respects (emits no_poll) (restart_with env cmds).
Proof. induction cmds; cbn [restart_with]; walk emits_leaf. Qed.
Hint Resolve no_poll_restart_with : walk.

(** The adapters never look at the flag. *)
Lemma adapters_never_poll :
  respects (emits no_poll) (run_once_tor env args)
  /\ (forall purl, respects (emits no_poll) (run_once_proxy env args purl))
  /\ (forall cfg, respects (emits no_poll) (run_once_vpn env args cfg)).
Proof. repeat split; intros; walk emits_leaf. Qed.

Lemma calm_wait_loop fuel start : respects calm (wait_loop env args fuel start).
Proof.
  induction fuel as [|fuel IH]; cbn [wait_loop]; [apply respects_diverge; the_invariant|].
  intros w. unfold bind at 1, now.
  destruct (clock w - start <? interval args * 1000); [|apply inv_refl].
  apply calm_guarded; [apply respects_ret; the_invariant|].
  intros w1 Hw1. apply calm0_calm; [exact Hw1|].
  apply calm0_action; [walk emits_leaf|].
  intros _ w2. apply calm_calm0, IH.
Qed.

Lemma calm_wait_or_stop : respects calm (_wait_or_stop env args).
Proof.
  unfold _wait_or_stop.
  apply respects_bind; [the_invariant | apply respects_now; the_invariant | intros start].
  apply calm_wait_loop.
Qed.
Hint Resolve calm_wait_or_stop : walk.

Lemma calm_for_proxies proxies : respects calm (for_proxies env args proxies).
Proof.
  induction proxies as [|purl rest IH]; cbn [for_proxies];
    [apply respects_ret; the_invariant|].
  apply calm_guarded; [apply respects_ret; the_invariant|].
  intros w1 Hw1. apply calm0_calm; [exact Hw1|].
  apply calm0_action; [walk emits_leaf|]. intros _ w2.
  apply calm0_action; [apply adapters_never_poll|]. intros _ w3.
  apply calm_calm0.
  apply respects_bind; [the_invariant | apply calm_wait_or_stop | intros _; exact IH].
Qed.

Lemma calm_for_ovpns ovpns : respects calm (for_ovpns env args ovpns).
Proof.
  induction ovpns as [|cfg rest IH]; cbn [for_ovpns];
    [apply respects_ret; the_invariant|].
  apply calm_guarded; [apply respects_ret; the_invariant|].
  intros w1 Hw1. apply calm0_calm; [exact Hw1|].
  apply calm0_action; [walk emits_leaf|]. intros _ w2.
  apply calm0_action; [apply adapters_never_poll|]. intros _ w3.
  apply calm_calm0.
  apply respects_bind; [the_invariant | apply calm_wait_or_stop | intros _; exact IH].
Qed.
Hint Resolve calm_for_proxies calm_for_ovpns : walk.

(** One pass: the Tor change never polls; what follows it is calm. *)
Lemma modes_pass_calm0 proxies ovpns w :
  calm0 w (snd (modes_pass env args proxies ovpns w)).
Proof.
  unfold modes_pass.
  apply calm0_action.
  - destruct (in_tor_all (mode args)); [|apply respects_ret; the_invariant].
    apply respects_bind; [the_invariant | walk emits_leaf | intros _].
    apply adapters_never_poll.
  - intros _ w1. apply calm_calm0. revert w1.
    change (respects calm
      ((if in_proxy_all (mode args) && nonempty proxies
        then for_proxies env args proxies else ret tt) ;;
       (if in_vpn_all (mode args) && nonempty ovpns
        then for_ovpns env args ovpns else ret tt) ;;
       (if is_proxy (mode args) && negb (nonempty proxies) then
          log env (Py.lit "No proxies provided; sleeping.") ;;
          _wait_or_stop env args
        else ret tt) ;;
       (if is_vpn (mode args) && negb (nonempty ovpns) then
          log env (Py.lit "No .ovpn files provided; sleeping.") ;;
          _wait_or_stop env args
        else ret tt))%py).
    walk calm_leaf.
Qed.

Lemma calm_while_loop fuel proxies ovpns : forall i,
  respects calm (while_loop env args fuel proxies ovpns i).
Proof.
  induction fuel as [|fuel IH]; intros i; cbn [while_loop];
    [apply respects_diverge; the_invariant|].
  apply calm_guarded; [apply respects_ret; the_invariant|].
  intros w1 Hw1. apply calm0_calm; [exact Hw1|]. cbv zeta.
  apply calm0_action; [walk emits_leaf|]. intros _ w2.
  unfold bind at 1.
  pose proof (modes_pass_calm0 proxies ovpns w2) as Hm.
  destruct (modes_pass env args proxies ovpns w2) as [[[]|e|] w3];
    simpl in Hm; try exact Hm.
  eapply calm0_then_calm; [exact Hm|].
  destruct (run_once args);
    [apply (respects_at calm); walk calm_leaf|].
  destruct (negb (count args =? 0) && (count args <=? i + 1));
    [apply (respects_at calm); walk calm_leaf | apply IH].
Qed.

End Cancellation.

Section WaitBound.

Variable env : Env.
Variable args : Args.

Lemma noise_signal_time sig c t :
  Forall (fun te : Z * event => is_noise (snd te) = true /\ fst te = c) sig ->
  In (t, ESignal) sig -> t = c.
Proof.
  intros N Hin. rewrite Forall_forall in N. now destruct (N _ Hin) as [_ <-].
Qed.

(** In the loop of [_wait_or_stop], a signal is followed by at most one
    sleep of half a second; if the loop then returns, the flag is set. *)
Lemma wait_loop_bound fuel start : forall w r w',
  wait_loop env args fuel start w = (r, w') ->
  exists evs,
    trace w' = trace w ++ evs
    /\ forall t, In (t, ESignal) evs ->
         clock w' <= t + 500 /\ (r = Ret tt -> stop_event w' = true).
Proof.
  induction fuel as [|fuel IH]; intros w r w' H.
  - injection H as <- <-. exists []. rewrite app_nil_r.
    split; [reflexivity | intros t []].
  - cbn [wait_loop] in H. unfold bind at 1, now in H.
    destruct (clock w - start <? interval args * 1000).
    2:{ injection H as <- <-. exists []. rewrite app_nil_r.
        split; [reflexivity | intros t []]. }
    unfold bind at 1, is_set in H.
    destruct (call_shape env (fun w => EIsSet (stop_event w))
                (fun _ w => inr (stop_event w)) 0 w)
      as (w1 & sig & T & C & _ & N & St & [[e E] | (Hs1 & Hs0 & E)]);
      rewrite E in H.
    + injection H as <- <-. exists sig. split; [exact T|]. intros t Hin.
      rewrite (noise_signal_time _ _ _ N Hin). split; [lia | intros X; discriminate X].
    + destruct (stop_event w1) eqn:Eb.
      * injection H as <- <-.
        exists (sig ++ [(clock w1, EIsSet true)]). simpl. split.
        -- now rewrite T, app_assoc.
        -- intros t Hin. apply in_app_or in Hin as [Hin | [Hin | []]];
             [|discriminate Hin].
           rewrite (noise_signal_time _ _ _ N Hin). split; [lia | now intros _].
      * assert (sig = []) as ->.
        { destruct sig as [|te sig]; [reflexivity|].
          assert (X : false = true) by (apply Hs1; discriminate).
          discriminate X. }
        rewrite app_nil_r in T.
        set (w1' := advance 0 (record (EIsSet false) w1)) in H.
        unfold bind at 1 in H.
        rewrite (sleep_call env 500 w1' (short_sleep env _ 500 ltac:(lia))) in H.
        destruct (sleep_accepted env (ops w1') 500 (short_sleep env _ 500 ltac:(lia)))
          as (_ & _ & Hr).
        destruct (call_shape env (fun _ => ESleep 500)
                    (fun n _ => unit_answer (sleep_refused env n 500)) 500 w1')
          as (w2 & sig2 & T2 & C2 & _ & N2 & St2 & [[e E2] | (Hs2 & _ & E2)]);
          rewrite E2 in H; [|rewrite Hr in H; cbn [unit_answer] in H];
          unfold w1' in *; simpl in T2, C2, N2.
        -- injection H as <- <-.
           exists ((clock w1, EIsSet false) :: sig2). split.
           ++ rewrite T2, T, <- app_assoc. reflexivity.
           ++ intros t [Hin | Hin]; [discriminate Hin|].
              rewrite (noise_signal_time _ _ _ N2 Hin).
              split; [lia | intros X; discriminate X].
        -- set (w2' := advance 500 (record (ESleep 500) w2)) in H.
           destruct (IH _ _ _ H) as (evs3 & T3 & B3).
           pose proof (calm_wait_loop env args fuel start w2')
             as (evs3' & T3' & _ & H3 & _).
           rewrite H in T3', H3. simpl in T3', H3.
           exists ((clock w1, EIsSet false) :: sig2
                   ++ (clock w2, ESleep 500) :: evs3).
           split.
           ++ rewrite T3. simpl. rewrite T2, T.
              rewrite <- !app_assoc. reflexivity.
           ++ intros t [Hin | Hin]; [discriminate Hin|].
              apply in_app_or in Hin as [Hin | [Hin | Hin]];
                [|discriminate Hin | now apply B3].
              rewrite (noise_signal_time _ _ _ N2 Hin).
              assert (Hstop : stop_event w2' = true).
              { simpl. apply Hs2. intros ->. destruct Hin. }
              destruct (H3 Hstop) as (_ & Hc & Hs).
              split; [|intros _; exact Hs].
              rewrite Hc. simpl. lia.
Qed.

End WaitBound.

(** * Further properties *)

(** ** VPN profile directory *)

Lemma leb_refl a : Py.leb a a = true.
Proof.
  induction a as [|x a IH]; [reflexivity|]. simpl.
  rewrite Z.eqb_refl, IH. now rewrite orb_true_r.
Qed.

Lemma leb_total a : forall b, Py.leb a b = false -> Py.leb b a = true.
Proof.
  induction a as [|x a IH]; intros [|y b]; simpl; try discriminate; [reflexivity|].
  intros H. apply orb_false_iff in H as [H1 H2].
  apply Z.ltb_ge in H1. apply andb_false_iff in H2 as [H2|H2].
  - apply Z.eqb_neq in H2. apply orb_true_iff. left. apply Z.ltb_lt. lia.
  - apply orb_true_iff. destruct (Z.eq_dec x y) as [->|Hne].
    + right. rewrite Z.eqb_refl. now apply IH.
    + left. apply Z.ltb_lt. lia.
Qed.

Lemma leb_trans a : forall b c,
  Py.leb a b = true -> Py.leb b c = true -> Py.leb a c = true.
Proof.
  induction a as [|x a IH]; intros [|y b] [|z c]; simpl; try discriminate;
    try reflexivity.
  intros H1 H2.
  apply orb_true_iff in H1 as [H1|H1]; apply orb_true_iff in H2 as [H2|H2];
    apply orb_true_iff.
  - left. apply Z.ltb_lt in H1, H2. apply Z.ltb_lt. lia.
  - apply andb_true_iff in H2 as [H2 _]. apply Z.eqb_eq in H2. subst.
    now left.
  - apply andb_true_iff in H1 as [H1 _]. apply Z.eqb_eq in H1. subst.
    now left.
  - apply andb_true_iff in H1 as [E1 H1]. apply andb_true_iff in H2 as [E2 H2].
    apply Z.eqb_eq in E1, E2. subst. right.
    rewrite Z.eqb_refl. simpl. now apply (IH b c).
Qed.

Lemma insert_sorted_perm x l : Permutation (Py.insert_sorted x l) (x :: l).
Proof.
  induction l as [|y l IH]; simpl; [reflexivity|].
  destruct (Py.leb x y); [reflexivity|].
  rewrite IH. apply perm_swap.
Qed.

Lemma insert_sorted_sorted x l :
  StronglySorted str_le l -> StronglySorted str_le (Py.insert_sorted x l).
Proof.
  induction 1 as [|y l Hl IH Hy]; simpl.
  - repeat constructor.
  - destruct (Py.leb x y) eqn:E.
    + constructor; [now constructor|]. constructor; [exact E|].
      eapply Forall_impl; [|exact Hy]. intros z Hz. now apply (leb_trans x y z).
    + constructor; [exact IH|].
      eapply Permutation_Forall.
      * symmetry. apply insert_sorted_perm.
      * constructor; [now apply leb_total | exact Hy].
Qed.

Lemma sorted_spec l :
  Permutation (Py.sorted l) l /\ StronglySorted str_le (Py.sorted l).
Proof.
  induction l as [|x l [IHp IHs]]; simpl; [split; constructor|]. split.
  - rewrite insert_sorted_perm. now constructor.
  - now apply insert_sorted_sorted.
Qed.

Lemma filter_strongly_sorted {A} (R : A -> A -> Prop) f l :
  StronglySorted R l -> StronglySorted R (filter f l).
Proof.
  induction 1 as [|x l Hl IH Hx]; simpl; [constructor|].
  destruct (f x); [|exact IH]. constructor; [exact IH|].
  apply Forall_forall. intros y Hy. apply filter_In in Hy as [Hy _].
  rewrite Forall_forall in Hx. now apply Hx.
Qed.

Lemma filter_perm {A} (f : A -> bool) l l' :
  Permutation l l' -> Permutation (filter f l) (filter f l').
Proof.
  induction 1; simpl.
  - constructor.
  - destruct (f x); [now constructor | assumption].
  - destruct (f x), (f y); try reflexivity. apply perm_swap.
  - etransitivity; eassumption.
Qed.

(** X1.  Whatever the directory lists, [find_ovpn_files] returns the
    directory joined with each entry whose lowered name ends in [.ovpn], each
    such entry once per occurrence in the listing and no other, in ascending
    order of the names by code points. *)
Theorem find_ovpn_files_sorted_profiles env dirpath w l w' :
  find_ovpn_files env dirpath w = (Ret l, w') ->
  exists names ks,
    listdir env (ops w) dirpath = inr names
    /\ l = map (Py.path_join dirpath) ks
    /\ Permutation ks (filter is_ovpn names)
    /\ StronglySorted str_le ks
    /\ Forall (fun k => is_ovpn k = true) ks.
Proof.
  unfold find_ovpn_files, bind, call.
  destruct (deliver env (ops w) (next_op w)) as [[[]|e|] w1]; try discriminate.
  destruct (listdir env (ops w) dirpath) as [e|names] eqn:E; [discriminate|].
  unfold ret. intros H. injection H as <- _.
  destruct (sorted_spec names) as [Hp Hs].
  exists names, (filter is_ovpn (Py.sorted names)).
  split; [reflexivity|]. split; [reflexivity|]. split; [|split].
  - now apply filter_perm.
  - now apply filter_strongly_sorted.
  - apply Forall_forall. intros k Hk. now apply filter_In in Hk as [_ Hk].
Qed.

Lemma find_ovpn_files_sorted_profiles_witness :
  let env := env_fine [] [Py.lit "b.ovpn"; Py.lit "notes.txt"; Py.lit "A.OVPN"] in
  let dirpath := Py.lit "/etc/openvpn" in
  exists names ks,
    listdir env (ops world0) dirpath = inr names
    /\ [Py.lit "/etc/openvpn/A.OVPN"; Py.lit "/etc/openvpn/b.ovpn"]
       = map (Py.path_join dirpath) ks
    /\ Permutation ks (filter is_ovpn names)
    /\ StronglySorted str_le ks
    /\ Forall (fun k => is_ovpn k = true) ks.
Proof.
  apply (find_ovpn_files_sorted_profiles
           (env_fine [] [Py.lit "b.ovpn"; Py.lit "notes.txt"; Py.lit "A.OVPN"])
           (Py.lit "/etc/openvpn") world0 _
           (snd (find_ovpn_files
                   (env_fine [] [Py.lit "b.ovpn"; Py.lit "notes.txt"; Py.lit "A.OVPN"])
                   (Py.lit "/etc/openvpn") world0))).
  vm_compute. reflexivity.
Defined.

(** ** The actions of a run *)

Lemma respects_install R `{Invariant R} :
  atom R install -> respects R (fun w => (Ret tt, install w)).
Proof. intros Hi w. apply Hi. Qed.

Lemma emits_install (P : event -> bool) : atom (emits P) install.
Proof. intros w. exists []. now rewrite app_nil_r. Qed.

Lemma eqb_refl (a : Py.str) : Py.eqb a a = true.
Proof.
  induction a as [|x a IH]; [reflexivity|]. cbn [Py.eqb].
  now rewrite Z.eqb_refl, IH.
Qed.

Section Scripted.

Variable env : Env.
Variable args : Args.

Let HS : Invariant (emits (scripted args)) :=
  emits_invariant (scripted args) eq_refl eq_refl.

Lemma scripted_auth :
  scripted args (ESockSend (auth_line (tor_control_password args))) = true.
Proof. cbn [scripted]. rewrite eqb_refl. apply orb_true_r. Qed.

Ltac scripted_leaf :=
  first [ emits_leaf | apply emits_record; apply scripted_auth ].

Lemma scripted_restart : respects (emits (scripted args)) (restart_with env cmd_try).
Proof. cbn [restart_with cmd_try]. walk scripted_leaf. Qed.
Hint Resolve scripted_restart : walk.

Lemma scripted_wait_loop fuel start :
  respects (emits (scripted args)) (wait_loop env args fuel start).
Proof. induction fuel; cbn [wait_loop]; walk scripted_leaf. Qed.
Hint Resolve scripted_wait_loop : walk.

Lemma scripted_for_proxies proxies :
  respects (emits (scripted args)) (for_proxies env args proxies).
Proof. induction proxies; cbn [for_proxies]; walk scripted_leaf. Qed.

Lemma scripted_for_ovpns ovpns :
  respects (emits (scripted args)) (for_ovpns env args ovpns).
Proof. induction ovpns; cbn [for_ovpns]; walk scripted_leaf. Qed.
Hint Resolve scripted_for_proxies scripted_for_ovpns : walk.

Lemma scripted_while_loop fuel proxies ovpns : forall i,
  respects (emits (scripted args)) (while_loop env args fuel proxies ovpns i).
Proof. induction fuel; intros i; cbn [while_loop]; walk scripted_leaf. Qed.
Hint Resolve scripted_while_loop : walk.

Lemma scripted_main fuel : respects (emits (scripted args)) (main env args fuel).
Proof.
  unfold main.
  apply respects_bind; [the_invariant | walk scripted_leaf | intros ?].
  apply respects_bind; [the_invariant | walk scripted_leaf | intros ?].
  apply respects_bind;
    [the_invariant | apply respects_install; [the_invariant | apply emits_install]
    | intros ?].
  walk scripted_leaf.
Qed.

End Scripted.

(** X2.  Whatever the arguments and whatever the world answers, every action
    of a run of [main] is one the script spells out: each HTTP request goes
    to [http://checkip.amazonaws.com] with a timeout of 10; the only socket
    is to [127.0.0.1:9051] with a timeout of 5, and what is written to it is
    either [SIGNAL NEWNYM] with CR LF or the authentication line:
    [AUTHENTICATE] alone, or followed by the configured password between
    double quotes, put there as it is with nothing escaped, and CR LF; the
    only prompt is the restart confirmation; the only commands run are [sudo
    systemctl restart tor], [sudo service tor restart] and [sudo openvpn
    --config <file>]. *)
Theorem main_makes_only_scripted_actions env args fuel w :
  exists evs,
    trace (snd (main env args fuel w)) = trace w ++ evs
    /\ Forall (fun te => scripted args (snd te) = true) evs.
Proof. exact (scripted_main env args fuel w). Qed.

(** ** Modes *)

Section Isolation.

Variable env : Env.
Variable args : Args.
Variable P : event -> bool.

Hypothesis Hcommon : forall ev,
  tor_action ev = false -> vpn_action ev = false -> proxied ev = false ->
  P ev = true.
Hypothesis Htor : in_tor_all (mode args) = true ->
  forall ev, tor_action ev = true \/ via_tor ev = true -> P ev = true.
Hypothesis Hproxy : in_proxy_all (mode args) = true ->
  forall ev, proxied ev = true -> P ev = true.
Hypothesis Hvpn : in_vpn_all (mode args) = true ->
  forall ev, vpn_action ev = true -> P ev = true.

Let HP : Invariant (emits P) :=
  emits_invariant P (Hcommon ESignal eq_refl eq_refl eq_refl)
                    (Hcommon interrupt_log eq_refl eq_refl eq_refl).

Ltac common_leaf :=
  first [ apply emits_record; apply Hcommon; reflexivity | apply emits_advance ].

Ltac mode_leaf H :=
  first [ common_leaf
        | apply emits_record; apply H; first [reflexivity | left; reflexivity
                                             | right; reflexivity] ].

Lemma iso_wait_loop fuel start :
  respects (emits P) (wait_loop env args fuel start).
Proof. induction fuel; cbn [wait_loop]; walk common_leaf. Qed.
Hint Resolve iso_wait_loop : walk.

Lemma iso_restart_with cmds :
  in_tor_all (mode args) = true -> respects (emits P) (restart_with env cmds).
Proof.
  intros E. pose proof (Htor E) as Ht.
  induction cmds; cbn [restart_with]; walk ltac:(mode_leaf Ht).
Qed.

Lemma iso_run_once_tor :
  in_tor_all (mode args) = true -> respects (emits P) (run_once_tor env args).
Proof.
  intros E. pose proof (Htor E) as Ht.
  pose proof (fun cmds => iso_restart_with cmds E) as Hr.
  walk ltac:(mode_leaf Ht).
Qed.

Lemma iso_for_proxies proxies :
  in_proxy_all (mode args) = true ->
  respects (emits P) (for_proxies env args proxies).
Proof.
  intros E. pose proof (Hproxy E) as Hp.
  induction proxies; cbn [for_proxies]; walk ltac:(mode_leaf Hp).
Qed.

Lemma iso_for_ovpns ovpns :
  in_vpn_all (mode args) = true ->
  respects (emits P) (for_ovpns env args ovpns).
Proof.
  intros E. pose proof (Hvpn E) as Hv.
  induction ovpns; cbn [for_ovpns]; walk ltac:(mode_leaf Hv).
Qed.

Lemma iso_modes_pass proxies ovpns :
  respects (emits P) (modes_pass env args proxies ovpns).
Proof.
  unfold modes_pass.
  apply respects_bind; [the_invariant | | intros ?].
  { case_eq (in_tor_all (mode args)); intros E; cbn [andb]; [|walk common_leaf].
    apply respects_bind; [the_invariant | walk common_leaf | intros ?].
    exact (iso_run_once_tor E). }
  apply respects_bind; [the_invariant | | intros ?].
  { case_eq (in_proxy_all (mode args)); intros E; cbn [andb]; [|walk common_leaf].
    destruct (nonempty proxies); [|walk common_leaf].
    exact (iso_for_proxies proxies E). }
  apply respects_bind; [the_invariant | | intros ?].
  { case_eq (in_vpn_all (mode args)); intros E; cbn [andb]; [|walk common_leaf].
    destruct (nonempty ovpns); [|walk common_leaf].
    exact (iso_for_ovpns ovpns E). }
  walk common_leaf.
Qed.
Hint Resolve iso_modes_pass : walk.

Lemma iso_while_loop fuel proxies ovpns : forall i,
  respects (emits P) (while_loop env args fuel proxies ovpns i).
Proof. induction fuel; intros i; cbn [while_loop]; walk common_leaf. Qed.
Hint Resolve iso_while_loop : walk.

Lemma iso_main fuel : respects (emits P) (main env args fuel).
Proof.
  unfold main.
  apply respects_bind; [the_invariant | walk common_leaf | intros ?].
  apply respects_bind; [the_invariant | walk common_leaf | intros ?].
  apply respects_bind;
    [the_invariant | apply respects_install; [the_invariant | apply emits_install]
    | intros ?].
  walk common_leaf.
Qed.

End Isolation.

(** X3.  A run of [main] stays within its mode, whatever the world answers
    and whatever lists are configured: in mode [proxy] it never opens the Tor
    control port, never prompts for or runs a service restart and never
    starts or signals an OpenVPN child; in mode [vpn] it does none of the Tor
    actions and every IP probe is direct; in mode [tor] it never touches an
    OpenVPN child and a probe that is not direct goes through
    [socks5h://127.0.0.1:9050]. *)
Theorem main_stays_within_its_mode env args fuel w :
  exists evs,
    trace (snd (main env args fuel w)) = trace w ++ evs
    /\ Forall (fun te => allowed (mode args) (snd te) = true) evs.
Proof.
  apply (iso_main env args (allowed (mode args))).
  - intros ev Ht Hv Hp. unfold allowed. rewrite Ht, Hv, Hp.
    now destruct (mode args).
  - destruct (mode args); try discriminate; intros _ ev [H|H];
      destruct ev; try discriminate H; try reflexivity.
    unfold allowed. rewrite H. cbn [vpn_action negb andb]. apply orb_true_r.
  - destruct (mode args); try discriminate; intros _ ev H;
      destruct ev; try discriminate H; reflexivity.
  - destruct (mode args); try discriminate; intros _ ev H;
      destruct ev; try discriminate H; reflexivity.
Qed.

(** ** The inter-cycle wait *)

(** A call during which no signal arrives. *)
Lemma call_quiet env {A} ev (answer : nat -> World -> exn + A) ms w :
  signal_at env (ops w) = false ->
  call env ev answer ms w
  = match answer (ops w) (next_op w) with
    | inl e => (Raise e, record (ev (next_op w)) (next_op w))
    | inr a => (Ret a, advance ms (record (ev (next_op w)) (next_op w)))
    end.
Proof.
  intros Hs. unfold call, deliver. rewrite Hs, andb_false_r. reflexivity.
Qed.

Section WaitLength.

Variable env : Env.
Variable args : Args.
Hypothesis Hquiet : forall n, signal_at env n = false.

Lemma wait_loop_runs k : forall fuel start w,
  (k < fuel)%nat ->
  interval args * 1000 - (clock w - start) <= 500 * Z.of_nat k ->
  (k <> O -> interval args * 1000 - (clock w - start) = 500 * Z.of_nat k) ->
  stop_event w = false ->
  exists w' evs,
    wait_loop env args fuel start w = (Ret tt, w')
    /\ clock w' = clock w + 500 * Z.of_nat k
    /\ stop_event w' = false
    /\ installed w' = installed w
    /\ trace w' = trace w ++ evs
    /\ map snd evs = List.concat (repeat [EIsSet false; ESleep 500] k).
Proof.
  induction k as [|k IH]; intros fuel start w Hf Hle Heq Hs;
    (destruct fuel as [|fuel]; [lia|]); cbn [wait_loop]; unfold bind at 1, now.
  - destruct (Z.ltb_spec (clock w - start) (interval args * 1000)); [lia|].
    exists w, []. unfold ret. rewrite app_nil_r.
    repeat split; simpl; first [assumption | lia].
  - specialize (Heq ltac:(discriminate)).
    destruct (Z.ltb_spec (clock w - start) (interval args * 1000)); [|lia].
    unfold bind at 1, is_set. rewrite (call_quiet env _ _ 0 w (Hquiet _)).
    cbn [stop_event next_op]. rewrite Hs.
    unfold bind at 1.
    rewrite (sleep_call env 500 _ (short_sleep env _ 500 ltac:(lia))).
    rewrite (call_quiet env _ _ 500 _ (Hquiet _)).
    match goal with |- context [sleep_refused env ?n 500] =>
      rewrite (proj2 (proj2 (sleep_accepted env n 500
                               (short_sleep env n 500 ltac:(lia)))))
    end.
    cbn [unit_answer].
    set (w2 := advance 500 _).
    destruct (IH fuel start w2) as (w' & evs & E & C & S' & I & T & M).
    + lia.
    + unfold w2; cbn [clock advance record next_op stop_event installed trace ops]. lia.
    + intros _. unfold w2; cbn [clock advance record next_op stop_event installed trace ops]. lia.
    + unfold w2; cbn [clock advance record next_op stop_event installed trace ops]. exact Hs.
    + exists w', ((clock w, EIsSet false) :: (clock w + 0, ESleep 500) :: evs).
      split; [exact E|]. split; [|split; [exact S'|split; [|split]]].
      * rewrite C. unfold w2; cbn [clock advance record next_op stop_event installed trace ops]. lia.
      * rewrite I. reflexivity.
      * rewrite T. unfold w2; cbn [clock advance record next_op stop_event installed trace ops]. rewrite <- !app_assoc. reflexivity.
      * cbn [map snd repeat List.concat app]. now rewrite M.
Qed.

End WaitLength.

(** X4.  When no signal arrives and the stop flag is not set,
    [_wait_or_stop] returns after exactly [interval] seconds (at once when
    [interval] is zero or negative), having polled the flag and slept half a
    second [2 * interval] times, with nothing else in between; the flag is
    still unset. *)
Theorem wait_or_stop_takes_the_interval env args w :
  (forall n, signal_at env n = false) ->
  stop_event w = false ->
  exists w' evs,
    _wait_or_stop env args w = (Ret tt, w')
    /\ clock w' = clock w + Z.max 0 (interval args * 1000)
    /\ stop_event w' = false
    /\ trace w' = trace w ++ evs
    /\ map snd evs
       = List.concat (repeat [EIsSet false; ESleep 500] (Z.to_nat (2 * interval args))).
Proof.
  intros Hq Hs. unfold _wait_or_stop, wait_fuel. unfold bind at 1, now.
  destruct (wait_loop_runs env args Hq (Z.to_nat (2 * interval args))
              (S (Z.to_nat (2 * interval args))) (clock w) w)
    as (w' & evs & E & C & S' & _ & T & M); [lia | lia | lia | exact Hs |].
  exists w', evs. repeat split; try assumption. lia.
Qed.

Lemma wait_or_stop_takes_the_interval_witness :
  exists w' evs,
    _wait_or_stop (env_fine [] []) args_tor_twice world0 = (Ret tt, w')
    /\ clock w' = clock world0 + Z.max 0 (interval args_tor_twice * 1000)
    /\ stop_event w' = false
    /\ trace w' = trace world0 ++ evs
    /\ map snd evs
       = List.concat (repeat [EIsSet false; ESleep 500]
                        (Z.to_nat (2 * interval args_tor_twice))).
Proof.
  apply (wait_or_stop_takes_the_interval (env_fine [] []) args_tor_twice world0).
  - intros n. reflexivity.
  - reflexivity.
Defined.

(** ** Adapters, step by step *)

Section Steps.

Variable env : Env.
Hypothesis Hlog : forall n, log_error env n = None.

(** One external call followed by the rest of the computation. *)
Lemma step {A B} ev (answer : nat -> exn + A) ms (k : A -> M B) w :
  is_noise ev = false -> 0 <= ms ->
  exists w1,
    did w w1 [ev] /\ ops w1 = S (ops w)
    /\ bind (call env (fun _ => ev) (fun n _ => answer n) ms) k w
       = match answer (ops w) with
         | inl e => (Raise e, w1)
         | inr a => k a w1
         end.
Proof.
  intros Hn Hms.
  destruct (call_performs env Hlog ev answer ms w Hn Hms) as (w1 & E & D & O & _).
  exists w1. split; [exact D|]. split; [exact O|].
  unfold bind. rewrite E. now destruct (answer (ops w)).
Qed.

Lemma step_log {B} msg (k : unit -> M B) w :
  is_noise (ELog msg) = false ->
  exists w1,
    did w w1 [ELog msg] /\ ops w1 = S (ops w)
    /\ bind (log env msg) k w = k tt w1.
Proof.
  intros Hn.
  destruct (log_performs env Hlog msg w Hn) as (w1 & E & D & O & _).
  exists w1. split; [exact D|]. split; [exact O|].
  unfold bind. now rewrite E.
Qed.

Lemma step_sleep {B} ms (k : unit -> M B) w :
  sleep_fault env (ops w) ms = None ->
  exists w1,
    did w w1 [ESleep ms] /\ ops w1 = S (ops w)
    /\ bind (sleep env ms) k w = k tt w1.
Proof.
  intros Hms.
  destruct (sleep_performs env Hlog ms w Hms) as (w1 & E & D & O).
  exists w1. split; [exact D|]. split; [exact O|].
  unfold bind. now rewrite E.
Qed.

Lemma step_check_ip {B} proxies timeout (k : Py.str -> M B) w :
  exists s w1,
    did w w1 [EHttpGet check_url proxies timeout] /\ ops w1 = S (ops w)
    /\ bind (check_ip env proxies timeout) k w = k s w1.
Proof.
  destruct (check_ip_performs env Hlog proxies timeout w) as (s & w1 & E & D & O).
  exists s, w1. split; [exact D|]. split; [exact O|].
  unfold bind. now rewrite E.
Qed.

(** [start_openvpn] in every case. *)
Lemma start_openvpn_cases config_path w :
  exists w',
    start_openvpn env config_path w = (Ret (started env (ops w)), w')
    /\ did w w' (ELog (Py.lit "Starting OpenVPN config: " ++ config_path)
                 :: start_actions env (ops w) config_path
                 ++ [ELog (start_report env (ops w))])
    /\ ops w' = (2 + List.length (start_actions env (ops w) config_path) + ops w)%nat.
Proof.
  unfold start_openvpn, started, start_report, start_actions.
  destruct (step_log (Py.lit "Starting OpenVPN config: " ++ config_path)
              (fun _ => try_except
                 (p <- call env (fun _ => EPopen (openvpn_argv config_path))
                         (fun n _ => match popen env n with
                                     | Some e => inl e | None => inr n end) 0 ;;
                  sleep env 2000 ;;
                  rc <- call env (fun _ => EPoll p) (fun n _ => inr (poll env n)) 0 ;;
                  match rc with
                  | None => log env (Py.lit "OpenVPN process started.") ;; ret (Some p)
                  | Some returncode =>
                      log env (Py.lit "OpenVPN process exited quickly. Returncode: "
                               ++ Py.of_Z returncode) ;; ret None
                  end)
                 any_exception
                 (fun e =>
                    if is_FileNotFoundError e then
                      log env (Py.lit "openvpn binary not found. Install OpenVPN (e.g. apt install openvpn).") ;;
                      ret None
                    else
                      log env (Py.lit "Failed to start openvpn: " ++ exn_text e) ;;
                      ret None)) w eq_refl)
    as (w1 & D1 & O1 & E1).
  unfold openvpn_argv in *. rewrite E1. clear E1.
  match goal with |- context [try_except (bind ?c ?k) _ _ w1] =>
    destruct (step (EPopen [Py.lit "sudo"; Py.lit "openvpn"; Py.lit "--config"; config_path])
                (fun n => match popen env n with Some e => inl e | None => inr n end)
                0 k w1 eq_refl (Z.le_refl 0)) as (w2 & D2 & O2 & E)
  end.
  rewrite O1 in E, O2. cbn [Nat.add].
  destruct (popen env (S (ops w))) as [e|] eqn:Ep.
  - destruct (step_log (if is_FileNotFoundError e
                        then Py.lit "openvpn binary not found. Install OpenVPN (e.g. apt install openvpn)."
                        else Py.lit "Failed to start openvpn: " ++ exn_text e)
                (fun _ => ret (@None proc)) w2) as (w3 & D3 & O3 & E3);
      [now destruct (is_FileNotFoundError e)|].
    exists w3. split; [|split].
    + etransitivity; [apply try_except_Raise; exact E|].
      cbv beta. destruct (is_FileNotFoundError e); exact E3.
    + apply (did_then _ _ _ [_] [_; _] D1). apply (did_then _ _ _ [_] [_] D2 D3).
    + rewrite O3, O2. reflexivity.
  - cbv beta in E.
    match type of E with context [bind (sleep env 2000) ?k w2] =>
      destruct (step_sleep 2000 k w2 (short_sleep env _ 2000 ltac:(lia)))
        as (w3 & D3 & O3 & E3)
    end.
    rewrite E3 in E. clear E3.
    match type of E with context [bind ?c ?k w3] =>
      destruct (step (EPoll (S (ops w))) (fun n => inr (poll env n)) 0 k w3
                  eq_refl (Z.le_refl 0)) as (w4 & D4 & O4 & E4)
    end.
    rewrite E4 in E. clear E4. rewrite O3, O2 in E, O4.
    destruct (poll env (S (S (S (ops w))))) as [rc|].
    + match type of E with context [bind (log env ?m) ?k w4] =>
        destruct (step_log m k w4 eq_refl) as (w5 & D5 & O5 & E5)
      end.
      rewrite E5 in E. exists w5. split; [|split].
      * apply try_except_Ret. exact E.
      * apply (did_then _ _ _ [_] [_; _; _; _] D1).
        apply (did_then _ _ _ [_] [_; _; _] D2).
        apply (did_then _ _ _ [_] [_; _] D3).
        apply (did_then _ _ _ [_] [_] D4 D5).
      * rewrite O5, O4. reflexivity.
    + match type of E with context [bind (log env ?m) ?k w4] =>
        destruct (step_log m k w4 eq_refl) as (w5 & D5 & O5 & E5)
      end.
      rewrite E5 in E. exists w5. split; [|split].
      * apply try_except_Ret. exact E.
      * apply (did_then _ _ _ [_] [_; _; _; _] D1).
        apply (did_then _ _ _ [_] [_; _; _] D2).
        apply (did_then _ _ _ [_] [_; _] D3).
        apply (did_then _ _ _ [_] [_] D4 D5).
      * rewrite O5, O4. reflexivity.
Qed.

End Steps.

(** X5.  When the log file can be written, [start_openvpn] never raises:
    it logs the profile, runs [sudo openvpn --config <profile>], and returns
    the child only if the command could be started and the child is alive at
    the poll two seconds later.  A command that cannot be started is
    reported in the log (as a missing binary for [FileNotFoundError], with
    the text of the exception otherwise) and is then not polled; a child
    that has exited is reported with its return code.  In these cases the
    result is [None]. *)
Theorem start_openvpn_reports_failures env config_path w :
  (forall n, log_error env n = None) ->
  exists w',
    start_openvpn env config_path w = (Ret (started env (ops w)), w')
    /\ did w w' (ELog (Py.lit "Starting OpenVPN config: " ++ config_path)
                 :: start_actions env (ops w) config_path
                 ++ [ELog (start_report env (ops w))]).
Proof.
  intros Hlog.
  destruct (start_openvpn_cases env Hlog config_path w) as (w' & E & D & _).
  exists w'. now split.
Qed.

Lemma start_openvpn_reports_failures_witness :
  let env := mk_env (fun _ => None) (fun _ => inr []) (fun _ => None)
                    (fun _ => None) (fun _ => inr []) (fun _ => inr [])
                    (fun _ => None) (fun _ => Some no_such_file) (fun _ => None)
                    (fun _ => None) (fun _ => None) (fun _ => None)
                    (fun _ _ => inr []) (fun _ _ => inr []) (fun _ => false)
                    (fun _ => 0) in
  exists w',
    start_openvpn env (Py.lit "a.ovpn") world0 = (Ret (started env (ops world0)), w')
    /\ did world0 w'
         (ELog (Py.lit "Starting OpenVPN config: " ++ Py.lit "a.ovpn")
          :: start_actions env (ops world0) (Py.lit "a.ovpn")
          ++ [ELog (start_report env (ops world0))]).
Proof.
  intros env.
  apply (start_openvpn_reports_failures env (Py.lit "a.ovpn") world0).
  intros n. reflexivity.
Defined.

(** X6.  When the log file can be written and the child does not start or
    is not alive at the poll, a VPN cycle returns after the direct probe, the
    start attempt and the line [OpenVPN failed to start for this config.]:
    it does not sleep for the tunnel, makes no second probe and calls neither
    [terminate], [wait] nor [kill]. *)
Theorem vpn_cycle_without_child_stops_early env args ovpn_path w :
  (forall n, log_error env n = None) ->
  started env (2 + ops w)%nat = None ->
  exists before w',
    run_once_vpn env args ovpn_path w = (Ret tt, w')
    /\ did w w'
         ([ EHttpGet check_url None 10;
            ELog (Py.lit "IP before (direct): " ++ before);
            ELog (Py.lit "Starting OpenVPN config: " ++ ovpn_path) ]
          ++ start_actions env (2 + ops w)%nat ovpn_path
          ++ [ ELog (start_report env (2 + ops w)%nat);
               ELog (Py.lit "OpenVPN failed to start for this config.") ]).
Proof.
  intros Hlog Hnone. unfold run_once_vpn.
  match goal with |- context [bind (check_ip env None 10) ?k w] =>
    destruct (step_check_ip env Hlog None 10 k w) as (before & w1 & D1 & O1 & E1)
  end.
  exists before. rewrite E1. clear E1.
  match goal with |- context [bind (log env ?m) ?k w1] =>
    destruct (step_log env Hlog m k w1 eq_refl) as (w2 & D2 & O2 & E2)
  end.
  rewrite E2. clear E2. rewrite O1 in O2.
  destruct (start_openvpn_cases env Hlog ovpn_path w2) as (w3 & E3 & D3 & _).
  rewrite O2 in E3, D3. cbn [Nat.add]. cbn [Nat.add] in Hnone.
  rewrite Hnone in E3. rewrite (bind_Ret _ _ _ _ _ E3).
  match goal with |- context [bind (log env ?m) ?k w3] =>
    destruct (step_log env Hlog m k w3 eq_refl) as (w4 & D4 & O4 & E4)
  end.
  rewrite E4. exists w4. split; [reflexivity|].
  pose proof (did_then _ _ _ _ _ D1
                (did_then _ _ _ _ _ D2 (did_then _ _ _ _ _ D3 D4))) as D.
  cbn [app] in D. rewrite <- app_assoc in D. exact D.
Qed.

Lemma vpn_cycle_without_child_stops_early_witness :
  let env := mk_env (fun _ => None) (fun _ => inr []) (fun _ => None)
                    (fun _ => None) (fun _ => inr []) (fun _ => inr [])
                    (fun _ => None) (fun _ => None) (fun _ => Some 1)
                    (fun _ => None) (fun _ => None) (fun _ => None)
                    (fun _ _ => inr []) (fun _ _ => inr []) (fun _ => false)
                    (fun _ => 0) in
  exists before w',
    run_once_vpn env args_vpn_once (Py.lit "a.ovpn") world0 = (Ret tt, w')
    /\ did world0 w'
         ([ EHttpGet check_url None 10;
            ELog (Py.lit "IP before (direct): " ++ before);
            ELog (Py.lit "Starting OpenVPN config: " ++ Py.lit "a.ovpn") ]
          ++ start_actions env (2 + ops world0)%nat (Py.lit "a.ovpn")
          ++ [ ELog (start_report env (2 + ops world0)%nat);
               ELog (Py.lit "OpenVPN failed to start for this config.") ]).
Proof.
  intros env.
  apply (vpn_cycle_without_child_stops_early env args_vpn_once (Py.lit "a.ovpn") world0).
  - intros n. reflexivity.
  - reflexivity.
Defined.

Lemma run_once_proxy_performs env args proxy_url w :
  (forall n, log_error env n = None) ->
  accepts env (wait_after_change args * 1000) ->
  exists before after w',
    run_once_proxy env args proxy_url w = (Ret tt, w')
    /\ did w w'
         [ EHttpGet check_url None 10;
           ELog (Py.lit "IP before (direct): " ++ before);
           ESleep (wait_after_change args * 1000);
           EHttpGet check_url
             (Some [(Py.lit "http", proxy_url); (Py.lit "https", proxy_url)]) 10;
           ELog (Py.lit "IP via proxy " ++ proxy_url ++ Py.lit ": " ++ after) ].
Proof.
  intros Hlog Hwait. unfold run_once_proxy, proxy_to_requests_proxies.
  match goal with |- context [bind (check_ip env None 10) ?k w] =>
    destruct (step_check_ip env Hlog None 10 k w) as (before & w1 & D1 & O1 & E1)
  end.
  exists before. rewrite E1. clear E1.
  match goal with |- context [bind (log env ?m) ?k w1] =>
    destruct (step_log env Hlog m k w1 eq_refl) as (w2 & D2 & O2 & E2)
  end.
  rewrite E2. clear E2. cbv zeta.
  match goal with |- context [bind (sleep env ?ms) ?k w2] =>
    destruct (step_sleep env Hlog ms k w2 (Hwait _)) as (w3 & D3 & O3 & E3)
  end.
  rewrite E3. clear E3.
  match goal with |- context [bind (check_ip env ?p 10) ?k w3] =>
    destruct (step_check_ip env Hlog p 10 k w3) as (after & w4 & D4 & O4 & E4)
  end.
  exists after. rewrite E4. clear E4.
  destruct (log_performs env Hlog
              (Py.lit "IP via proxy " ++ proxy_url ++ Py.lit ": " ++ after) w4 eq_refl)
    as (w5 & E5 & D5 & _).
  exists w5. split; [exact E5|].
  exact (did_then _ _ _ _ _ D1
           (did_then _ _ _ _ _ D2
              (did_then _ _ _ _ _ D3 (did_then _ _ _ _ _ D4 D5)))).
Qed.

(** X7.  When no call of [log] raises and [time.sleep] accepts the settle
    time (it is not negative, not beyond 9223372036 s, and the system does
    not refuse the deadline), a proxy cycle returns and has done exactly
    this, in order: a direct probe, its log line, a sleep of
    [wait_after_change] seconds, a probe whose [proxies] maps both [http] and
    [https] to the proxy URL, and the log line with the result.  A probe that
    fails does not end the cycle. *)
Theorem proxy_cycle_probes_direct_then_proxied env args proxy_url w :
  (forall n, log_error env n = None) ->
  accepts env (wait_after_change args * 1000) ->
  exists before after w',
    run_once_proxy env args proxy_url w = (Ret tt, w')
    /\ did w w'
         [ EHttpGet check_url None 10;
           ELog (Py.lit "IP before (direct): " ++ before);
           ESleep (wait_after_change args * 1000);
           EHttpGet check_url
             (Some [(Py.lit "http", proxy_url); (Py.lit "https", proxy_url)]) 10;
           ELog (Py.lit "IP via proxy " ++ proxy_url ++ Py.lit ": " ++ after) ].
Proof. exact (run_once_proxy_performs env args proxy_url w). Qed.

Lemma proxy_cycle_probes_direct_then_proxied_witness :
  exists before after w',
    run_once_proxy (env_fine [] []) args_proxy_loop p1 world0 = (Ret tt, w')
    /\ did world0 w'
         [ EHttpGet check_url None 10;
           ELog (Py.lit "IP before (direct): " ++ before);
           ESleep (wait_after_change args_proxy_loop * 1000);
           EHttpGet check_url (Some [(Py.lit "http", p1); (Py.lit "https", p1)]) 10;
           ELog (Py.lit "IP via proxy " ++ p1 ++ Py.lit ": " ++ after) ].
Proof.
  apply (proxy_cycle_probes_direct_then_proxied (env_fine [] []) args_proxy_loop p1 world0).
  - intros n. reflexivity.
  - intros n. reflexivity.
Defined.

Lemma rejected_length_raised env (secs : Z) {B} (k : unit -> M B) w :
  secs < 0 \/ 9223372036 < secs ->
  bind (sleep env (secs * 1000)) k w = (Raise (rejected_length secs), w).
Proof.
  intros H. unfold bind, sleep, rejected_length, negative_sleep.
  destruct (Z.ltb_spec (secs * 1000) (- sleep_limit));
    destruct (Z.ltb_spec secs (-9223372036));
    try (unfold sleep_limit in *; lia); [reflexivity|].
  destruct (Z.ltb_spec sleep_limit (secs * 1000));
    destruct (Z.ltb_spec 9223372036 secs);
    try (unfold sleep_limit in *; lia); [reflexivity|].
  cbn [orb]. destruct (Z.ltb_spec (secs * 1000) 0); [reflexivity | lia].
Qed.

(** X8.  The settle time is not validated anywhere: when no call of [log]
    raises and [wait_after_change] is negative or beyond 9223372036, a proxy
    cycle makes the direct probe, logs it, and raises what [time.sleep]
    raises for that length ([ValueError] for a negative length down to
    -9223372036, [OverflowError] beyond 9223372036 in either sign); no
    request is ever sent through the proxy. *)
Theorem proxy_cycle_raises_on_negative_settle_time env args proxy_url w :
  (forall n, log_error env n = None) ->
  wait_after_change args < 0 \/ 9223372036 < wait_after_change args ->
  exists before w',
    run_once_proxy env args proxy_url w
    = (Raise (if (wait_after_change args <? -9223372036)
                 || (9223372036 <? wait_after_change args)
              then too_large else negative_sleep), w')
    /\ did w w' [ EHttpGet check_url None 10;
                  ELog (Py.lit "IP before (direct): " ++ before) ].
Proof.
  intros Hlog Hwait. unfold run_once_proxy.
  match goal with |- context [bind (check_ip env None 10) ?k w] =>
    destruct (step_check_ip env Hlog None 10 k w) as (before & w1 & D1 & O1 & E1)
  end.
  exists before. rewrite E1. clear E1.
  match goal with |- context [bind (log env ?m) ?k w1] =>
    destruct (step_log env Hlog m k w1 eq_refl) as (w2 & D2 & O2 & E2)
  end.
  rewrite E2. clear E2. cbv zeta.
  exists w2. split; [|exact (did_then _ _ _ _ _ D1 D2)].
  exact (rejected_length_raised env (wait_after_change args) _ w2 Hwait).
Qed.

Lemma proxy_cycle_raises_on_negative_settle_time_witness :
  let args := mk_args mode_proxy 60 (-10000000000) (Some proxies_txt) None None 0
                      false false log_path in
  exists before w',
    run_once_proxy (env_fine [] []) args p1 world0 = (Raise too_large, w')
    /\ did world0 w' [ EHttpGet check_url None 10;
                       ELog (Py.lit "IP before (direct): " ++ before) ].
Proof.
  intros args.
  apply (proxy_cycle_raises_on_negative_settle_time (env_fine [] []) args p1 world0).
  - intros n. reflexivity.
  - left. reflexivity.
Defined.

(** ** Tor: the exchange on the control port *)

Section Exchange.

Variable env : Env.
Hypothesis Hlog : forall n, log_error env n = None.

(** The handler of [tor_newnym_via_control]. *)
Lemma control_error_logged e w :
  exists w',
    (log env (Py.lit "Tor control error: " ++ exn_text e) ;; ret false) w
    = (Ret false, w')
    /\ did w w' [control_error e] /\ ops w' = S (ops w).
Proof.
  destruct (step_log env Hlog (Py.lit "Tor control error: " ++ exn_text e)
              (fun _ => ret false) w eq_refl) as (w' & D & O & E).
  exists w'. now repeat split.
Qed.

Ltac raised E D :=
  match type of E with _ = (Raise ?e, ?w0) =>
    let w' := fresh "w'" in
    let E' := fresh "E'" in
    let D' := fresh "D'" in
    let O' := fresh "O'" in
    destruct (control_error_logged e w0) as (w' & E' & D' & O');
    exists w'; split; [|split];
    [ etransitivity; [apply try_except_Raise; exact E | exact E']
    | exact (did_then _ _ _ _ _ D D')
    | rewrite O'; cbn [List.length Nat.add]; congruence ]
  end.

Ltac returned E D O w0 :=
  exists w0; split; [|split];
  [ apply try_except_Ret; exact E | exact D | cbn [List.length Nat.add]; exact O ].

Ltac chain D D' := pose proof (did_then _ _ _ _ _ D D'); clear D D'.

Lemma newnym_cases host port password timeout w :
  exists w',
    tor_newnym_via_control env host port password timeout w
    = (Ret (newnym_accepts env (ops w)), w')
    /\ did w w' (newnym_events env (ops w) host port password timeout)
    /\ ops w'
       = (List.length (newnym_events env (ops w) host port password timeout)
          + ops w)%nat.
Proof.
  unfold tor_newnym_via_control, send, readline, sock_close,
    newnym_accepts, newnym_events.
  fold (auth_line password). fold newnym_line. cbn [Nat.add].
  match goal with |- context [try_except (bind ?c ?k) _ _ w] =>
    destruct (step env Hlog (ESockConnect host port timeout)
                (fun n => unit_answer (sock_connect env n)) 0 k w
                eq_refl (Z.le_refl 0)) as (w1 & D1 & O1 & E)
  end.
  destruct (sock_connect env (ops w)) as [e|]; cbn [unit_answer] in E;
    [raised E D1|].
  match type of E with context [bind ?c ?k w1] =>
    destruct (step env Hlog (ESockSend (auth_line password))
                (fun n => unit_answer (sock_send env n)) 0 k w1
                eq_refl (Z.le_refl 0)) as (w2 & D2 & O2 & E2)
  end.
  rewrite E2 in E. clear E2. rewrite O1 in E, O2. chain D1 D2.
  destruct (sock_send env (S (ops w))) as [e|]; cbn [unit_answer] in E;
    [raised E H|].
  match type of E with context [bind ?c ?k w2] =>
    destruct (step env Hlog ESockReadline (fun n => sock_readline env n) 0 k w2
                eq_refl (Z.le_refl 0)) as (w3 & D3 & O3 & E3)
  end.
  rewrite E3 in E. clear E3. rewrite O2 in E, O3. chain H D3.
  destruct (sock_readline env (S (S (ops w)))) as [e|auth_resp];
    [raised E H0|].
  cbv beta in E.
  destruct (Py.startswith auth_resp (Py.lit "250")); cbn [negb andb] in E |- *.
  - match type of E with context [bind ?c ?k w3] =>
      destruct (step env Hlog (ESockSend newnym_line)
                  (fun n => unit_answer (sock_send env n)) 0 k w3
                  eq_refl (Z.le_refl 0)) as (w4 & D4 & O4 & E4)
    end.
    rewrite E4 in E. clear E4. rewrite O3 in E, O4. chain H0 D4.
    destruct (sock_send env (S (S (S (ops w))))) as [e|]; cbn [unit_answer] in E;
      [raised E H|].
    match type of E with context [bind ?c ?k w4] =>
      destruct (step env Hlog ESockReadline (fun n => sock_readline env n) 0 k w4
                  eq_refl (Z.le_refl 0)) as (w5 & D5 & O5 & E5)
    end.
    rewrite E5 in E. clear E5. rewrite O4 in E, O5. chain H D5.
    destruct (sock_readline env (S (S (S (S (ops w)))))) as [e|resp];
      [raised E H0|].
    cbv beta in E.
    match type of E with context [bind ?c ?k w5] =>
      destruct (step env Hlog (A := unit) ESockClose (fun _ => inr tt) 0 k w5
                  eq_refl (Z.le_refl 0)) as (w6 & D6 & O6 & E6)
    end.
    rewrite E6 in E. clear E6. rewrite O5 in O6. chain H0 D6.
    destruct (Py.startswith resp (Py.lit "250")).
    + returned E H O6 w6.
    + match type of E with context [bind (log env ?m) ?k w6] =>
        destruct (step_log env Hlog m k w6 eq_refl) as (w7 & D7 & O7 & E7)
      end.
      rewrite E7 in E. clear E7. rewrite O6 in O7. chain H D7.
      returned E H0 O7 w7.
  - match type of E with context [bind (log env ?m) ?k w3] =>
      destruct (step_log env Hlog m k w3 eq_refl) as (w4 & D4 & O4 & E4)
    end.
    rewrite E4 in E. clear E4. rewrite O3 in O4. chain H0 D4.
    match type of E with context [bind ?c ?k w4] =>
      destruct (step env Hlog (A := unit) ESockClose (fun _ => inr tt) 0 k w4
                  eq_refl (Z.le_refl 0)) as (w5 & D5 & O5 & E5)
    end.
    rewrite E5 in E. clear E5. rewrite O4 in O5. chain H D5.
    returned E H0 O5 w5.
Qed.

End Exchange.

(** ** Tor: the service restart *)

Lemma try_except_Raise_sel {A} (m : M A) sel h w e w' :
  m w = (Raise e, w') ->
  try_except m sel h w = if sel e then h e w' else (Raise e, w').
Proof. unfold try_except. now intros ->. Qed.

Section Restart.

Variable env : Env.
Hypothesis Hlog : forall n, log_error env n = None.

Lemma restart_cases w :
  exists w',
    restart_with env cmd_try w
    = (restart_outcome (check_call env (ops w)) (check_call env (1 + ops w)%nat), w')
    /\ did w w' (restart_events (check_call env (ops w))
                                (check_call env (1 + ops w)%nat))
    /\ ops w' = (List.length (restart_events (check_call env (ops w))
                                             (check_call env (1 + ops w)%nat))
                 + ops w)%nat.
Proof.
  cbn [restart_with cmd_try Nat.add].
  unfold restart_outcome, restart_events, systemctl_restart, service_restart.
  match goal with |- context [try_except (bind ?c ?k) _ _ w] =>
    destruct (step env Hlog
                (ECheckCall [Py.lit "sudo"; Py.lit "systemctl"; Py.lit "restart"; Py.lit "tor"])
                (fun n => unit_answer (check_call env n)) 0 k w
                eq_refl (Z.le_refl 0)) as (w1 & D1 & O1 & E)
  end.
  destruct (check_call env (ops w)) as [e|]; cbn [unit_answer] in E.
  - rewrite (try_except_Raise_sel _ _ _ _ _ _ E). fold (retryable e).
    destruct (retryable e).
    + match goal with |- context [try_except (bind ?c ?k) _ _ w1] =>
        destruct (step env Hlog
                    (ECheckCall [Py.lit "sudo"; Py.lit "service"; Py.lit "tor"; Py.lit "restart"])
                    (fun n => unit_answer (check_call env n)) 0 k w1
                    eq_refl (Z.le_refl 0)) as (w2 & D2 & O2 & E2)
      end.
      rewrite O1 in E2, O2. pose proof (did_then _ _ _ _ _ D1 D2) as D12.
      destruct (check_call env (S (ops w))) as [e'|]; cbn [unit_answer] in E2.
      * rewrite (try_except_Raise_sel _ _ _ _ _ _ E2). fold (retryable e').
        destruct (retryable e').
        -- match goal with |- context [bind (log env ?m) ?k w2] =>
             destruct (step_log env Hlog m k w2 eq_refl) as (w3 & D3 & O3 & E3)
           end.
           exists w3. split; [exact E3|]. split.
           ++ exact (did_then _ _ _ _ _ D12 D3).
           ++ rewrite O3, O2. reflexivity.
        -- exists w2. split; [reflexivity|]. split; [exact D12|].
           rewrite O2. reflexivity.
      * match type of E2 with context [bind (log env ?m) ?k w2] =>
          destruct (step_log env Hlog m k w2 eq_refl) as (w3 & D3 & O3 & E3)
        end.
        rewrite E3 in E2. exists w3. split; [|split].
        -- apply try_except_Ret. exact E2.
        -- exact (did_then _ _ _ _ _ D12 D3).
        -- rewrite O3, O2. reflexivity.
    + exists w1. split; [reflexivity|]. split; [exact D1|].
      rewrite O1. reflexivity.
  - match type of E with context [bind (log env ?m) ?k w1] =>
      destruct (step_log env Hlog m k w1 eq_refl) as (w2 & D2 & O2 & E2)
    end.
    rewrite E2 in E. exists w2. split; [|split].
    + apply try_except_Ret. exact E.
    + exact (did_then _ _ _ _ _ D1 D2).
    + rewrite O2, O1. reflexivity.
Qed.

End Restart.

Section Reload.

Variable env : Env.
Hypothesis Hlog : forall n, log_error env n = None.

(** [tor_reload_service] up to the answer to its prompt. *)
Lemma reload_asks w :
  exists w2,
    did w w2 [ELog attempt_msg; EInput restart_prompt]
    /\ ops w2 = (2 + ops w)%nat
    /\ tor_reload_service env w
       = match user_input env (1 + ops w)%nat with
         | inl e => (Raise e, w2)
         | inr raw =>
             (if negb (says_y raw) then
                log env (Py.lit "User declined to restart tor service.") ;; ret false
              else restart_with env cmd_try)%py w2
         end.
Proof.
  unfold tor_reload_service.
  match goal with |- context [bind (log env ?m) ?k w] =>
    destruct (step_log env Hlog m k w eq_refl) as (w1 & D1 & O1 & E1)
  end.
  rewrite E1. clear E1.
  match goal with |- context [bind ?c ?k w1] =>
    destruct (step env Hlog (EInput restart_prompt) (fun n => user_input env n) 0 k w1
                eq_refl (Z.le_refl 0)) as (w2 & D2 & O2 & E2)
  end.
  rewrite E2. clear E2. rewrite O1 in *. exists w2.
  split; [exact (did_then _ _ _ _ _ D1 D2)|]. split; [exact O2|].
  cbn [Nat.add]. now destruct (user_input env (S (ops w))).
Qed.

Lemma reload_declines w raw :
  user_input env (1 + ops w)%nat = inr raw -> says_y raw = false ->
  exists w',
    tor_reload_service env w = (Ret false, w')
    /\ did w w' [ ELog attempt_msg; EInput restart_prompt;
                  ELog (Py.lit "User declined to restart tor service.") ].
Proof.
  intros Hin Hno. destruct (reload_asks w) as (w2 & D & O & E).
  rewrite Hin, Hno in E. cbn [negb] in E.
  destruct (step_log env Hlog (Py.lit "User declined to restart tor service.")
              (fun _ => ret false) w2 eq_refl) as (w3 & D3 & O3 & E3).
  exists w3. split; [now rewrite E|]. exact (did_then _ _ _ _ _ D D3).
Qed.

End Reload.

(** X9.  When the log file can be written, [tor_newnym_via_control] never
    raises.  It returns [True] exactly when the connection and both writes
    succeed and both replies start with [250]; it has then sent
    [AUTHENTICATE] (followed by the password in double quotes when a
    non-empty one is given) and [SIGNAL NEWNYM], each ended by CR LF, read
    one line after each, closed the socket, and logged nothing. *)
Theorem newnym_succeeds_on_two_250_replies env host port password timeout w :
  (forall n, log_error env n = None) ->
  exists w',
    tor_newnym_via_control env host port password timeout w
    = (Ret (newnym_accepts env (ops w)), w')
    /\ (newnym_accepts env (ops w) = true ->
        did w w' [ ESockConnect host port timeout;
                   ESockSend (auth_line password); ESockReadline;
                   ESockSend newnym_line; ESockReadline; ESockClose ]).
Proof.
  intros Hlog.
  destruct (newnym_cases env Hlog host port password timeout w) as (w' & E & D & _).
  exists w'. split; [exact E|]. clear E.
  unfold newnym_accepts, newnym_events in *. intros Ha.
  destruct (sock_connect env (ops w)); [discriminate Ha|].
  destruct (sock_send env (1 + ops w)); [discriminate Ha|].
  destruct (sock_readline env (2 + ops w)); [discriminate Ha|].
  destruct (Py.startswith s (Py.lit "250")); [|discriminate Ha].
  destruct (sock_send env (3 + ops w)); [discriminate Ha|].
  destruct (sock_readline env (4 + ops w)); [discriminate Ha|].
  cbn [andb] in Ha. rewrite Ha in D. exact D.
Qed.

Lemma newnym_succeeds_on_two_250_replies_witness :
  exists w',
    tor_newnym_via_control (env_fine [] []) (Py.lit "127.0.0.1") 9051
      (Some (Py.lit "secret")) 5 world0
    = (Ret true, w')
    /\ did world0 w'
          [ ESockConnect (Py.lit "127.0.0.1") 9051 5;
            ESockSend (Py.lit "AUTHENTICATE " ++ [34] ++ Py.lit "secret" ++ [34; 13; 10]);
            ESockReadline;
            ESockSend (Py.lit "SIGNAL NEWNYM" ++ [13; 10]); ESockReadline;
            ESockClose ].
Proof.
  destruct (newnym_succeeds_on_two_250_replies (env_fine [] []) (Py.lit "127.0.0.1")
              9051 (Some (Py.lit "secret")) 5 world0 (fun n => eq_refl))
    as (w' & E & D).
  exists w'. split; [exact E | exact (D eq_refl)].
Defined.

(** X10.  The socket is closed only on the paths that read a reply: when
    the connection is made and a later write or read raises, the function
    logs [Tor control error: ...] with the text of that exception and
    returns [False] without ever closing the socket. *)
Theorem control_socket_is_not_closed_after_an_error env host port password timeout w e :
  (forall n, log_error env n = None) ->
  sock_connect env (ops w) = None ->
  socket_fault env (ops w) = Some e ->
  exists w' l,
    tor_newnym_via_control env host port password timeout w = (Ret false, w')
    /\ did w w' l
    /\ hd_error l = Some (ESockConnect host port timeout)
    /\ last l ESignal = control_error e
    /\ filter is_close l = [].
Proof.
  intros Hlog Hc Hf.
  destruct (newnym_cases env Hlog host port password timeout w) as (w' & E & D & _).
  exists w', (newnym_events env (ops w) host port password timeout).
  unfold newnym_accepts in E. unfold newnym_events in *. unfold socket_fault in Hf.
  rewrite Hc in *.
  destruct (sock_send env (1 + ops w)) as [e1|].
  { injection Hf as ->. now repeat split. }
  destruct (sock_readline env (2 + ops w)) as [e2|auth].
  { injection Hf as ->. now repeat split. }
  destruct (Py.startswith auth (Py.lit "250")); [|discriminate Hf].
  destruct (sock_send env (3 + ops w)) as [e3|].
  { injection Hf as ->. now repeat split. }
  destruct (sock_readline env (4 + ops w)) as [e4|resp]; [|discriminate Hf].
  injection Hf as ->. now repeat split.
Qed.

Lemma control_socket_is_not_closed_after_an_error_witness :
  let env := mk_env (fun _ => None) (fun _ => inr []) (fun _ => None)
                    (fun _ => Some refused) (fun _ => inr []) (fun _ => inr [])
                    (fun _ => None) (fun _ => None) (fun _ => None)
                    (fun _ => None) (fun _ => None) (fun _ => None)
                    (fun _ _ => inr []) (fun _ _ => inr []) (fun _ => false)
                    (fun _ => 0) in
  exists w' l,
    tor_newnym_via_control env (Py.lit "127.0.0.1") 9051 None 5 world0
    = (Ret false, w')
    /\ did world0 w' l
    /\ hd_error l = Some (ESockConnect (Py.lit "127.0.0.1") 9051 5)
    /\ last l ESignal = control_error refused
    /\ filter is_close l = [].
Proof.
  intros env.
  apply (control_socket_is_not_closed_after_an_error env (Py.lit "127.0.0.1") 9051
           None 5 world0 refused).
  - intros n. reflexivity.
  - reflexivity.
  - reflexivity.
Defined.

(** X11.  When the log file can be written and the user answers the prompt
    with a yes ([y] after stripping and lowering), [tor_reload_service] runs
    [sudo systemctl restart tor] first; it runs [sudo service tor restart]
    only if the first command raised [CalledProcessError] or
    [FileNotFoundError]; it returns [True] after the first command that
    succeeds and [False], with a log line, when both failed in that way; any
    other exception of a command leaves the function. *)
Theorem reload_tries_systemctl_then_service env w raw :
  (forall n, log_error env n = None) ->
  user_input env (1 + ops w)%nat = inr raw ->
  says_y raw = true ->
  exists w',
    tor_reload_service env w
    = (restart_outcome (check_call env (2 + ops w)%nat)
                       (check_call env (3 + ops w)%nat), w')
    /\ did w w' (ELog attempt_msg :: EInput restart_prompt
                 :: restart_events (check_call env (2 + ops w)%nat)
                                   (check_call env (3 + ops w)%nat)).
Proof.
  intros Hlog Hin Hyes. destruct (reload_asks env Hlog w) as (w2 & D & O & E).
  rewrite Hin, Hyes in E. cbn [negb] in E.
  destruct (restart_cases env Hlog w2) as (w3 & E3 & D3 & _).
  rewrite O in E3, D3. exists w3. split; [now rewrite E|].
  exact (did_then _ _ _ _ _ D D3).
Qed.

Lemma reload_tries_systemctl_then_service_witness :
  let env := mk_env (fun _ => None) (fun _ => inr []) (fun _ => None)
                    (fun _ => None) (fun _ => inr []) (fun _ => inr says_yes)
                    (fun n => if Nat.eqb n 2 then Some no_such_file else None)
                    (fun _ => None) (fun _ => None)
                    (fun _ => None) (fun _ => None) (fun _ => None)
                    (fun _ _ => inr []) (fun _ _ => inr []) (fun _ => false)
                    (fun _ => 0) in
  exists w',
    tor_reload_service env world0
    = (restart_outcome (check_call env (2 + ops world0)%nat)
                       (check_call env (3 + ops world0)%nat), w')
    /\ did world0 w'
         (ELog attempt_msg :: EInput restart_prompt
          :: restart_events (check_call env (2 + ops world0)%nat)
                            (check_call env (3 + ops world0)%nat)).
Proof.
  intros env.
  apply (reload_tries_systemctl_then_service env world0 says_yes).
  - intros n. reflexivity.
  - reflexivity.
  - reflexivity.
Defined.

(** ** Tor cycle *)

Lemma newnym_events_accepted env n host port password timeout :
  newnym_accepts env n = true ->
  newnym_events env n host port password timeout
  = [ ESockConnect host port timeout;
      ESockSend (auth_line password); ESockReadline;
      ESockSend newnym_line; ESockReadline; ESockClose ].
Proof.
  unfold newnym_accepts, newnym_events. intros Ha.
  destruct (sock_connect env n); [discriminate Ha|].
  destruct (sock_send env (1 + n)); [discriminate Ha|].
  destruct (sock_readline env (2 + n)); [discriminate Ha|].
  destruct (Py.startswith s (Py.lit "250")); [|discriminate Ha].
  destruct (sock_send env (3 + n)); [discriminate Ha|].
  destruct (sock_readline env (4 + n)); [discriminate Ha|].
  cbn [andb] in Ha. now rewrite Ha.
Qed.

(** X12.  When no call of [log] raises, the control port takes the request
    and [time.sleep] accepts the settle time (it is not negative, not beyond
    9223372036 s, and the system does not refuse the deadline), a Tor cycle
    returns and has done exactly this, in order: a direct probe, the exchange
    on [127.0.0.1:9051] with the configured password, a sleep of
    [wait_after_change] seconds, and a probe through
    [socks5h://127.0.0.1:9050].  It neither prompts nor runs a command. *)
Theorem tor_cycle_with_control_port env args w :
  (forall n, log_error env n = None) ->
  newnym_accepts env (2 + ops w)%nat = true ->
  accepts env (wait_after_change args * 1000) ->
  exists before after w',
    run_once_tor env args w = (Ret tt, w')
    /\ did w w'
         [ EHttpGet check_url None 10;
           ELog (Py.lit "IP before (direct): " ++ before);
           ESockConnect (Py.lit "127.0.0.1") 9051 5;
           ESockSend (auth_line (tor_control_password args)); ESockReadline;
           ESockSend newnym_line; ESockReadline; ESockClose;
           ELog (Py.lit "Requested NEWNYM via Tor control port.");
           ESleep (wait_after_change args * 1000);
           EHttpGet check_url tor_proxies 10;
           ELog (Py.lit "IP after (via TOR): " ++ after) ].
Proof.
  intros Hlog Ha Hwait. unfold run_once_tor.
  match goal with |- context [bind (check_ip env None 10) ?k w] =>
    destruct (step_check_ip env Hlog None 10 k w) as (before & w1 & D1 & O1 & E1)
  end.
  exists before. rewrite E1. clear E1.
  match goal with |- context [bind (log env ?m) ?k w1] =>
    destruct (step_log env Hlog m k w1 eq_refl) as (w2 & D2 & O2 & E2)
  end.
  rewrite E2. clear E2. rewrite O1 in O2.
  destruct (newnym_cases env Hlog (Py.lit "127.0.0.1") 9051
              (tor_control_password args) 5 w2) as (w3 & E3 & D3 & O3).
  rewrite O2 in E3, D3, O3. cbn [Nat.add] in Ha. rewrite Ha in E3.
  rewrite (newnym_events_accepted _ _ _ _ _ _ Ha) in D3. clear O3.
  destruct (log_performs env Hlog (Py.lit "Requested NEWNYM via Tor control port.")
              w3 eq_refl) as (w4 & E4 & D4 & _).
  assert (Hid : tor_change_identity env (tor_control_password args) w2 = (Ret true, w4)).
  { unfold tor_change_identity. rewrite (bind_Ret _ _ _ _ _ E3).
    now rewrite (bind_Ret _ _ _ _ _ E4). }
  rewrite (bind_Ret _ _ _ _ _ Hid). cbn [negb].
  match goal with |- context [bind (sleep env ?ms) ?k w4] =>
    destruct (step_sleep env Hlog ms k w4 (Hwait _)) as (w5 & D5 & O5 & E5)
  end.
  rewrite E5. clear E5.
  match goal with |- context [try_except (bind ?c ?k) _ _ w5] =>
    destruct (step_check_ip env Hlog tor_proxies 10 k w5)
      as (after & w6 & D6 & O6 & E6)
  end.
  exists after.
  destruct (log_performs env Hlog (Py.lit "IP after (via TOR): " ++ after) w6 eq_refl)
    as (w7 & E7 & D7 & _).
  exists w7. split.
  - apply try_except_Ret. rewrite E6. exact E7.
  - exact (did_then _ _ _ _ _ D1
             (did_then _ _ _ _ _ D2
                (did_then _ _ _ _ _ D3
                   (did_then _ _ _ _ _ D4
                      (did_then _ _ _ _ _ D5 (did_then _ _ _ _ _ D6 D7)))))).
Qed.

Lemma tor_cycle_with_control_port_witness :
  exists before after w',
    run_once_tor (env_fine [] []) args_tor_twice world0 = (Ret tt, w')
    /\ did world0 w'
         [ EHttpGet check_url None 10;
           ELog (Py.lit "IP before (direct): " ++ before);
           ESockConnect (Py.lit "127.0.0.1") 9051 5;
           ESockSend (auth_line (tor_control_password args_tor_twice)); ESockReadline;
           ESockSend newnym_line; ESockReadline; ESockClose;
           ELog (Py.lit "Requested NEWNYM via Tor control port.");
           ESleep (wait_after_change args_tor_twice * 1000);
           EHttpGet check_url tor_proxies 10;
           ELog (Py.lit "IP after (via TOR): " ++ after) ].
Proof.
  apply (tor_cycle_with_control_port (env_fine [] []) args_tor_twice world0).
  - intros n. reflexivity.
  - reflexivity.
  - intros n. reflexivity.
Defined.

Lemma newnym_events_quiet env n host port password timeout :
  Forall (fun ev => tor_quiet ev = true)
         (newnym_events env n host port password timeout).
Proof.
  unfold newnym_events.
  destruct (sock_connect env n); [now repeat constructor|].
  destruct (sock_send env (1 + n)); [now repeat constructor|].
  destruct (sock_readline env (2 + n)); [now repeat constructor|].
  destruct (Py.startswith s (Py.lit "250")); [|now repeat constructor].
  destruct (sock_send env (3 + n)); [now repeat constructor|].
  destruct (sock_readline env (4 + n)); [now repeat constructor|].
  destruct (Py.startswith s0 (Py.lit "250")); now repeat constructor.
Qed.

(** X13.  When the log file can be written, the control port does not take
    the request and the user does not answer the prompt with a yes, a Tor
    cycle returns after logging [TOR identity change did not complete.]: it
    has not slept, has made no probe through Tor and has run no command. *)
Theorem tor_cycle_without_identity_change env args w :
  (forall n, log_error env n = None) ->
  newnym_accepts env (2 + ops w)%nat = false ->
  (forall n, exists raw, user_input env n = inr raw /\ says_y raw = false) ->
  exists w' l,
    run_once_tor env args w = (Ret tt, w')
    /\ did w w' l
    /\ hd_error l = Some (EHttpGet check_url None 10)
    /\ last l ESignal = ELog (Py.lit "TOR identity change did not complete.")
    /\ Forall (fun ev => tor_quiet ev = true) l.
Proof.
  intros Hlog Ha Hno. unfold run_once_tor.
  match goal with |- context [bind (check_ip env None 10) ?k w] =>
    destruct (step_check_ip env Hlog None 10 k w) as (before & w1 & D1 & O1 & E1)
  end.
  rewrite E1. clear E1.
  match goal with |- context [bind (log env ?m) ?k w1] =>
    destruct (step_log env Hlog m k w1 eq_refl) as (w2 & D2 & O2 & E2)
  end.
  rewrite E2. clear E2. rewrite O1 in O2.
  destruct (newnym_cases env Hlog (Py.lit "127.0.0.1") 9051
              (tor_control_password args) 5 w2) as (w3 & E3 & D3 & _).
  rewrite O2 in E3, D3. cbn [Nat.add] in Ha. rewrite Ha in E3.
  destruct (log_performs env Hlog fallback_msg w3 eq_refl) as (w4 & E4 & D4 & _).
  destruct (Hno (1 + ops w4)%nat) as (raw & Hin & Hraw).
  destruct (reload_declines env Hlog w4 raw Hin Hraw) as (w5 & E5 & D5).
  assert (Hid : tor_change_identity env (tor_control_password args) w2 = (Ret false, w5)).
  { unfold tor_change_identity. rewrite (bind_Ret _ _ _ _ _ E3).
    unfold fallback_msg in E4. now rewrite (bind_Ret _ _ _ _ _ E4). }
  rewrite (bind_Ret _ _ _ _ _ Hid). cbn [negb].
  match goal with |- context [bind (log env ?m) ?k w5] =>
    destruct (step_log env Hlog m k w5 eq_refl) as (w6 & D6 & O6 & E6)
  end.
  rewrite E6. clear E6. exists w6. eexists. split; [reflexivity|]. split.
  - exact (did_then _ _ _ _ _
             (did_then _ _ _ _ _
                (did_then _ _ _ _ _
                   (did_then _ _ _ _ _ (did_then _ _ _ _ _ D1 D2) D3) D4) D5) D6).
  - split; [reflexivity|]. split; [apply last_last|].
    repeat (apply Forall_app; split); try (now repeat constructor).
    apply newnym_events_quiet.
Qed.

Lemma tor_cycle_without_identity_change_witness :
  exists w' l,
    run_once_tor (env_refused says_no) args_tor_twice world0 = (Ret tt, w')
    /\ did world0 w' l
    /\ hd_error l = Some (EHttpGet check_url None 10)
    /\ last l ESignal = ELog (Py.lit "TOR identity change did not complete.")
    /\ Forall (fun ev => tor_quiet ev = true) l.
Proof.
  apply (tor_cycle_without_identity_change (env_refused says_no) args_tor_twice world0).
  - intros n. reflexivity.
  - reflexivity.
  - intros n. exists says_no. split; reflexivity.
Defined.

(** ** Teardown *)

(** X14.  When the log file can be written, [stop_process] never raises,
    whatever [terminate], [wait] and [kill] do: it calls [terminate] and then
    [wait] with a timeout of 10; if either raises it calls [kill] (skipping
    [wait] when [terminate] raised), ignores an exception of [kill], and
    logs [VPN process killed.]; otherwise it logs [VPN process
    terminated.]. *)
Theorem stop_process_always_returns env p w :
  (forall n, log_error env n = None) ->
  exists w',
    stop_process env p w = (Ret tt, w')
    /\ did w w' (match terminate env (ops w), wait env (1 + ops w)%nat with
                 | None, None =>
                     [ETerminate p; EWait p 10; ELog (Py.lit "VPN process terminated.")]
                 | None, Some _ =>
                     [ETerminate p; EWait p 10; EKill p;
                      ELog (Py.lit "VPN process killed.")]
                 | Some _, _ =>
                     [ETerminate p; EKill p; ELog (Py.lit "VPN process killed.")]
                 end).
Proof.
  intros Hlog. destruct (stop_process_performs env Hlog p w) as (w' & E & D & _).
  exists w'. split; [exact E|]. exact D.
Qed.

Lemma stop_process_always_returns_witness :
  let env := mk_env (fun _ => None) (fun _ => inr []) (fun _ => None)
                    (fun _ => None) (fun _ => inr []) (fun _ => inr [])
                    (fun _ => None) (fun _ => None) (fun _ => None)
                    (fun _ => None)
                    (fun _ => Some (mk_exn TimeoutExpired (Py.lit "timed out")))
                    (fun _ => Some refused)
                    (fun _ _ => inr []) (fun _ _ => inr []) (fun _ => false)
                    (fun _ => 0) in
  exists w',
    stop_process env 7%nat world0 = (Ret tt, w')
    /\ did world0 w'
         [ETerminate 7%nat; EWait 7%nat 10; EKill 7%nat;
          ELog (Py.lit "VPN process killed.")].
Proof.
  intros env. apply (stop_process_always_returns env 7%nat world0).
  intros n. reflexivity.
Defined.

(** ** Entry point *)

(** X15.  When the log file can be written, [main] logs its start line
    (and the dry-run line if asked), installs the handlers with a fresh,
    unset stop flag, and then is [run_loop]: a normal end of [run_loop] is
    the end of [main] with nothing added, and an exception of [run_loop] is
    logged as [Fatal error: ...] and raised again unchanged. *)
Theorem main_logs_and_reraises env args fuel w :
  (forall n, log_error env n = None) ->
  exists w0,
    did w w0 (startup_lines args)
    /\ installed w0 = true /\ stop_event w0 = false
    /\ fst (main env args fuel w) = fst (run_loop env args fuel w0)
    /\ (forall e, fst (run_loop env args fuel w0) = Raise e ->
          did (snd (run_loop env args fuel w0)) (snd (main env args fuel w))
              [ELog (Py.lit "Fatal error: " ++ exn_text e)])
    /\ ((forall e, fst (run_loop env args fuel w0) <> Raise e) ->
          snd (main env args fuel w) = snd (run_loop env args fuel w0)).
Proof.
  intros Hlog.
  assert (Hm : exists w2,
    did w w2 (startup_lines args)
    /\ main env args fuel w
       = try_except (run_loop env args fuel) any_exception
           (fun e => log env (Py.lit "Fatal error: " ++ exn_text e) ;; raise e)
           (install w2)).
  { unfold main, startup_lines.
    match goal with |- context [bind (log env ?m) ?k w] =>
      destruct (step_log env Hlog m k w eq_refl) as (w1 & D1 & O1 & E1)
    end.
    rewrite E1. clear E1.
    destruct (dry_run args).
    - match goal with |- context [bind (log env ?m) ?k w1] =>
        destruct (step_log env Hlog m k w1 eq_refl) as (w2 & D2 & O2 & E2)
      end.
      rewrite E2. exists w2. split; [exact (did_then _ _ _ _ _ D1 D2) | reflexivity].
    - exists w1. split; [exact D1 | reflexivity]. }
  destruct Hm as (w2 & D & ->). exists (install w2).
  split; [apply (did_same_trace _ w2); [reflexivity | exact D]|].
  split; [reflexivity|]. split; [reflexivity|].
  unfold try_except.
  destruct (run_loop env args fuel (install w2)) as [[n|e|] w3]; cbn [fst snd].
  - split; [reflexivity|]. split; [intros e H; discriminate H | reflexivity].
  - cbv beta iota delta [any_exception].
    destruct (step_log env Hlog (Py.lit "Fatal error: " ++ exn_text e)
                (fun _ => @raise Z e) w3 eq_refl) as (w4 & D4 & O4 & E4).
    rewrite E4. unfold raise. cbn [fst snd].
    split; [reflexivity|]. split.
    + intros e' H. injection H as <-. exact D4.
    + intros H. now destruct (H e).
  - split; [reflexivity|]. split; [intros e H; discriminate H | reflexivity].
Qed.

Lemma main_logs_and_reraises_witness :
  exists w0,
    did world0 w0 (startup_lines args_dry)
    /\ installed w0 = true /\ stop_event w0 = false
    /\ fst (main env_missing args_dry 1 world0) = fst (run_loop env_missing args_dry 1 w0)
    /\ (forall e, fst (run_loop env_missing args_dry 1 w0) = Raise e ->
          did (snd (run_loop env_missing args_dry 1 w0))
              (snd (main env_missing args_dry 1 world0))
              [ELog (Py.lit "Fatal error: " ++ exn_text e)])
    /\ ((forall e, fst (run_loop env_missing args_dry 1 w0) <> Raise e) ->
          snd (main env_missing args_dry 1 world0)
          = snd (run_loop env_missing args_dry 1 w0)).
Proof.
  apply (main_logs_and_reraises env_missing args_dry 1 world0).
  intros n. reflexivity.
Defined.

(** ** Runs that cannot raise *)

Lemma safe_ret {A} (a : A) : safe (ret a).
Proof. intros w e. discriminate. Qed.

Lemma safe_now : safe now.
Proof. intros w e. discriminate. Qed.

Lemma safe_bind {A B} (m : M A) (f : A -> M B) :
  safe m -> (forall a, safe (f a)) -> safe (bind m f).
Proof.
  intros Hm Hf w e. unfold bind. specialize (Hm w).
  destruct (m w) as [[a|e'|] w1]; simpl in *;
    [apply Hf | now destruct (Hm e') | discriminate].
Qed.

Lemma safe_try_any {A} (m : M A) (h : exn -> M A) :
  (forall e, safe (h e)) -> safe (try_except m any_exception h).
Proof.
  intros Hh w e. unfold try_except.
  destruct (m w) as [[a|e'|] w1]; simpl; [discriminate | apply Hh | discriminate].
Qed.

Section Safe.

Variable env : Env.
Hypothesis Hlog : forall n, log_error env n = None.

Lemma safe_call {A} ev (answer : nat -> World -> A) ms :
  safe (call env ev (fun n w => inr (answer n w)) ms).
Proof.
  intros w e.
  destruct (call_answer env Hlog ev (fun n w => inr (answer n w)) ms w)
    as (w1 & _ & ->).
  discriminate.
Qed.

Lemma safe_log msg : safe (log env msg).
Proof.
  intros w e. destruct (log_returns env Hlog msg w) as (w1 & w' & -> & _).
  discriminate.
Qed.

Lemma safe_is_set : safe (is_set env).
Proof. apply (safe_call (fun w => EIsSet (stop_event w)) (fun _ w => stop_event w)). Qed.

Lemma safe_sleep ms : accepts env ms -> safe (sleep env ms).
Proof.
  intros Hok w e. rewrite (sleep_call env ms w (Hok _)).
  destruct (call_answer env Hlog (fun _ => ESleep ms)
              (fun n _ => unit_answer (sleep_refused env n ms)) ms w)
    as (w1 & _ & ->).
  rewrite (proj2 (proj2 (sleep_accepted env _ ms (Hok (ops w))))). discriminate.
Qed.

Hint Resolve safe_log safe_is_set : walk.

Ltac walk_safe :=
  repeat (cbv beta zeta; first
    [ solve [auto with walk]
    | lazymatch goal with
      | |- safe (ret _) => apply safe_ret
      | |- safe now => apply safe_now
      | |- safe (sleep _ _) =>
          apply safe_sleep;
          first [assumption | intros ?; apply short_sleep; lia]
      | |- safe (call _ _ _ _) =>
          first [apply safe_log | apply safe_is_set | apply safe_call]
      | |- safe (bind _ _) => apply safe_bind; [|intros ?]
      | |- safe (try_except _ any_exception _) => apply safe_try_any; intros ?
      | |- safe (if ?b then _ else _) => destruct b
      | |- safe (match ?x with _ => _ end) => destruct x
      end
    | progress autounfold with py_defs ]).

Variable args : Args.

Lemma wait_loop_cannot_raise fuel start : safe (wait_loop env args fuel start).
Proof.
  induction fuel; cbn [wait_loop]; [intros w e; discriminate|]. walk_safe.
Qed.
Hint Resolve wait_loop_cannot_raise : walk.

Lemma run_once_vpn_cannot_raise ovpn_path :
  accepts env (Z.max 5 (wait_after_change args) * 1000) ->
  safe (run_once_vpn env args ovpn_path).
Proof. intros Hw. walk_safe. Qed.

Lemma for_ovpns_cannot_raise ovpns :
  accepts env (Z.max 5 (wait_after_change args) * 1000) ->
  safe (for_ovpns env args ovpns).
Proof. intros Hw. induction ovpns; cbn [for_ovpns]; walk_safe. Qed.

Lemma for_proxies_cannot_raise proxies :
  accepts env (wait_after_change args * 1000) ->
  safe (for_proxies env args proxies).
Proof. intros Hw. induction proxies; cbn [for_proxies]; walk_safe. Qed.

Hypothesis Hmode : in_tor_all (mode args) = false.
Hypothesis Hwait :
  in_proxy_all (mode args) = true -> accepts env (wait_after_change args * 1000).
Hypothesis Hsettle :
  in_vpn_all (mode args) = true ->
  accepts env (Z.max 5 (wait_after_change args) * 1000).

Lemma modes_pass_cannot_raise proxies ovpns :
  safe (modes_pass env args proxies ovpns).
Proof.
  unfold modes_pass. rewrite Hmode.
  apply safe_bind; [apply safe_ret | intros _].
  apply safe_bind; [|intros _].
  { case_eq (in_proxy_all (mode args)); intros E; cbn [andb]; [|apply safe_ret].
    destruct (nonempty proxies); [|apply safe_ret].
    exact (for_proxies_cannot_raise proxies (Hwait E)). }
  apply safe_bind; [|intros _].
  { case_eq (in_vpn_all (mode args)); intros E; cbn [andb]; [|apply safe_ret].
    destruct (nonempty ovpns); [|apply safe_ret].
    exact (for_ovpns_cannot_raise ovpns (Hsettle E)). }
  walk_safe.
Qed.
Hint Resolve modes_pass_cannot_raise : walk.

Lemma while_loop_cannot_raise fuel proxies ovpns : forall i,
  safe (while_loop env args fuel proxies ovpns i).
Proof.
  induction fuel; intros i; cbn [while_loop]; [intros w e; discriminate|].
  walk_safe.
Qed.

End Safe.

(** X16.  In the modes that do not use Tor, once the lists are loaded the
    rotation cannot fail: when no call of [log] raises and [time.sleep]
    accepts the settle times that the mode uses ([wait_after_change] seconds
    where proxies are used, [max(5, wait_after_change)] seconds where VPN
    profiles are), no pass of the loop raises, whatever the probes, [Popen],
    [terminate], [wait] and [kill] do. *)
Theorem rotation_without_tor_cannot_raise env args fuel proxies ovpns i w e :
  (forall n, log_error env n = None) ->
  in_tor_all (mode args) = false ->
  (in_proxy_all (mode args) = true ->
   accepts env (wait_after_change args * 1000)) ->
  (in_vpn_all (mode args) = true ->
   accepts env (Z.max 5 (wait_after_change args) * 1000)) ->
  fst (while_loop env args fuel proxies ovpns i w) <> Raise e.
Proof.
  intros Hlog Hm Hw Hs.
  exact (while_loop_cannot_raise env Hlog args Hm Hw Hs fuel proxies ovpns i w e).
Qed.

Lemma rotation_without_tor_cannot_raise_witness :
  fst (while_loop env_missing args_vpn_once 1 [] [Py.lit "a.ovpn"] 0 world0)
  <> Raise no_such_file.
Proof.
  apply (rotation_without_tor_cannot_raise env_missing args_vpn_once 1 []
           [Py.lit "a.ovpn"] 0 world0 no_such_file).
  - intros n. reflexivity.
  - reflexivity.
  - intros H. discriminate H.
  - intros _ n. reflexivity.
Defined.

(** ** Proxy rotation: order of the probes *)

Lemma proxied_not_noise l :
  filter proxied (filter (fun ev => negb (is_noise ev)) l) = filter proxied l.
Proof.
  induction l as [|ev l IH]; [reflexivity|]. cbn [filter].
  destruct (is_noise ev) eqn:En; cbn [negb].
  - destruct ev; try discriminate En; exact IH.
  - cbn [filter]. now rewrite IH.
Qed.

Lemma did_probes w w' l :
  did w w' l ->
  exists evs, trace w' = trace w ++ evs /\ proxied_probes evs = filter proxied l.
Proof.
  intros (evs & T & F). exists evs. split; [exact T|].
  unfold proxied_probes. now rewrite <- F, proxied_not_noise.
Qed.

Lemma emits_probes (P : event -> bool) w w' :
  (forall ev, P ev = true -> proxied ev = false) ->
  emits P w w' ->
  exists evs, trace w' = trace w ++ evs /\ proxied_probes evs = [].
Proof.
  intros HP (evs & T & F). exists evs. split; [exact T|].
  unfold proxied_probes. clear T.
  induction F as [|[t ev] evs Hev F IH]; [reflexivity|].
  cbn [map snd filter]. cbn [snd] in Hev. now rewrite (HP _ Hev).
Qed.

Lemma probes_then w1 w2 w3 e12 e23 :
  trace w2 = trace w1 ++ e12 -> trace w3 = trace w2 ++ e23 ->
  trace w3 = trace w1 ++ (e12 ++ e23)
  /\ proxied_probes (e12 ++ e23) = proxied_probes e12 ++ proxied_probes e23.
Proof.
  intros T1 T2. split; [now rewrite T2, T1, app_assoc|].
  unfold proxied_probes. now rewrite map_app, filter_app.
Qed.

Lemma probed_then a b c l1 l2 :
  probed a b l1 -> probed b c l2 -> probed a c (l1 ++ l2).
Proof.
  intros (e1 & T1 & P1) (e2 & T2 & P2). exists (e1 ++ e2).
  destruct (probes_then _ _ _ _ _ T1 T2) as [T P]. split; [exact T|].
  now rewrite P, P1, P2.
Qed.

Lemma did_probed w w' l : did w w' l -> probed w w' (filter proxied l).
Proof. intros D. exact (did_probes _ _ _ D). Qed.

Lemma noise_probed w w' : emits is_noise w w' -> probed w w' [].
Proof.
  apply emits_probes. intros ev Hn. destruct ev; try reflexivity; discriminate Hn.
Qed.

Section ProxyOrder.

Variable env : Env.
Variable args : Args.
Hypothesis Hlog : forall n, log_error env n = None.
Hypothesis Hwait : accepts env (wait_after_change args * 1000).

Lemma wait_or_stop_returns w :
  exists w', _wait_or_stop env args w = (Ret tt, w') /\ probed w w' [].
Proof.
  assert (Eq : _wait_or_stop env args w
               = wait_loop env args (wait_fuel args) (clock w) w) by reflexivity.
  pose proof (wait_loop_cannot_raise env Hlog args (wait_fuel args) (clock w) w) as Hs.
  pose proof (total_wait_or_stop env args w) as Ht.
  assert (Hp : probed w (snd (wait_loop env args (wait_fuel args) (clock w) w)) []).
  { apply (emits_probes (fun ev => negb (proxied ev))).
    - intros ev H. now destruct (proxied ev).
    - apply (iso_wait_loop env args (fun ev => negb (proxied ev))).
      intros ev _ _ ->. reflexivity. }
  rewrite Eq in *.
  destruct (wait_loop env args (wait_fuel args) (clock w) w) as [[[]|e|] w'];
    cbn [fst snd] in *.
  - exists w'. now split.
  - now destruct (Hs e).
  - now destruct Ht.
Qed.

Lemma for_proxies_in_order proxies : forall w,
  exists w' k,
    for_proxies env args proxies w = (Ret tt, w')
    /\ probed w w' (map probe_through (firstn k proxies))
    /\ (stop_event w' = false -> k = List.length proxies).
Proof.
  induction proxies as [|p rest IH]; intros w.
  - exists w, O. split; [reflexivity|]. split; [|reflexivity].
    exists []. now rewrite app_nil_r.
  - cbn [for_proxies].
    destruct (call_answer env Hlog (fun w => EIsSet (stop_event w))
                (fun _ w => inr (stop_event w)) 0 w) as (w1 & N1 & E1).
    fold (is_set env) in E1. rewrite (bind_Ret _ _ _ _ _ E1).
    assert (P1 : probed w (advance 0 (record (EIsSet (stop_event w1)) w1)) []).
    { apply (probed_then _ w1 _ [] []); [now apply noise_probed|].
      exists [(clock w1, EIsSet (stop_event w1))]. now split. }
    destruct (stop_event w1) eqn:Eb.
    + eexists. exists O. split; [reflexivity|]. split; [exact P1|].
      cbn [stop_event advance record]. rewrite Eb. discriminate.
    + match goal with |- context [bind (log env ?m) ?k ?w0] =>
        destruct (step_log env Hlog m k w0 eq_refl) as (w2 & D2 & O2 & E2)
      end.
      rewrite E2. clear E2.
      destruct (run_once_proxy_performs env args p w2 Hlog Hwait)
        as (before & after & w3 & E3 & D3).
      rewrite (bind_Ret _ _ _ _ _ E3).
      destruct (wait_or_stop_returns w3) as (w4 & E4 & P4).
      rewrite (bind_Ret _ _ _ _ _ E4).
      destruct (IH w4) as (w5 & k & E5 & P5 & S5).
      exists w5, (S k). split; [exact E5|]. split.
      * apply did_probed in D2, D3. cbn [filter proxied] in D2, D3.
        exact (probed_then _ _ _ [] _ P1
                 (probed_then _ _ _ [] _ D2
                    (probed_then _ _ _ [_] _ D3
                       (probed_then _ _ _ [] _ P4 P5)))).
      * intros H. cbn [List.length]. now rewrite (S5 H).
Qed.

End ProxyOrder.

(** X17.  When no call of [log] raises and [time.sleep] accepts the settle
    time (it is not negative, not beyond 9223372036 s, and the system does
    not refuse the deadline), the proxy loop returns, and the probes it sent
    through a proxy are those of the first [k] proxies of the list, one each,
    in the order of the list; [k] is the whole list unless the stop flag is
    set at the end. *)
Theorem proxies_are_probed_in_list_order env args proxies w :
  (forall n, log_error env n = None) ->
  accepts env (wait_after_change args * 1000) ->
  exists w' k,
    for_proxies env args proxies w = (Ret tt, w')
    /\ probed w w' (map probe_through (firstn k proxies))
    /\ (stop_event w' = false -> k = List.length proxies).
Proof.
  intros Hlog Hwait. exact (for_proxies_in_order env args Hlog Hwait proxies w).
Qed.

Lemma proxies_are_probed_in_list_order_witness :
  exists w' k,
    for_proxies (env_fine [] []) args_proxy_loop [p1; Py.lit "socks5://p2:1080"] world0
    = (Ret tt, w')
    /\ probed world0 w' (map probe_through (firstn k [p1; Py.lit "socks5://p2:1080"]))
    /\ (stop_event w' = false -> k = List.length [p1; Py.lit "socks5://p2:1080"]).
Proof.
  apply (proxies_are_probed_in_list_order (env_fine [] []) args_proxy_loop
           [p1; Py.lit "socks5://p2:1080"] world0).
  - intros n. reflexivity.
  - intros n. reflexivity.
Defined.

(** ** What a run never undoes *)

Section Frame.

Variable env : Env.
Variable args : Args.

Lemma frame_restart_with cmds : respects frame (restart_with env cmds).
Proof. induction cmds; cbn [restart_with]; walk frame_leaf. Qed.
Hint Resolve frame_restart_with : walk.

Lemma frame_wait_loop fuel start : respects frame (wait_loop env args fuel start).
Proof. induction fuel; cbn [wait_loop]; walk frame_leaf. Qed.
Hint Resolve frame_wait_loop : walk.

Lemma frame_for_proxies proxies : respects frame (for_proxies env args proxies).
Proof. induction proxies; cbn [for_proxies]; walk frame_leaf. Qed.

Lemma frame_for_ovpns ovpns : respects frame (for_ovpns env args ovpns).
Proof. induction ovpns; cbn [for_ovpns]; walk frame_leaf. Qed.
Hint Resolve frame_for_proxies frame_for_ovpns : walk.

Lemma frame_while_loop fuel proxies ovpns : forall i,
  respects frame (while_loop env args fuel proxies ovpns i).
Proof. induction fuel; intros i; cbn [while_loop]; walk frame_leaf. Qed.
Hint Resolve frame_while_loop : walk.

Lemma frame_run_loop fuel : respects frame (run_loop env args fuel).
Proof. walk frame_leaf. Qed.

End Frame.

(** X18.  Nothing in [run_loop] clears the stop flag or removes the
    handlers, and no call takes negative time: whatever the world answers
    and however the run ends, a flag that is set at the start is set at the
    end, the handlers are installed at the end exactly if they were at the
    start, and the clock has not gone back. *)
Theorem run_loop_never_clears_the_flag env args fuel w :
  (stop_event w = true -> stop_event (snd (run_loop env args fuel w)) = true)
  /\ installed (snd (run_loop env args fuel w)) = installed w
  /\ clock w <= clock (snd (run_loop env args fuel w)).
Proof.
  destruct (frame_run_loop env args fuel w) as (I & S' & C & _).
  now repeat split.
Qed.

Lemma run_loop_never_clears_the_flag_witness :
  stop_event (snd (run_loop (env_fine [] []) args_tor_twice 3
                            (mk_world 0 0 true true []))) = true.
Proof.
  exact (proj1 (run_loop_never_clears_the_flag (env_fine [] []) args_tor_twice 3
                  (mk_world 0 0 true true [])) eq_refl).
Defined.

(** ** VPN rotation: order of the profiles *)

Section Saw.

Variable Q : event -> bool.
Hypothesis Qnoise : forall ev, Q ev = true -> is_noise ev = false.

Lemma saw_then a b c l1 l2 : saw Q a b l1 -> saw Q b c l2 -> saw Q a c (l1 ++ l2).
Proof.
  intros (e1 & T1 & P1) (e2 & T2 & P2). exists (e1 ++ e2). split.
  - now rewrite T2, T1, app_assoc.
  - now rewrite map_app, filter_app, P1, P2.
Qed.

Lemma did_saw w w' l : did w w' l -> saw Q w w' (filter Q l).
Proof.
  intros (evs & T & F). exists evs. split; [exact T|]. rewrite <- F. clear T F.
  induction (map snd evs) as [|ev l0 IH]; [reflexivity|]. cbn [filter].
  destruct (Q ev) eqn:Eq.
  - rewrite (Qnoise _ Eq). cbn [negb filter]. now rewrite Eq, IH.
  - destruct (negb (is_noise ev)); [cbn [filter]; rewrite Eq|]; exact IH.
Qed.

Lemma emits_saw (P : event -> bool) w w' :
  (forall ev, P ev = true -> Q ev = false) -> emits P w w' -> saw Q w w' [].
Proof.
  intros HP (evs & T & F). exists evs. split; [exact T|]. clear T.
  induction F as [|[t ev] evs Hev F IH]; [reflexivity|].
  cbn [map snd filter]. cbn [snd] in Hev. now rewrite (HP _ Hev).
Qed.

Lemma noise_saw w w' : emits is_noise w w' -> saw Q w w' [].
Proof.
  apply emits_saw. intros ev Hn. destruct (Q ev) eqn:Eq; [|reflexivity].
  rewrite (Qnoise _ Eq) in Hn. discriminate Hn.
Qed.

End Saw.

Lemma popen_not_noise ev : is_popen ev = true -> is_noise ev = false.
Proof. destruct ev; try discriminate; reflexivity. Qed.


Section VpnOrder.

Variable env : Env.
Variable args : Args.
Hypothesis Hlog : forall n, log_error env n = None.
Hypothesis Hsettle : accepts env (Z.max 5 (wait_after_change args) * 1000).

Let HN : Invariant (emits no_popen) := emits_invariant no_popen eq_refl eq_refl.

Lemma no_popen_wait_loop fuel start :
  respects (emits no_popen) (wait_loop env args fuel start).
Proof. induction fuel; cbn [wait_loop]; walk emits_leaf. Qed.

Lemma no_popen_is_not_popen ev : no_popen ev = true -> is_popen ev = false.
Proof. unfold no_popen. now destruct (is_popen ev). Qed.

Lemma wait_or_stop_launches_nothing w :
  exists w', _wait_or_stop env args w = (Ret tt, w') /\ saw is_popen w w' [].
Proof.
  assert (Eq : _wait_or_stop env args w
               = wait_loop env args (wait_fuel args) (clock w) w) by reflexivity.
  pose proof (wait_loop_cannot_raise env Hlog args (wait_fuel args) (clock w) w) as Hs.
  pose proof (total_wait_or_stop env args w) as Ht.
  pose proof (emits_saw is_popen no_popen _ _ no_popen_is_not_popen
                (no_popen_wait_loop (wait_fuel args) (clock w) w)) as Hp.
  rewrite Eq in *.
  destruct (wait_loop env args (wait_fuel args) (clock w) w) as [[[]|e|] w'];
    cbn [fst snd] in *.
  - exists w'. now split.
  - now destruct (Hs e).
  - now destruct Ht.
Qed.

Lemma start_actions_popen n config_path :
  filter is_popen (start_actions env n config_path)
  = [EPopen (openvpn_argv config_path)].
Proof. unfold start_actions. now destruct (popen env (1 + n)). Qed.

Lemma run_once_vpn_launches ovpn_path w :
  exists w',
    run_once_vpn env args ovpn_path w = (Ret tt, w')
    /\ saw is_popen w w' [EPopen (openvpn_argv ovpn_path)].
Proof.
  pose proof (run_once_vpn_cannot_raise env Hlog args ovpn_path Hsettle w) as Hs.
  assert (Ht : fst (run_once_vpn env args ovpn_path w) <> Diverge).
  { assert (T : total (run_once_vpn env args ovpn_path)) by walk_total. apply T. }
  unfold run_once_vpn in *.
  match goal with |- context [bind (check_ip env None 10) ?k w] =>
    destruct (step_check_ip env Hlog None 10 k w) as (before & w1 & D1 & O1 & E1)
  end.
  rewrite E1 in *. clear E1.
  match goal with |- context [bind (log env ?m) ?k w1] =>
    destruct (step_log env Hlog m k w1 eq_refl) as (w2 & D2 & O2 & E2)
  end.
  rewrite E2 in *. clear E2.
  destruct (start_openvpn_cases env Hlog ovpn_path w2) as (w3 & E3 & D3 & _).
  rewrite (bind_Ret _ _ _ _ _ E3) in *.
  apply (did_saw is_popen popen_not_noise) in D1, D2, D3.
  cbn [filter is_popen] in D1, D2, D3.
  rewrite filter_app, start_actions_popen in D3. cbn [filter is_popen app] in D3.
  pose proof (saw_then is_popen _ _ _ _ _ D1 (saw_then is_popen _ _ _ _ _ D2 D3)) as D.
  cbn [app] in D. clear D1 D2 D3.
  match goal with |- context [?k w3 = _] =>
    assert (Hk : saw is_popen w3 (snd (k w3)) [])
  end.
  { apply (emits_saw is_popen no_popen _ _ no_popen_is_not_popen).
    apply (respects_at (emits no_popen)). walk emits_leaf. }
  match goal with |- context [?k w3 = _] =>
    destruct (k w3) as [[[]|e|] w'] eqn:E
  end; cbn [fst snd] in *.
  - exists w'. split; [reflexivity|].
    exact (saw_then is_popen _ _ _ _ _ D Hk).
  - now destruct (Hs e).
  - now destruct Ht.
Qed.

Lemma for_ovpns_in_order ovpns : forall w,
  exists w' k,
    for_ovpns env args ovpns w = (Ret tt, w')
    /\ saw is_popen w w' (map (fun cfg => EPopen (openvpn_argv cfg)) (firstn k ovpns))
    /\ (stop_event w' = false -> k = List.length ovpns).
Proof.
  induction ovpns as [|cfg rest IH]; intros w.
  - exists w, O. split; [reflexivity|]. split; [|reflexivity].
    exists []. now rewrite app_nil_r.
  - cbn [for_ovpns].
    destruct (call_answer env Hlog (fun w => EIsSet (stop_event w))
                (fun _ w => inr (stop_event w)) 0 w) as (w1 & N1 & E1).
    fold (is_set env) in E1. rewrite (bind_Ret _ _ _ _ _ E1).
    assert (P1 : saw is_popen w (advance 0 (record (EIsSet (stop_event w1)) w1)) []).
    { apply (saw_then is_popen _ w1 _ [] []);
        [now apply (noise_saw is_popen popen_not_noise)|].
      exists [(clock w1, EIsSet (stop_event w1))]. now split. }
    destruct (stop_event w1) eqn:Eb.
    + eexists. exists O. split; [reflexivity|]. split; [exact P1|].
      cbn [stop_event advance record]. rewrite Eb. discriminate.
    + match goal with |- context [bind (log env ?m) ?k ?w0] =>
        destruct (step_log env Hlog m k w0 eq_refl) as (w2 & D2 & O2 & E2)
      end.
      rewrite E2. clear E2.
      destruct (run_once_vpn_launches cfg w2) as (w3 & E3 & D3).
      rewrite (bind_Ret _ _ _ _ _ E3).
      destruct (wait_or_stop_launches_nothing w3) as (w4 & E4 & P4).
      rewrite (bind_Ret _ _ _ _ _ E4).
      destruct (IH w4) as (w5 & k & E5 & P5 & S5).
      exists w5, (S k). split; [exact E5|]. split.
      * apply (did_saw is_popen popen_not_noise) in D2. cbn [filter is_popen] in D2.
        exact (saw_then is_popen _ _ _ [] _ P1
                 (saw_then is_popen _ _ _ [] _ D2
                    (saw_then is_popen _ _ _ [_] _ D3
                       (saw_then is_popen _ _ _ [] _ P4 P5)))).
      * intros H. cbn [List.length]. now rewrite (S5 H).
Qed.

End VpnOrder.

(** X19.  When no call of [log] raises and [time.sleep] accepts the settle
    time of [max(5, wait_after_change)] seconds (it is not beyond
    9223372036 s and the system does not refuse the deadline), the VPN loop
    returns, and the OpenVPN commands it ran are [sudo openvpn --config
    <profile>] for the first [k] profiles of the list, one each, in the
    order of the list, whether or not each child started; [k] is the whole
    list unless the stop flag is set at the end. *)
Theorem vpn_profiles_are_started_in_list_order env args ovpns w :
  (forall n, log_error env n = None) ->
  accepts env (Z.max 5 (wait_after_change args) * 1000) ->
  exists w' k,
    for_ovpns env args ovpns w = (Ret tt, w')
    /\ saw is_popen w w'
         (map (fun cfg => EPopen [Py.lit "sudo"; Py.lit "openvpn"; Py.lit "--config"; cfg])
              (firstn k ovpns))
    /\ (stop_event w' = false -> k = List.length ovpns).
Proof.
  intros Hlog Hsettle. exact (for_ovpns_in_order env args Hlog Hsettle ovpns w).
Qed.

Lemma vpn_profiles_are_started_in_list_order_witness :
  exists w' k,
    for_ovpns (env_fine [] []) args_vpn_once [Py.lit "a.ovpn"; Py.lit "b.ovpn"] world0
    = (Ret tt, w')
    /\ saw is_popen world0 w'
         (map (fun cfg => EPopen [Py.lit "sudo"; Py.lit "openvpn"; Py.lit "--config"; cfg])
              (firstn k [Py.lit "a.ovpn"; Py.lit "b.ovpn"]))
    /\ (stop_event w' = false -> k = List.length [Py.lit "a.ovpn"; Py.lit "b.ovpn"]).
Proof.
  apply (vpn_profiles_are_started_in_list_order (env_fine [] []) args_vpn_once
           [Py.lit "a.ovpn"; Py.lit "b.ovpn"] world0).
  - intros n. reflexivity.
  - intros n. reflexivity.
Defined.

(** ** The lists are read once *)

Section NoReload.

Variable env : Env.
Variable args : Args.

Let HR : Invariant (emits no_read) := emits_invariant no_read eq_refl eq_refl.

Lemma no_read_restart_with cmds : respects (emits no_read) (restart_with env cmds).
Proof. induction cmds; cbn [restart_with]; walk emits_leaf. Qed.
Hint Resolve no_read_restart_with : walk.

Lemma no_read_wait_loop fuel start :
  respects (emits no_read) (wait_loop env args fuel start).
Proof. induction fuel; cbn [wait_loop]; walk emits_leaf. Qed.
Hint Resolve no_read_wait_loop : walk.

Lemma no_read_for_proxies proxies :
  respects (emits no_read) (for_proxies env args proxies).
Proof. induction proxies; cbn [for_proxies]; walk emits_leaf. Qed.

Lemma no_read_for_ovpns ovpns :
  respects (emits no_read) (for_ovpns env args ovpns).
Proof. induction ovpns; cbn [for_ovpns]; walk emits_leaf. Qed.
Hint Resolve no_read_for_proxies no_read_for_ovpns : walk.

Lemma no_read_while_loop fuel proxies ovpns : forall i,
  respects (emits no_read) (while_loop env args fuel proxies ovpns i).
Proof. induction fuel; intros i; cbn [while_loop]; walk emits_leaf. Qed.

End NoReload.

(** Two stretches of a run, one after the other. *)
Lemma phases {A B} (R1 R2 : World -> World -> Prop) (m : M A) (f : A -> M B) :
  respects R1 m -> (forall a, respects R2 (f a)) -> (forall w, R2 w w) ->
  forall w, exists wm, R1 w wm /\ R2 wm (snd (bind m f w)).
Proof.
  intros Hm Hf Hr w. specialize (Hm w). unfold bind.
  destruct (m w) as [[a|e|] w1]; cbn [snd] in *.
  - exists w1. split; [exact Hm | apply Hf].
  - exists w1. split; [exact Hm | apply Hr].
  - exists w1. split; [exact Hm | apply Hr].
Qed.

(** X20.  The proxy file and the VPN directory are read before the loop
    and never again: whatever the world answers, a run of [run_loop] is a
    preparation that only reads the lists and logs (no poll of the flag, no
    sleep, no adapter action, no iteration header), followed by a stretch
    that reads neither the file nor the directory. *)
Theorem lists_are_read_before_the_loop_only env args fuel w :
  exists pre rest,
    trace (snd (run_loop env args fuel w)) = trace w ++ pre ++ rest
    /\ Forall (fun te => preparing (snd te) = true) pre
    /\ Forall (fun te => no_read (snd te) = true) rest.
Proof.
  pose proof (emits_invariant preparing eq_refl eq_refl) as HP.
  pose proof (emits_invariant no_read eq_refl eq_refl) as HR.
  assert (H : exists wm, emits preparing w wm
                         /\ emits no_read wm (snd (run_loop env args fuel w))).
  { pose proof (respects_at (emits preparing) (prepare_proxies env args) w
                  ltac:(walk emits_leaf)) as Q1.
    unfold run_loop.
    destruct (prepare_proxies env args w) as [[proxies|e|] w1] eqn:E1;
      cbn [snd] in Q1.
    - rewrite (bind_Ret _ _ _ _ _ E1).
      pose proof (respects_at (emits preparing) (prepare_ovpns env args) w1
                    ltac:(walk emits_leaf)) as Q2.
      destruct (prepare_ovpns env args w1) as [[ovpns|e|] w2] eqn:E2;
        cbn [snd] in Q2; exists w2;
        (split; [exact (@inv_trans _ HP _ _ _ Q1 Q2)|]).
      + rewrite (bind_Ret _ _ _ _ _ E2).
        apply (respects_at (emits no_read)).
        apply respects_bind; [exact HR | apply no_read_while_loop | intros ?].
        walk emits_leaf.
      + unfold bind. rewrite E2. apply (@inv_refl _ HR).
      + unfold bind. rewrite E2. apply (@inv_refl _ HR).
    - exists w1. unfold bind. rewrite E1. split; [exact Q1 | apply (@inv_refl _ HR)].
    - exists w1. unfold bind. rewrite E1. split; [exact Q1 | apply (@inv_refl _ HR)]. }
  destruct H as (wm & (pre & T1 & F1) & (rest & T2 & F2)).
  exists pre, rest. split; [|now split].
  now rewrite T2, T1, app_assoc.
Qed.

(** ** Order of the adapters within a pass *)

Lemma allowed_common m ev :
  tor_action ev = false -> vpn_action ev = false -> proxied ev = false ->
  allowed m ev = true.
Proof. intros Ht Hv Hp. unfold allowed. rewrite Ht, Hv, Hp. now destruct m. Qed.

Lemma allowed_tor ev :
  tor_action ev = true \/ via_tor ev = true -> allowed mode_tor ev = true.
Proof.
  intros [H|H]; destruct ev; try discriminate H; try reflexivity.
  unfold allowed. rewrite H. cbn [vpn_action negb andb]. apply orb_true_r.
Qed.

Lemma allowed_proxy ev : proxied ev = true -> allowed mode_proxy ev = true.
Proof. intros H; destruct ev; try discriminate H; reflexivity. Qed.

Lemma allowed_vpn ev : vpn_action ev = true -> allowed mode_vpn ev = true.
Proof. intros H; destruct ev; try discriminate H; reflexivity. Qed.

Lemma allowed_invariant m : Invariant (emits (allowed m)).
Proof. apply emits_invariant; now destruct m. Qed.

(** X21.  Within one pass of the loop the adapters never interleave,
    whatever the mode and whatever the world answers: the pass is a stretch
    without any OpenVPN action and without a probe through a listed proxy
    (the Tor part), then a stretch without any Tor or OpenVPN action (the
    proxies), then a stretch without any Tor action and with direct probes
    only (the VPN profiles and the idle wait). *)
Theorem pass_runs_tor_then_proxies_then_vpn env args proxies ovpns w :
  exists e1 e2 e3,
    trace (snd (modes_pass env args proxies ovpns w)) = trace w ++ e1 ++ e2 ++ e3
    /\ Forall (fun te => allowed mode_tor (snd te) = true) e1
    /\ Forall (fun te => allowed mode_proxy (snd te) = true) e2
    /\ Forall (fun te => allowed mode_vpn (snd te) = true) e3.
Proof.
  pose proof (allowed_invariant mode_tor) as It.
  pose proof (allowed_invariant mode_proxy) as Ip.
  pose proof (allowed_invariant mode_vpn) as Iv.
  assert (Ha : respects (emits (allowed mode_tor))
                 (if in_tor_all (mode args)
                  then log env (Py.lit "Running TOR change...") ;; run_once_tor env args
                  else ret tt)).
  { case_eq (in_tor_all (mode args)); intros E; [|walk emits_leaf].
    apply respects_bind; [exact It | walk emits_leaf | intros _].
    exact (iso_run_once_tor env args (allowed mode_tor) (allowed_common mode_tor)
             (fun _ => allowed_tor) E). }
  assert (Hb : respects (emits (allowed mode_proxy))
                 (if in_proxy_all (mode args) && nonempty proxies
                  then for_proxies env args proxies else ret tt)).
  { case_eq (in_proxy_all (mode args)); intros E; cbn [andb]; [|walk emits_leaf].
    destruct (nonempty proxies); [|walk emits_leaf].
    exact (iso_for_proxies env args (allowed mode_proxy) (allowed_common mode_proxy)
             (fun _ => allowed_proxy) proxies E). }
  assert (Hc : forall u : unit, respects (emits (allowed mode_vpn))
                 ((if in_vpn_all (mode args) && nonempty ovpns
                   then for_ovpns env args ovpns else ret tt) ;;
                  (if is_proxy (mode args) && negb (nonempty proxies) then
                     log env (Py.lit "No proxies provided; sleeping.") ;;
                     _wait_or_stop env args
                   else ret tt) ;;
                  (if is_vpn (mode args) && negb (nonempty ovpns) then
                     log env (Py.lit "No .ovpn files provided; sleeping.") ;;
                     _wait_or_stop env args
                   else ret tt))).
  { intros _.
    pose proof (iso_wait_loop env args (allowed mode_vpn) (allowed_common mode_vpn))
      as Hw.
    apply respects_bind; [exact Iv | | intros _; walk emits_leaf].
    case_eq (in_vpn_all (mode args)); intros E; cbn [andb]; [|walk emits_leaf].
    destruct (nonempty ovpns); [|walk emits_leaf].
    exact (iso_for_ovpns env args (allowed mode_vpn) (allowed_common mode_vpn)
             (fun _ => allowed_vpn) ovpns E). }
  assert (Hbc : forall u : unit, respects (then_mode mode_proxy mode_vpn)
                  ((if in_proxy_all (mode args) && nonempty proxies
                    then for_proxies env args proxies else ret tt) ;;
                   (if in_vpn_all (mode args) && nonempty ovpns
                    then for_ovpns env args ovpns else ret tt) ;;
                   (if is_proxy (mode args) && negb (nonempty proxies) then
                      log env (Py.lit "No proxies provided; sleeping.") ;;
                      _wait_or_stop env args
                    else ret tt) ;;
                   (if is_vpn (mode args) && negb (nonempty ovpns) then
                      log env (Py.lit "No .ovpn files provided; sleeping.") ;;
                      _wait_or_stop env args
                    else ret tt))).
  { intros _ w0. exact (phases _ _ _ _ Hb Hc (@inv_refl _ Iv) w0). }
  destruct (phases (emits (allowed mode_tor)) (then_mode mode_proxy mode_vpn) _ _
              Ha Hbc
              (fun w0 => ex_intro _ w0 (conj (@inv_refl _ Ip w0) (@inv_refl _ Iv w0)))
              w)
    as (w1 & (e1 & T1 & F1) & (w2 & (e2 & T2 & F2) & (e3 & T3 & F3))).
  exists e1, e2, e3. split; [|now repeat split].
  unfold modes_pass. rewrite T3, T2, T1. now rewrite <- !app_assoc.
Qed.

(** ** Runs without signals *)

Lemma flag_ret {A} (a : A) : respects same_flag (ret a).
Proof. intros w. reflexivity. Qed.

Lemma flag_raise {A} (e : exn) : respects same_flag (@raise A e).
Proof. intros w. reflexivity. Qed.

Lemma flag_diverge {A} : respects same_flag (@diverge A).
Proof. intros w. reflexivity. Qed.

Lemma flag_now : respects same_flag now.
Proof. intros w. reflexivity. Qed.

Lemma flag_bind {A B} (m : M A) (f : A -> M B) :
  respects same_flag m -> (forall a, respects same_flag (f a)) ->
  respects same_flag (bind m f).
Proof.
  intros Hm Hf w. unfold bind. specialize (Hm w).
  destruct (m w) as [[a|e|] w1]; cbn [snd] in *; try exact Hm.
  unfold same_flag in *. now rewrite (Hf a w1).
Qed.

Lemma flag_try {A} (m : M A) sel (h : exn -> M A) :
  respects same_flag m -> (forall e, respects same_flag (h e)) ->
  respects same_flag (try_except m sel h).
Proof.
  intros Hm Hh w. unfold try_except. specialize (Hm w).
  destruct (m w) as [[a|e|] w1]; cbn [snd] in *; try exact Hm.
  destruct (sel e); [|exact Hm].
  unfold same_flag in *. now rewrite (Hh e w1).
Qed.

Lemma flag_of {A} (m : M A) w r w' :
  respects same_flag m -> m w = (r, w') -> stop_event w' = stop_event w.
Proof. intros H E. specialize (H w). now rewrite E in H. Qed.

Section Quiet.

Variable env : Env.
Hypothesis Hquiet : forall n, signal_at env n = false.

Lemma flag_call {A} ev (answer : nat -> World -> exn + A) ms :
  respects same_flag (call env ev answer ms).
Proof.
  intros w. rewrite (call_quiet env ev answer ms w (Hquiet _)).
  now destruct (answer (ops w) (next_op w)).
Qed.

Lemma flag_sleep ms : respects same_flag (sleep env ms).
Proof.
  unfold sleep.
  destruct ((ms <? - sleep_limit) || (sleep_limit <? ms)); [apply flag_raise|].
  destruct (ms <? 0); [apply flag_raise | apply flag_call].
Qed.

Ltac walk_flag :=
  repeat (cbv beta zeta; first
    [ solve [auto with walk]
    | lazymatch goal with
      | |- respects _ (ret _) => apply flag_ret
      | |- respects _ (raise _) => apply flag_raise
      | |- respects _ now => apply flag_now
      | |- respects _ diverge => apply flag_diverge
      | |- respects _ (call _ _ _ _) => apply flag_call
      | |- respects _ (sleep _ _) => apply flag_sleep
      | |- respects _ (bind _ _) => apply flag_bind; [|intros ?]
      | |- respects _ (try_except _ _ _) => apply flag_try; [|intros ?]
      | |- respects _ (if ?b then _ else _) => destruct b
      | |- respects _ (match ?x with _ => _ end) => destruct x
      end
    | progress autounfold with py_defs ]).

Variable args : Args.

Lemma flag_restart_with cmds : respects same_flag (restart_with env cmds).
Proof. induction cmds; cbn [restart_with]; walk_flag. Qed.
Hint Resolve flag_restart_with : walk.

Lemma flag_wait_loop fuel start : respects same_flag (wait_loop env args fuel start).
Proof. induction fuel; cbn [wait_loop]; walk_flag. Qed.
Hint Resolve flag_wait_loop : walk.

Lemma flag_for_proxies proxies : respects same_flag (for_proxies env args proxies).
Proof. induction proxies; cbn [for_proxies]; walk_flag. Qed.

Lemma flag_for_ovpns ovpns : respects same_flag (for_ovpns env args ovpns).
Proof. induction ovpns; cbn [for_ovpns]; walk_flag. Qed.
Hint Resolve flag_for_proxies flag_for_ovpns : walk.

Lemma flag_modes_pass proxies ovpns :
  respects same_flag (modes_pass env args proxies ovpns).
Proof. walk_flag. Qed.

Lemma flag_while_loop fuel proxies ovpns : forall i,
  respects same_flag (while_loop env args fuel proxies ovpns i).
Proof. induction fuel; intros i; cbn [while_loop]; walk_flag. Qed.
Hint Resolve flag_while_loop : walk.

Lemma flag_run_loop fuel : respects same_flag (run_loop env args fuel).
Proof. walk_flag. Qed.

Lemma flag_log msg : respects same_flag (log env msg).
Proof. walk_flag. Qed.

Lemma flag_prepare_proxies : respects same_flag (prepare_proxies env args).
Proof. walk_flag. Qed.

Lemma flag_wait_or_stop : respects same_flag (_wait_or_stop env args).
Proof. walk_flag. Qed.

End Quiet.

(** X22.  Only a signal sets the stop flag: in a run of [run_loop] during
    which no signal arrives the flag is at the end what it was at the start,
    however the run ends. *)
Theorem only_a_signal_sets_the_flag env args fuel w :
  (forall n, signal_at env n = false) ->
  stop_event (snd (run_loop env args fuel w)) = stop_event w.
Proof. intros Hq. exact (flag_run_loop env Hq args fuel w). Qed.

Lemma only_a_signal_sets_the_flag_witness :
  stop_event (snd (run_loop (env_fine [] []) args_tor_twice 3 world0))
  = stop_event world0.
Proof.
  apply (only_a_signal_sets_the_flag (env_fine [] []) args_tor_twice 3 world0).
  intros n. reflexivity.
Defined.

(** ** Proxy mode, from the file to the probes *)

Section ProxyRun.

Variable env : Env.
Variable args : Args.
Hypothesis Hlog : forall n, log_error env n = None.
Hypothesis Hquiet : forall n, signal_at env n = false.
Hypothesis Hmode : mode args = mode_proxy.
Hypothesis Hwait : accepts env (wait_after_change args * 1000).

Lemma probed_nothing w : probed w w [].
Proof. exists []. now rewrite app_nil_r. Qed.

Lemma modes_pass_probes_all proxies w :
  stop_event w = false ->
  exists w',
    modes_pass env args proxies [] w = (Ret tt, w')
    /\ probed w w' (map probe_through proxies)
    /\ stop_event w' = false.
Proof.
  intros Hs.
  assert (Hf : stop_event (snd (modes_pass env args proxies [] w)) = false).
  { rewrite <- Hs. exact (flag_modes_pass env Hquiet args proxies [] w). }
  destruct proxies as [|p rest].
  - rewrite (modes_pass_no_proxies env args [] w Hmode) in Hf |- *.
    match goal with |- context [bind (log env ?m) ?k w] =>
      destruct (step_log env Hlog m k w eq_refl) as (w1 & D1 & O1 & E1)
    end.
    rewrite E1 in Hf |- *.
    destruct (wait_or_stop_returns env args Hlog w1) as (w2 & E2 & P2).
    rewrite E2 in Hf |- *. exists w2. split; [reflexivity|]. split; [|exact Hf].
    apply did_probed in D1. exact (probed_then _ _ _ [] [] D1 P2).
  - destruct (for_proxies_in_order env args Hlog Hwait (p :: rest) w)
      as (w' & k & E & P & S').
    assert (Em : modes_pass env args (p :: rest) [] w = (Ret tt, w')).
    { unfold modes_pass. rewrite Hmode.
      cbn [in_tor_all in_proxy_all in_vpn_all is_proxy is_vpn nonempty andb negb].
      rewrite (bind_Ret (ret tt) _ w tt w eq_refl).
      now rewrite (bind_Ret _ _ _ _ _ E). }
    rewrite Em in Hf |- *. cbn [snd] in Hf.
    exists w'. split; [reflexivity|]. split; [|exact Hf].
    rewrite (S' Hf), firstn_all in P. exact P.
Qed.

End ProxyRun.

(** X23.  Proxy mode from the file to the probes: with [--mode proxy
    --run-once], a readable proxy file and no VPN directory, when no call of
    [log] raises, no signal arrives and [time.sleep] accepts the settle time
    (it is not negative, not beyond 9223372036 s, and the system does not
    refuse the deadline), [run_loop] makes one pass and returns, and the
    probes it sent through a proxy are one for each line of the file that is
    neither blank nor a comment, stripped, in the order of the file. *)
Theorem proxy_run_probes_every_endpoint_of_the_file env args fuel w path text :
  (forall n, log_error env n = None) ->
  (forall n, signal_at env n = false) ->
  mode args = mode_proxy ->
  run_once args = true ->
  accepts env (wait_after_change args * 1000) ->
  proxy_list args = Some path -> Py.truthy path = true ->
  given (ovpn_dir args) = false ->
  open_read env (ops w) path = inr text ->
  stop_event w = false ->
  exists w',
    run_loop env args (S fuel) w = (Ret 1, w')
    /\ probed w w'
         (map probe_through
              (filter is_endpoint (map Py.strip (Py.file_lines text)))).
Proof.
  intros Hlog Hquiet Hmode Honce Hwait Hpl Hpath Hovpn Hopen Hs.
  set (ps := filter is_endpoint (map Py.strip (Py.file_lines text))).
  (* the lists *)
  destruct (call_performs env Hlog (EOpenRead path) (fun n => open_read env n path)
              0 w eq_refl (Z.le_refl 0)) as (w1 & E1 & D1 & _).
  rewrite Hopen in E1.
  assert (S1 : stop_event w1 = false).
  { rewrite <- Hs. exact (flag_of _ _ _ _ (flag_call env Hquiet _ _ _) E1). }
  destruct (log_performs env Hlog
              (Py.lit "Loaded " ++ Py.of_Z (Z.of_nat (List.length ps))
               ++ Py.lit " proxies from " ++ path) w1 eq_refl)
    as (w2 & E2 & D2 & _).
  assert (S2 : stop_event w2 = false).
  { rewrite <- S1. exact (flag_of _ _ _ _ (flag_log env Hquiet _) E2). }
  assert (Ep : prepare_proxies env args w = (Ret ps, w2)).
  { assert (El : load_proxy_list env path w = (Ret ps, w1)).
    { unfold load_proxy_list. rewrite (bind_Ret _ _ _ _ _ E1).
      unfold ret. now rewrite collect_proxies_filter. }
    unfold prepare_proxies. rewrite Hpl. cbn [given opt_text]. rewrite Hpath.
    rewrite (bind_Ret _ _ _ _ _ El). cbv beta.
    now rewrite (bind_Ret _ _ _ _ _ E2). }
  assert (Eo : prepare_ovpns env args w2 = (Ret [], w2)).
  { unfold prepare_ovpns. now rewrite Hovpn. }
  (* the pass *)
  pose proof (call_quiet env (fun w => EIsSet (stop_event w))
                (fun _ w => inr (stop_event w)) 0 w2 (Hquiet _)) as E3.
  cbn [stop_event next_op] in E3. rewrite S2 in E3. fold (is_set env) in E3.
  set (w3 := advance 0 _) in E3.
  assert (P3 : probed w2 w3 []).
  { exists [(clock w2, EIsSet false)]. now split. }
  destruct (log_performs env Hlog (Py.lit "--- Iteration " ++ Py.of_Z (0 + 1) ++ Py.lit " ---")
              w3 eq_refl) as (w4 & E4 & D4 & _).
  assert (S4 : stop_event w4 = false).
  { rewrite (flag_of _ _ _ _ (flag_log env Hquiet _) E4). exact S2. }
  destruct (modes_pass_probes_all env args Hlog Hquiet Hmode Hwait ps w4 S4)
    as (w5 & E5 & P5 & _).
  destruct (log_performs env Hlog (Py.lit "run_once specified; exiting loop.") w5 eq_refl)
    as (w6 & E6 & D6 & _).
  assert (Ew : while_loop env args (S fuel) ps [] 0 w2 = (Ret 1, w6)).
  { cbn [while_loop]. rewrite (bind_Ret _ _ _ _ _ E3). cbv zeta.
    rewrite (bind_Ret _ _ _ _ _ E4), (bind_Ret _ _ _ _ _ E5), Honce.
    now rewrite (bind_Ret _ _ _ _ _ E6). }
  destruct (log_performs env Hlog (Py.lit "AutoChanger finished.") w6 eq_refl)
    as (w7 & E7 & D7 & _).
  exists w7. split.
  - unfold run_loop.
    rewrite (bind_Ret _ _ _ _ _ Ep), (bind_Ret _ _ _ _ _ Eo), (bind_Ret _ _ _ _ _ Ew).
    now rewrite (bind_Ret _ _ _ _ _ E7).
  - apply did_probed in D1, D2, D4, D6, D7.
    cbn [filter proxied] in D1, D2, D4, D6, D7.
    pose proof (probed_then _ _ _ _ _ D1
                  (probed_then _ _ _ _ _ D2
                     (probed_then _ _ _ _ _ P3
                        (probed_then _ _ _ _ _ D4
                           (probed_then _ _ _ _ _ P5
                              (probed_then _ _ _ _ _ D6 D7)))))) as P.
    cbn [app] in P. rewrite app_nil_r in P. exact P.
Qed.

Lemma proxy_run_probes_every_endpoint_of_the_file_witness :
  let args := mk_args mode_proxy 0 0 (Some proxies_txt) None None 0 true false
                      log_path in
  exists w',
    run_loop (env_fine twice_file []) args 1 world0 = (Ret 1, w')
    /\ probed world0 w'
         (map probe_through
              (filter is_endpoint (map Py.strip (Py.file_lines twice_file)))).
Proof.
  intros args.
  apply (proxy_run_probes_every_endpoint_of_the_file (env_fine twice_file []) args
           0 world0 proxies_txt twice_file);
    first [reflexivity | intros n; reflexivity].
Defined.

(** ** VPN mode, from the directory to the commands *)

Section VpnRun.

Variable env : Env.
Variable args : Args.
Hypothesis Hlog : forall n, log_error env n = None.
Hypothesis Hquiet : forall n, signal_at env n = false.
Hypothesis Hmode : mode args = mode_vpn.
Hypothesis Hsettle : accepts env (Z.max 5 (wait_after_change args) * 1000).

Lemma launched_nothing w : saw is_popen w w [].
Proof. exists []. now rewrite app_nil_r. Qed.

Lemma modes_pass_launches_all ovpns w :
  stop_event w = false ->
  exists w',
    modes_pass env args [] ovpns w = (Ret tt, w')
    /\ saw is_popen w w' (map (fun cfg => EPopen (openvpn_argv cfg)) ovpns).
Proof.
  intros Hs.
  assert (Hf : stop_event (snd (modes_pass env args [] ovpns w)) = false).
  { rewrite <- Hs. exact (flag_modes_pass env Hquiet args [] ovpns w). }
  destruct ovpns as [|cfg rest].
  - destruct (step_log env Hlog (Py.lit "No .ovpn files provided; sleeping.")
                (fun _ => _wait_or_stop env args) w eq_refl) as (w1 & D1 & O1 & E1).
    destruct (wait_or_stop_launches_nothing env args Hlog w1) as (w2 & E2 & P2).
    exists w2. split.
    + unfold modes_pass. rewrite Hmode.
      cbn [in_tor_all in_proxy_all in_vpn_all is_proxy is_vpn nonempty andb negb].
      rewrite !(bind_Ret (ret tt) _ w tt w eq_refl). rewrite E1. exact E2.
    + apply (did_saw is_popen popen_not_noise) in D1.
      exact (saw_then is_popen _ _ _ [] [] D1 P2).
  - destruct (for_ovpns_in_order env args Hlog Hsettle (cfg :: rest) w)
      as (w' & k & E & P & S').
    assert (Em : modes_pass env args [] (cfg :: rest) w = (Ret tt, w')).
    { unfold modes_pass. rewrite Hmode.
      cbn [in_tor_all in_proxy_all in_vpn_all is_proxy is_vpn nonempty andb negb].
      rewrite !(bind_Ret (ret tt) _ w tt w eq_refl).
      now rewrite (bind_Ret _ _ _ _ _ E). }
    rewrite Em in Hf |- *. cbn [snd] in Hf.
    exists w'. split; [reflexivity|].
    rewrite (S' Hf), firstn_all in P. exact P.
Qed.

End VpnRun.

(** X24.  VPN mode from the directory to the commands: with [--mode vpn
    --run-once], a readable directory and no proxy file, when no call of
    [log] raises (every line, with the names of the directory in it, can be
    written), no signal arrives and [time.sleep] accepts the settle time of
    [max(5, wait_after_change)] seconds, [run_loop] makes one pass and
    returns, and the OpenVPN commands it ran are [sudo openvpn --config
    <dir>/<name>], one for each listed name whose lowered form ends in
    [.ovpn], in ascending order of the names, whether or not each child
    started. *)
Theorem vpn_run_starts_every_profile_of_the_directory env args fuel w dir names :
  (forall n, log_error env n = None) ->
  (forall n, signal_at env n = false) ->
  mode args = mode_vpn ->
  run_once args = true ->
  accepts env (Z.max 5 (wait_after_change args) * 1000) ->
  given (proxy_list args) = false ->
  ovpn_dir args = Some dir -> Py.truthy dir = true ->
  listdir env (ops w) dir = inr names ->
  stop_event w = false ->
  exists w',
    run_loop env args (S fuel) w = (Ret 1, w')
    /\ saw is_popen w w'
         (map (fun name => EPopen [Py.lit "sudo"; Py.lit "openvpn"; Py.lit "--config";
                                   Py.path_join dir name])
              (filter is_ovpn (Py.sorted names))).
Proof.
  intros Hlog Hquiet Hmode Honce Hsettle Hpl Hdir Htruthy Hlist Hs.
  set (ovpns := map (Py.path_join dir) (filter is_ovpn (Py.sorted names))).
  assert (Ep : prepare_proxies env args w = (Ret [], w)).
  { unfold prepare_proxies. now rewrite Hpl. }
  destruct (call_performs env Hlog (EListdir dir) (fun n => listdir env n dir)
              0 w eq_refl (Z.le_refl 0)) as (w1 & E1 & D1 & _).
  rewrite Hlist in E1.
  assert (S1 : stop_event w1 = false).
  { rewrite <- Hs. exact (flag_of _ _ _ _ (flag_call env Hquiet _ _ _) E1). }
  destruct (log_performs env Hlog
              (Py.lit "Found " ++ Py.of_Z (Z.of_nat (List.length ovpns))
               ++ Py.lit " .ovpn files in " ++ dir) w1 eq_refl)
    as (w2 & E2 & D2 & _).
  assert (S2 : stop_event w2 = false).
  { rewrite <- S1. exact (flag_of _ _ _ _ (flag_log env Hquiet _) E2). }
  assert (Eo : prepare_ovpns env args w = (Ret ovpns, w2)).
  { assert (El : find_ovpn_files env dir w = (Ret ovpns, w1)).
    { unfold find_ovpn_files. now rewrite (bind_Ret _ _ _ _ _ E1). }
    unfold prepare_ovpns. rewrite Hdir. cbn [given opt_text]. rewrite Htruthy.
    rewrite (bind_Ret _ _ _ _ _ El). cbv beta.
    now rewrite (bind_Ret _ _ _ _ _ E2). }
  pose proof (call_quiet env (fun w => EIsSet (stop_event w))
                (fun _ w => inr (stop_event w)) 0 w2 (Hquiet _)) as E3.
  cbn [stop_event next_op] in E3. rewrite S2 in E3. fold (is_set env) in E3.
  set (w3 := advance 0 _) in E3.
  assert (P3 : saw is_popen w2 w3 []).
  { exists [(clock w2, EIsSet false)]. now split. }
  destruct (log_performs env Hlog (Py.lit "--- Iteration " ++ Py.of_Z (0 + 1) ++ Py.lit " ---")
              w3 eq_refl) as (w4 & E4 & D4 & _).
  assert (S4 : stop_event w4 = false).
  { rewrite (flag_of _ _ _ _ (flag_log env Hquiet _) E4). exact S2. }
  destruct (modes_pass_launches_all env args Hlog Hquiet Hmode Hsettle ovpns w4 S4)
    as (w5 & E5 & P5).
  destruct (log_performs env Hlog (Py.lit "run_once specified; exiting loop.") w5 eq_refl)
    as (w6 & E6 & D6 & _).
  assert (Ew : while_loop env args (S fuel) [] ovpns 0 w2 = (Ret 1, w6)).
  { cbn [while_loop]. rewrite (bind_Ret _ _ _ _ _ E3). cbv zeta.
    rewrite (bind_Ret _ _ _ _ _ E4), (bind_Ret _ _ _ _ _ E5), Honce.
    now rewrite (bind_Ret _ _ _ _ _ E6). }
  destruct (log_performs env Hlog (Py.lit "AutoChanger finished.") w6 eq_refl)
    as (w7 & E7 & D7 & _).
  exists w7. split.
  - unfold run_loop.
    rewrite (bind_Ret _ _ _ _ _ Ep), (bind_Ret _ _ _ _ _ Eo), (bind_Ret _ _ _ _ _ Ew).
    now rewrite (bind_Ret _ _ _ _ _ E7).
  - apply (did_saw is_popen popen_not_noise) in D1, D2, D4, D6, D7.
    cbn [filter is_popen] in D1, D2, D4, D6, D7.
    pose proof (saw_then is_popen _ _ _ _ _ D1
                  (saw_then is_popen _ _ _ _ _ D2
                     (saw_then is_popen _ _ _ _ _ P3
                        (saw_then is_popen _ _ _ _ _ D4
                           (saw_then is_popen _ _ _ _ _ P5
                              (saw_then is_popen _ _ _ _ _ D6 D7)))))) as P.
    cbn [app] in P. rewrite app_nil_r in P. unfold ovpns in P.
    rewrite map_map in P. exact P.
Qed.

Lemma vpn_run_starts_every_profile_of_the_directory_witness :
  let names := [Py.lit "b.ovpn"; Py.lit "notes.txt"; Py.lit "A.OVPN"] in
  exists w',
    run_loop (env_fine [] names) args_vpn_once 1 world0 = (Ret 1, w')
    /\ saw is_popen world0 w'
         (map (fun name => EPopen [Py.lit "sudo"; Py.lit "openvpn"; Py.lit "--config";
                                   Py.path_join (Py.lit "/etc/openvpn") name])
              (filter is_ovpn (Py.sorted names))).
Proof.
  intros names.
  apply (vpn_run_starts_every_profile_of_the_directory (env_fine [] names)
           args_vpn_once 0 world0 (Py.lit "/etc/openvpn") names);
    first [reflexivity | intros n; reflexivity].
Defined.

(** * The VPN cycle and its teardown *)

(** A sleep that [time.sleep] does not take, when no call of [log] raises:
    the exception is raised, before the call for a length out of range and
    in the call for a deadline the system refuses. *)
Lemma sleep_faulty env ms w e :
  (forall n, log_error env n = None) ->
  sleep_fault env (ops w) ms = Some e ->
  exists w' l,
    sleep env ms w = (Raise e, w') /\ did w w' l /\ (l = [] \/ l = [ESleep ms]).
Proof.
  intros Hlog. unfold sleep_fault, sleep.
  assert (D0 : did w w []) by (exists []; split; [now rewrite app_nil_r | reflexivity]).
  destruct ((ms <? - sleep_limit) || (sleep_limit <? ms)).
  { intros H. injection H as <-. exists w, []. split; [reflexivity|]. split; [exact D0 | now left]. }
  destruct (Z.ltb_spec ms 0) as [Hneg|Hms].
  { intros H. injection H as <-. exists w, []. split; [reflexivity|]. split; [exact D0 | now left]. }
  intros H.
  destruct (call_performs env Hlog (ESleep ms)
              (fun n => unit_answer (sleep_refused env n ms)) ms w eq_refl Hms)
    as (w' & E & D & _).
  rewrite H in E. exists w', [ESleep ms]. split; [exact E|]. split; [exact D | now right].
Qed.

Section Handled.

Variable env : Env.
Hypothesis Hhandler : forall n, signal_at env n = true -> log_error env n = None.

(** The signal handler, if it runs in call [n], returns. *)
Lemma deliver_handled n w :
  exists w1, deliver env n w = (Ret tt, w1) /\ emits is_noise w w1 /\ ops w1 = ops w.
Proof.
  unfold deliver. destruct (installed w && signal_at env n) eqn:E.
  - apply andb_true_iff in E as [_ Hs]. unfold _signal_handler.
    rewrite (Hhandler n Hs). eexists. split; [reflexivity|]. split; [|reflexivity].
    eexists. split; [simpl; rewrite <- app_assoc; reflexivity|].
    repeat constructor.
  - exists w. split; [reflexivity|]. split; [|reflexivity].
    exists []. split; [now rewrite app_nil_r | constructor].
Qed.

(** One external call followed by the rest of the computation. *)
Lemma handled_step {A B} ev (answer : nat -> exn + A) ms (k : A -> M B) w :
  is_noise ev = false ->
  exists w1,
    did w w1 [ev] /\ ops w1 = S (ops w)
    /\ bind (call env (fun _ => ev) (fun n _ => answer n) ms) k w
       = match answer (ops w) with
         | inl e => (Raise e, w1)
         | inr a => k a w1
         end.
Proof.
  intros Hn. unfold bind, call.
  destruct (deliver_handled (ops w) (next_op w)) as (w1 & E & Hnoise & O).
  rewrite E.
  assert (D : did w (record ev w1) [ev]).
  { apply (did_then w w1 _ [] [ev]); [|now apply did_record].
    apply did_noise. destruct Hnoise as (evs & T & F). exists evs. now split. }
  destruct (answer (ops w)); eexists; (split; [|split; [|reflexivity]]);
    first [ exact O
          | eapply did_same_trace; [|exact D]; reflexivity ].
Qed.

Lemma handled_log {B} msg (k : unit -> M B) w :
  is_noise (ELog msg) = false ->
  exists w1,
    did w w1 [ELog msg] /\ ops w1 = S (ops w)
    /\ bind (log env msg) k w
       = match log_error env (ops w) with
         | Some e => (Raise e, w1)
         | None => k tt w1
         end.
Proof.
  intros Hn.
  destruct (handled_step (ELog msg) (fun n => unit_answer (log_error env n)) 0 k w Hn)
    as (w1 & D & O & E).
  exists w1. split; [exact D|]. split; [exact O|].
  unfold log. rewrite E. now destruct (log_error env (ops w)).
Qed.

Lemma handled_sleep {B} ms (k : unit -> M B) w :
  sleep_fault env (ops w) ms = None ->
  exists w1,
    did w w1 [ESleep ms] /\ ops w1 = S (ops w)
    /\ bind (sleep env ms) k w = k tt w1.
Proof.
  intros Hok.
  destruct (handled_step (ESleep ms) (fun n => unit_answer (sleep_refused env n ms))
              ms k w eq_refl) as (w1 & D & O & E).
  exists w1. split; [exact D|]. split; [exact O|].
  unfold bind in *. rewrite (sleep_call env ms w Hok), E.
  apply sleep_accepted in Hok as (_ & _ & ->). reflexivity.
Qed.

Lemma handled_check_ip {B} proxies timeout (k : Py.str -> M B) w :
  exists s w1,
    did w w1 [EHttpGet check_url proxies timeout] /\ ops w1 = S (ops w)
    /\ bind (check_ip env proxies timeout) k w = k s w1.
Proof.
  destruct (handled_step (EHttpGet check_url proxies timeout) (http_get env) 0
              (fun text => ret (Py.strip text)) w eq_refl) as (w1 & D & O & E).
  unfold bind, check_ip, try_except in *.
  destruct (http_get env (ops w)) as [e|text];
    do 2 eexists; (split; [exact D|]); (split; [exact O|]);
    unfold bind; rewrite E; reflexivity.
Qed.

(** [start_openvpn] when the child starts and is alive at the poll: the
    last log line of the [try] block decides. *)
Lemma start_openvpn_alive config_path w :
  log_error env (ops w) = None ->
  popen env (1 + ops w)%nat = None ->
  poll env (3 + ops w)%nat = None ->
  exists w1,
    did w w1 [ ELog (Py.lit "Starting OpenVPN config: " ++ config_path);
               EPopen (openvpn_argv config_path);
               ESleep 2000;
               EPoll (1 + ops w)%nat;
               ELog (Py.lit "OpenVPN process started.") ]
    /\ ops w1 = (5 + ops w)%nat
    /\ start_openvpn env config_path w
       = match log_error env (4 + ops w)%nat with
         | None => (Ret (Some (1 + ops w)%nat), w1)
         | Some e => bind (log env (start_failure e)) (fun _ => ret None) w1
         end.
Proof.
  intros Hl Hpopen Hpoll. cbn [Nat.add] in *.
  pose proof (eq_refl (start_openvpn env config_path w)) as E.
  unfold start_openvpn at 2 in E.
  match type of E with _ = bind (log env ?m) ?k w =>
    destruct (handled_log m k w eq_refl) as (w1 & D1 & O1 & E1)
  end.
  rewrite E1, Hl in E. clear E1.
  match type of E with _ = try_except (bind ?c ?k) _ _ w1 =>
    destruct (handled_step (EPopen (openvpn_argv config_path))
                (fun n => match popen env n with Some e => inl e | None => inr n end)
                0 k w1 eq_refl) as (w2 & D2 & O2 & E2)
  end.
  rewrite O1, Hpopen in E2. cbv beta in E2.
  match type of E2 with _ = bind (sleep env 2000) ?k w2 =>
    destruct (handled_sleep 2000 k w2 (short_sleep env _ 2000 ltac:(lia)))
      as (w3 & D3 & O3 & E3)
  end.
  rewrite E3 in E2. clear E3.
  match type of E2 with _ = bind ?c ?k w3 =>
    destruct (handled_step (EPoll (S (ops w))) (fun n => inr (poll env n)) 0 k w3
                eq_refl) as (w4 & D4 & O4 & E4)
  end.
  rewrite E4 in E2. clear E4. rewrite O3, O2, O1, Hpoll in E2.
  match type of E2 with _ = bind (log env ?m) ?k w4 =>
    destruct (handled_log m k w4 eq_refl) as (w5 & D5 & O5 & E5)
  end.
  rewrite E5 in E2. clear E5. rewrite O4, O3, O2, O1 in E2.
  exists w5. split; [|split].
  - apply (did_then _ _ _ [_] [_; _; _; _] D1).
    apply (did_then _ _ _ [_] [_; _; _] D2).
    apply (did_then _ _ _ [_] [_; _] D3).
    apply (did_then _ _ _ [_] [_] D4 D5).
  - rewrite O5, O4, O3, O2, O1. reflexivity.
  - rewrite E. destruct (log_error env (S (S (S (S (ops w)))))) as [e|].
    + etransitivity; [apply try_except_Raise; exact E2|].
      unfold start_failure. destruct (is_FileNotFoundError e); reflexivity.
    + apply try_except_Ret. exact E2.
Qed.

Variable args : Args.

(** A VPN cycle up to the start of a child that is alive at the poll; [K]
    is the rest of [run_once_vpn]. *)
Lemma vpn_cycle_prefix {B} (K : option proc -> M B) ovpn_path w :
  popen env (3 + ops w)%nat = None ->
  poll env (5 + ops w)%nat = None ->
  log_error env (1 + ops w)%nat = None ->
  log_error env (2 + ops w)%nat = None ->
  exists before w1,
    did w w1 (vpn_started (ops w) ovpn_path before)
    /\ ops w1 = (7 + ops w)%nat
    /\ (before <- check_ip env None 10 ;;
        log env (Py.lit "IP before (direct): " ++ before) ;;
        p <- start_openvpn env ovpn_path ;;
        K p) w
       = match log_error env (6 + ops w)%nat with
         | None => K (Some (3 + ops w)%nat) w1
         | Some e => (log env (start_failure e) ;; K None) w1
         end.
Proof.
  intros Hpopen Hpoll H1 H2. cbn [Nat.add] in *.
  match goal with |- context [bind (check_ip env None 10) ?k w] =>
    destruct (handled_check_ip None 10 k w) as (before & w1 & D1 & O1 & E1)
  end.
  exists before. rewrite E1. clear E1.
  match goal with |- context [bind (log env ?m) ?k w1] =>
    destruct (handled_log m k w1 eq_refl) as (w2 & D2 & O2 & E2)
  end.
  rewrite E2, O1, H1. clear E2.
  destruct (start_openvpn_alive ovpn_path w2) as (w3 & D3 & O3 & E3);
    [now rewrite O2, O1 | now rewrite O2, O1 | now rewrite O2, O1 |].
  rewrite O2, O1 in D3, O3, E3. cbn [Nat.add] in D3, O3, E3.
  exists w3. split; [|split].
  - apply (did_then _ _ _ [_] [_; _; _; _; _; _] D1).
    apply (did_then _ _ _ [_] [_; _; _; _; _] D2 D3).
  - exact O3.
  - unfold bind at 1. rewrite E3.
    destruct (log_error env (S (S (S (S (S (S (ops w)))))))); [|reflexivity].
    unfold bind. now destruct (log env (start_failure e) w3) as [[[]|e'|] w4].
Qed.

(** The cycle completes: start, settle, probe, teardown. *)
Lemma vpn_cycle_completes ovpn_path w :
  (forall n, log_error env n = None) ->
  popen env (3 + ops w)%nat = None ->
  poll env (5 + ops w)%nat = None ->
  sleep_fault env (8 + ops w)%nat (settle_time args * 1000) = None ->
  exists before after,
    fst (run_once_vpn env args ovpn_path w) = Ret tt
    /\ did w (snd (run_once_vpn env args ovpn_path w))
         (vpn_started (ops w) ovpn_path before
          ++ [ sleeping_line args;
               ESleep (settle_time args * 1000);
               EHttpGet check_url None 10;
               ELog (Py.lit "IP after VPN: " ++ after) ]
          ++ teardown (3 + ops w)%nat (terminate env (11 + ops w)%nat)
                      (wait env (12 + ops w)%nat)
          ++ [ESleep 2000]).
Proof.
  intros Hlog Hpopen Hpoll Hsleep.
  pose proof (eq_refl (run_once_vpn env args ovpn_path w)) as E0.
  unfold run_once_vpn at 2 in E0.
  match type of E0 with context [bind (start_openvpn env ovpn_path) ?K] =>
    destruct (vpn_cycle_prefix K ovpn_path w Hpopen Hpoll (Hlog _) (Hlog _))
      as (before & w1 & D1 & O1 & E1)
  end.
  clear E0.
  match type of E1 with _ = ?rhs =>
    assert (R : run_once_vpn env args ovpn_path w = rhs) by exact E1
  end.
  clear E1. rewrite Hlog in R. cbv beta iota zeta in R.
  match type of R with _ = bind (log env ?m) ?k w1 =>
    destruct (handled_log m k w1 eq_refl) as (w2 & D2 & O2 & E2)
  end.
  rewrite E2, Hlog in R. clear E2.
  match type of R with _ = bind (sleep env ?ms) ?k w2 =>
    destruct (handled_sleep ms k w2 ltac:(rewrite O2, O1; exact Hsleep))
      as (w3 & D3 & O3 & E3)
  end.
  rewrite E3 in R. clear E3.
  match type of R with _ = bind (check_ip env None 10) ?k w3 =>
    destruct (handled_check_ip None 10 k w3) as (after & w4 & D4 & O4 & E4)
  end.
  rewrite E4 in R. clear E4.
  match type of R with _ = bind (log env ?m) ?k w4 =>
    destruct (handled_log m k w4 eq_refl) as (w5 & D5 & O5 & E5)
  end.
  rewrite E5, Hlog in R. clear E5.
  assert (O5' : ops w5 = (11 + ops w)%nat)
    by (rewrite O5, O4, O3, O2, O1; reflexivity).
  destruct (stop_process_performs env Hlog (3 + ops w)%nat w5) as (w6 & E6 & D6 & _).
  rewrite O5' in D6. cbn [Nat.add] in D6.
  rewrite (bind_Ret _ _ _ _ _ E6) in R.
  destruct (sleep_performs env Hlog 2000 w6 (short_sleep env _ 2000 ltac:(lia)))
    as (w7 & E7 & D7 & _).
  rewrite E7 in R.
  exists before, after. rewrite R. split; [reflexivity|]. cbn [snd].
  apply (did_then _ _ _ _ _ D1).
  apply (did_then _ _ _ [_] _ D2).
  apply (did_then _ _ _ [_] _ D3).
  apply (did_then _ _ _ [_] _ D4).
  apply (did_then _ _ _ [_] _ D5).
  apply (did_then _ _ _ _ [_] D6 D7).
Qed.

(** [time.sleep] does not take the settle time: the exception leaves the
    cycle, no teardown. *)
Lemma vpn_cycle_settle_refused ovpn_path w e :
  (forall n, log_error env n = None) ->
  popen env (3 + ops w)%nat = None ->
  poll env (5 + ops w)%nat = None ->
  sleep_fault env (8 + ops w)%nat (settle_time args * 1000) = Some e ->
  exists before l,
    fst (run_once_vpn env args ovpn_path w) = Raise e
    /\ did w (snd (run_once_vpn env args ovpn_path w))
         (vpn_started (ops w) ovpn_path before ++ sleeping_line args :: l)
    /\ (l = [] \/ l = [ESleep (settle_time args * 1000)]).
Proof.
  intros Hlog Hpopen Hpoll Hsleep.
  pose proof (eq_refl (run_once_vpn env args ovpn_path w)) as E0.
  unfold run_once_vpn at 2 in E0.
  match type of E0 with context [bind (start_openvpn env ovpn_path) ?K] =>
    destruct (vpn_cycle_prefix K ovpn_path w Hpopen Hpoll (Hlog _) (Hlog _))
      as (before & w1 & D1 & O1 & E1)
  end.
  clear E0.
  match type of E1 with _ = ?rhs =>
    assert (R : run_once_vpn env args ovpn_path w = rhs) by exact E1
  end.
  clear E1. rewrite Hlog in R. cbv beta iota zeta in R.
  match type of R with _ = bind (log env ?m) ?k w1 =>
    destruct (handled_log m k w1 eq_refl) as (w2 & D2 & O2 & E2)
  end.
  rewrite E2, Hlog in R. clear E2.
  destruct (sleep_faulty env (settle_time args * 1000) w2 e Hlog
              ltac:(rewrite O2, O1; exact Hsleep)) as (w3 & l & E3 & D3 & Hl).
  rewrite (bind_Raise _ _ _ _ _ E3) in R.
  exists before, l. rewrite R. split; [reflexivity|]. split; [|exact Hl]. cbn [snd].
  apply (did_then _ _ _ _ _ D1).
  apply (did_then _ _ _ [_] _ D2 D3).
Qed.

(** The "Sleeping ..." line cannot be logged: the exception leaves the
    cycle, no teardown. *)
Lemma vpn_cycle_sleeping_line_raises ovpn_path w e :
  popen env (3 + ops w)%nat = None ->
  poll env (5 + ops w)%nat = None ->
  log_error env (1 + ops w)%nat = None ->
  log_error env (2 + ops w)%nat = None ->
  log_error env (6 + ops w)%nat = None ->
  log_error env (7 + ops w)%nat = Some e ->
  exists before,
    fst (run_once_vpn env args ovpn_path w) = Raise e
    /\ did w (snd (run_once_vpn env args ovpn_path w))
         (vpn_started (ops w) ovpn_path before ++ [sleeping_line args]).
Proof.
  intros Hpopen Hpoll H1 H2 H6 H7.
  pose proof (eq_refl (run_once_vpn env args ovpn_path w)) as E0.
  unfold run_once_vpn at 2 in E0.
  match type of E0 with context [bind (start_openvpn env ovpn_path) ?K] =>
    destruct (vpn_cycle_prefix K ovpn_path w Hpopen Hpoll H1 H2)
      as (before & w1 & D1 & O1 & E1)
  end.
  clear E0.
  match type of E1 with _ = ?rhs =>
    assert (R : run_once_vpn env args ovpn_path w = rhs) by exact E1
  end.
  clear E1. rewrite H6 in R. cbv beta iota zeta in R.
  match type of R with _ = bind (log env ?m) ?k w1 =>
    destruct (handled_log m k w1 eq_refl) as (w2 & D2 & O2 & E2)
  end.
  rewrite E2, O1, H7 in R. clear E2.
  exists before. rewrite R. split; [reflexivity|]. cbn [snd].
  apply (did_then _ _ _ _ [_] D1 D2).
Qed.

(** The "IP after VPN" line cannot be logged: the exception leaves the
    cycle, no teardown. *)
Lemma vpn_cycle_after_line_raises ovpn_path w e :
  popen env (3 + ops w)%nat = None ->
  poll env (5 + ops w)%nat = None ->
  log_error env (1 + ops w)%nat = None ->
  log_error env (2 + ops w)%nat = None ->
  log_error env (6 + ops w)%nat = None ->
  log_error env (7 + ops w)%nat = None ->
  sleep_fault env (8 + ops w)%nat (settle_time args * 1000) = None ->
  log_error env (10 + ops w)%nat = Some e ->
  exists before after,
    fst (run_once_vpn env args ovpn_path w) = Raise e
    /\ did w (snd (run_once_vpn env args ovpn_path w))
         (vpn_started (ops w) ovpn_path before
          ++ [ sleeping_line args;
               ESleep (settle_time args * 1000);
               EHttpGet check_url None 10;
               ELog (Py.lit "IP after VPN: " ++ after) ]).
Proof.
  intros Hpopen Hpoll H1 H2 H6 H7 Hsleep H10.
  pose proof (eq_refl (run_once_vpn env args ovpn_path w)) as E0.
  unfold run_once_vpn at 2 in E0.
  match type of E0 with context [bind (start_openvpn env ovpn_path) ?K] =>
    destruct (vpn_cycle_prefix K ovpn_path w Hpopen Hpoll H1 H2)
      as (before & w1 & D1 & O1 & E1)
  end.
  clear E0.
  match type of E1 with _ = ?rhs =>
    assert (R : run_once_vpn env args ovpn_path w = rhs) by exact E1
  end.
  clear E1. rewrite H6 in R. cbv beta iota zeta in R.
  match type of R with _ = bind (log env ?m) ?k w1 =>
    destruct (handled_log m k w1 eq_refl) as (w2 & D2 & O2 & E2)
  end.
  rewrite E2, O1, H7 in R. clear E2.
  match type of R with _ = bind (sleep env ?ms) ?k w2 =>
    destruct (handled_sleep ms k w2 ltac:(rewrite O2, O1; exact Hsleep))
      as (w3 & D3 & O3 & E3)
  end.
  rewrite E3 in R. clear E3.
  match type of R with _ = bind (check_ip env None 10) ?k w3 =>
    destruct (handled_check_ip None 10 k w3) as (after & w4 & D4 & O4 & E4)
  end.
  rewrite E4 in R. clear E4.
  match type of R with _ = bind (log env ?m) ?k w4 =>
    destruct (handled_log m k w4 eq_refl) as (w5 & D5 & O5 & E5)
  end.
  assert (O4' : ops w4 = (10 + ops w)%nat) by (rewrite O4, O3, O2, O1; reflexivity).
  rewrite E5, O4', H10 in R. clear E5.
  exists before, after. rewrite R. split; [reflexivity|]. cbn [snd].
  apply (did_then _ _ _ _ _ D1).
  apply (did_then _ _ _ [_] _ D2).
  apply (did_then _ _ _ [_] _ D3).
  apply (did_then _ _ _ [_] [_] D4 D5).
Qed.

(** The "OpenVPN process started." line cannot be logged: the [except]
    clause of [start_openvpn] takes the exception, logs a failure and gives
    no child back; the cycle ends there, no teardown. *)
Lemma vpn_cycle_started_line_raises ovpn_path w e :
  popen env (3 + ops w)%nat = None ->
  poll env (5 + ops w)%nat = None ->
  log_error env (1 + ops w)%nat = None ->
  log_error env (2 + ops w)%nat = None ->
  log_error env (6 + ops w)%nat = Some e ->
  log_error env (7 + ops w)%nat = None ->
  log_error env (8 + ops w)%nat = None ->
  exists before,
    fst (run_once_vpn env args ovpn_path w) = Ret tt
    /\ did w (snd (run_once_vpn env args ovpn_path w))
         (vpn_started (ops w) ovpn_path before
          ++ [ ELog (start_failure e);
               ELog (Py.lit "OpenVPN failed to start for this config.") ]).
Proof.
  intros Hpopen Hpoll H1 H2 H6 H7 H8.
  pose proof (eq_refl (run_once_vpn env args ovpn_path w)) as E0.
  unfold run_once_vpn at 2 in E0.
  match type of E0 with context [bind (start_openvpn env ovpn_path) ?K] =>
    destruct (vpn_cycle_prefix K ovpn_path w Hpopen Hpoll H1 H2)
      as (before & w1 & D1 & O1 & E1)
  end.
  clear E0.
  match type of E1 with _ = ?rhs =>
    assert (R : run_once_vpn env args ovpn_path w = rhs) by exact E1
  end.
  clear E1. rewrite H6 in R.
  assert (Hn : is_noise (ELog (start_failure e)) = false)
    by (unfold start_failure; now destruct (is_FileNotFoundError e)).
  match type of R with _ = bind (log env ?m) ?k w1 =>
    destruct (handled_log m k w1 Hn) as (w2 & D2 & O2 & E2)
  end.
  rewrite E2, O1, H7 in R. clear E2. cbv beta iota in R.
  match type of R with _ = bind (log env ?m) ?k w2 =>
    destruct (handled_log m k w2 eq_refl) as (w3 & D3 & O3 & E3)
  end.
  assert (O2' : ops w2 = (8 + ops w)%nat) by (rewrite O2, O1; reflexivity).
  rewrite E3, O2', H8 in R. clear E3.
  exists before. rewrite R. split; [reflexivity|]. cbn [snd].
  apply (did_then _ _ _ _ _ D1).
  apply (did_then _ _ _ [_] [_] D2 D3).
Qed.

End Handled.

(** C6, as the code has it.  Take a VPN cycle whose child starts and is
    alive at the poll after the grace delay.

    - When no call of [log] raises and [time.sleep] takes the settle time,
      the cycle returns normally and has done, in this order: probe, start,
      settle sleep, probe, then the teardown of that child ([terminate],
      [wait] with a timeout of 10, and [kill] exactly when one of the two
      raised), then a sleep of two seconds.
    - When no call of [log] raises and [time.sleep] does not take the settle
      time ([OverflowError] beyond 9223372036 s, [OSError] for a deadline the
      system refuses), that exception leaves the cycle after the
      "Sleeping ..." line, and there is no teardown.
    - When no signal arrives and the "Sleeping ..." line, or the
      "IP after VPN" line, cannot be logged, the exception of [log] leaves
      the cycle, and there is no teardown.
    - When no signal arrives and the "OpenVPN process started." line cannot
      be logged, the [except] clause of [start_openvpn] takes the exception
      and logs a failure to start; the cycle then returns normally after
      "OpenVPN failed to start for this config.", and there is no
      teardown. *)
Theorem vpn_cycle_ends_with_teardown env args ovpn_path w :
  popen env (3 + ops w)%nat = None ->
  poll env (5 + ops w)%nat = None ->
  ((forall k, log_error env k = None) ->
   sleep_fault env (8 + ops w)%nat (settle_time args * 1000) = None ->
   exists before after,
     fst (run_once_vpn env args ovpn_path w) = Ret tt
     /\ did w (snd (run_once_vpn env args ovpn_path w))
          (vpn_started (ops w) ovpn_path before
           ++ [ sleeping_line args;
                ESleep (settle_time args * 1000);
                EHttpGet check_url None 10;
                ELog (Py.lit "IP after VPN: " ++ after) ]
           ++ teardown (3 + ops w)%nat (terminate env (11 + ops w)%nat)
                       (wait env (12 + ops w)%nat)
           ++ [ESleep 2000]))
  /\ ((forall k, log_error env k = None) ->
      forall e,
      sleep_fault env (8 + ops w)%nat (settle_time args * 1000) = Some e ->
      exists before l,
        fst (run_once_vpn env args ovpn_path w) = Raise e
        /\ did w (snd (run_once_vpn env args ovpn_path w))
             (vpn_started (ops w) ovpn_path before ++ sleeping_line args :: l)
        /\ (l = [] \/ l = [ESleep (settle_time args * 1000)]))
  /\ ((forall k, signal_at env k = false) ->
      log_error env (1 + ops w)%nat = None ->
      log_error env (2 + ops w)%nat = None ->
      log_error env (6 + ops w)%nat = None ->
      forall e,
      log_error env (7 + ops w)%nat = Some e ->
      exists before,
        fst (run_once_vpn env args ovpn_path w) = Raise e
        /\ did w (snd (run_once_vpn env args ovpn_path w))
             (vpn_started (ops w) ovpn_path before ++ [sleeping_line args]))
  /\ ((forall k, signal_at env k = false) ->
      log_error env (1 + ops w)%nat = None ->
      log_error env (2 + ops w)%nat = None ->
      log_error env (6 + ops w)%nat = None ->
      log_error env (7 + ops w)%nat = None ->
      sleep_fault env (8 + ops w)%nat (settle_time args * 1000) = None ->
      forall e,
      log_error env (10 + ops w)%nat = Some e ->
      exists before after,
        fst (run_once_vpn env args ovpn_path w) = Raise e
        /\ did w (snd (run_once_vpn env args ovpn_path w))
             (vpn_started (ops w) ovpn_path before
              ++ [ sleeping_line args;
                   ESleep (settle_time args * 1000);
                   EHttpGet check_url None 10;
                   ELog (Py.lit "IP after VPN: " ++ after) ]))
  /\ ((forall k, signal_at env k = false) ->
      log_error env (1 + ops w)%nat = None ->
      log_error env (2 + ops w)%nat = None ->
      forall e,
      log_error env (6 + ops w)%nat = Some e ->
      log_error env (7 + ops w)%nat = None ->
      log_error env (8 + ops w)%nat = None ->
      exists before,
        fst (run_once_vpn env args ovpn_path w) = Ret tt
        /\ did w (snd (run_once_vpn env args ovpn_path w))
             (vpn_started (ops w) ovpn_path before
              ++ [ ELog (start_failure e);
                   ELog (Py.lit "OpenVPN failed to start for this config.") ])).
Proof.
  intros Hpopen Hpoll.
  assert (Hq : (forall k, signal_at env k = false) ->
               forall n, signal_at env n = true -> log_error env n = None)
    by (intros Hquiet n Hs; rewrite Hquiet in Hs; discriminate).
  split; [|split; [|split; [|split]]].
  - intros Hlog Hsleep.
    now apply (vpn_cycle_completes env (fun n _ => Hlog n)).
  - intros Hlog e Hsleep.
    now apply (vpn_cycle_settle_refused env (fun n _ => Hlog n)).
  - intros Hquiet H1 H2 H6 e H7.
    now apply (vpn_cycle_sleeping_line_raises env (Hq Hquiet)).
  - intros Hquiet H1 H2 H6 H7 Hsleep e H10.
    now apply (vpn_cycle_after_line_raises env (Hq Hquiet)).
  - intros Hquiet H1 H2 e H6 H7 H8.
    now apply (vpn_cycle_started_line_raises env (Hq Hquiet)).
Qed.

Lemma vpn_cycle_ends_with_teardown_witness :
  let fine := env_fine [] [Py.lit "a.ovpn"] in
  let path := Py.lit "/etc/openvpn/a.ovpn" in
  (exists before after,
     fst (run_once_vpn fine args_vpn_once path world0) = Ret tt
     /\ did world0 (snd (run_once_vpn fine args_vpn_once path world0))
          (vpn_started 0 path before
           ++ [ sleeping_line args_vpn_once; ESleep 5000;
                EHttpGet check_url None 10;
                ELog (Py.lit "IP after VPN: " ++ after) ]
           ++ [ ETerminate 3%nat; EWait 3%nat 10;
                ELog (Py.lit "VPN process terminated."); ESleep 2000 ]))
  /\ (exists before l,
        fst (run_once_vpn fine args_vpn_long path world0) = Raise too_large
        /\ did world0 (snd (run_once_vpn fine args_vpn_long path world0))
             (vpn_started 0 path before ++ sleeping_line args_vpn_long :: l)
        /\ (l = [] \/ l = [ESleep (settle_time args_vpn_long * 1000)]))
  /\ (exists before,
        fst (run_once_vpn (env_log_fails_at 7) args_vpn_once path world0)
        = Raise disk_full
        /\ did world0 (snd (run_once_vpn (env_log_fails_at 7) args_vpn_once path world0))
             (vpn_started 0 path before ++ [sleeping_line args_vpn_once]))
  /\ (exists before,
        fst (run_once_vpn (env_log_fails_at 6) args_vpn_once path world0) = Ret tt
        /\ did world0 (snd (run_once_vpn (env_log_fails_at 6) args_vpn_once path world0))
             (vpn_started 0 path before
              ++ [ ELog (start_failure disk_full);
                   ELog (Py.lit "OpenVPN failed to start for this config.") ])).
Proof.
  split; [|split; [|split]].
  - exact (proj1 (vpn_cycle_ends_with_teardown (env_fine [] [Py.lit "a.ovpn"])
                    args_vpn_once (Py.lit "/etc/openvpn/a.ovpn") world0
                    eq_refl eq_refl)
             (fun _ => eq_refl) eq_refl).
  - exact (proj1 (proj2 (vpn_cycle_ends_with_teardown (env_fine [] [Py.lit "a.ovpn"])
                    args_vpn_long (Py.lit "/etc/openvpn/a.ovpn") world0
                    eq_refl eq_refl))
             (fun _ => eq_refl) too_large eq_refl).
  - exact (proj1 (proj2 (proj2 (vpn_cycle_ends_with_teardown (env_log_fails_at 7)
                    args_vpn_once (Py.lit "/etc/openvpn/a.ovpn") world0
                    eq_refl eq_refl)))
             (fun _ => eq_refl) eq_refl eq_refl eq_refl disk_full eq_refl).
  - exact (proj2 (proj2 (proj2 (proj2 (vpn_cycle_ends_with_teardown (env_log_fails_at 6)
                    args_vpn_once (Py.lit "/etc/openvpn/a.ovpn") world0
                    eq_refl eq_refl))))
             (fun _ => eq_refl) eq_refl eq_refl disk_full eq_refl eq_refl eq_refl).
Defined.

(** C6, as stated, fails: the child is started and is alive at the poll;
    then the "Sleeping ..." line cannot be logged; the exception leaves
    [run_once_vpn] and the loop, is logged as fatal by [main] and re-raised,
    and no [terminate], [wait] or [kill] was ever called. *)
Lemma vpn_child_left_running_when_logging_raises :
  let env := env_log_fails_at 14 in
  let r := main env args_vpn_once 1 world0 in
  fst r = Raise disk_full
  /\ nth_error (map snd (trace (snd r))) 10
     = Some (EPopen [Py.lit "sudo"; Py.lit "openvpn"; Py.lit "--config";
                     Py.lit "/etc/openvpn/a.ovpn"])
  /\ nth_error (map snd (trace (snd r))) 12 = Some (EPoll 10%nat)
  /\ poll env 12 = None
  /\ nth_error (map snd (trace (snd r))) 13
     = Some (ELog (Py.lit "OpenVPN process started."))
  /\ filter is_teardown (map snd (trace (snd r))) = [].
Proof. vm_compute. repeat split. Qed.

(** * The loop and the stop flag *)

Lemma bind_Diverge_inv {A B} (m : M A) (f : A -> M B) w w' :
  bind m f w = (Diverge, w') ->
  m w = (Diverge, w') \/ exists a w1, m w = (Ret a, w1) /\ f a w1 = (Diverge, w').
Proof.
  unfold bind. destruct (m w) as [[a|e|] w1].
  - intros H. right. eauto.
  - discriminate.
  - intros H. left. now injection H as <-.
Qed.

Lemma bind_Diverge_total {A B} (m : M A) (f : A -> M B) w w' :
  total m -> bind m f w = (Diverge, w') ->
  exists a w1, m w = (Ret a, w1) /\ f a w1 = (Diverge, w').
Proof.
  intros Tm H. apply bind_Diverge_inv in H as [H | H]; [|exact H].
  exfalso. apply (Tm w). now rewrite H.
Qed.

(** A poll of a flag that is set reads it as set, provided the signal
    handler, if it runs in the poll, can log its line. *)
Lemma is_set_when_set env w :
  stop_event w = true ->
  (signal_at env (ops w) = true -> log_error env (ops w) = None) ->
  exists w',
    is_set env w = (Ret true, w')
    /\ did w w' [EIsSet true]
    /\ stop_event w' = true /\ ops w' = S (ops w) /\ clock w' = clock w.
Proof.
  intros Hset Hh. unfold is_set, call, deliver. cbn [installed next_op ops].
  destruct (installed w && signal_at env (ops w)) eqn:E.
  - apply andb_true_iff in E as [_ Hs]. unfold _signal_handler.
    rewrite (Hh Hs). cbv beta iota zeta. cbn [stop_event set_stop].
    eexists. split; [reflexivity|].
    split; [|split; [reflexivity | split; [reflexivity | cbn [advance clock record set_stop next_op]; lia]]].
    exists [(clock w, ESignal);
            (clock w, ELog (Py.lit "Interrupt received, stopping..."));
            (clock w, EIsSet true)].
    split; [cbn [advance record set_stop trace next_op clock]; now rewrite <- !app_assoc
           | reflexivity].
  - cbv beta iota zeta. cbn [stop_event next_op]. rewrite Hset.
    eexists. split; [reflexivity|].
    split; [|split; [exact Hset | split; [reflexivity | cbn [advance clock record set_stop next_op]; lia]]].
    exists [(clock w, EIsSet true)]. split; reflexivity.
Qed.

Section Exit.

Variable env : Env.
Variable args : Args.
Variables proxies ovpns : list Py.str.

(** A loop that is still running after [fuel] passes has made them all, and
    goes on from there. *)
Lemma while_loop_more_fuel fuel : forall i w w',
  while_loop env args fuel proxies ovpns i w = (Diverge, w') ->
  forall k,
    while_loop env args (fuel + k) proxies ovpns i w
    = while_loop env args k proxies ovpns (i + Z.of_nat fuel) w'.
Proof.
  induction fuel as [|fuel IH]; intros i w w' H k.
  - cbn in H. injection H as <-. now rewrite Z.add_0_r.
  - cbn [while_loop] in H.
    apply bind_Diverge_total in H as (stop & w1 & E1 & H); [|apply total_call].
    destruct stop; [discriminate|]. cbv zeta in H.
    apply bind_Diverge_total in H as ([] & w2 & E2 & H); [|apply total_call].
    apply bind_Diverge_total in H as ([] & w3 & E3 & H); [|apply total_modes_pass].
    destruct (run_once args) eqn:Er.
    { apply bind_Diverge_total in H as ([] & w4 & _ & H);
        [discriminate | apply total_call]. }
    destruct (negb (count args =? 0) && (count args <=? i + 1)) eqn:Ec.
    { apply bind_Diverge_total in H as ([] & w4 & _ & H);
        [discriminate | apply total_call]. }
    change (S fuel + k)%nat with (S (fuel + k)). cbn [while_loop].
    rewrite (bind_Ret _ _ _ _ _ E1). cbv zeta.
    rewrite (bind_Ret _ _ _ _ _ E2), (bind_Ret _ _ _ _ _ E3), Er, Ec.
    rewrite (IH _ _ _ H k). f_equal. lia.
Qed.

(** The flag is polled at the head of every pass: when it is set there, the
    loop ends at once, with the count as it is. *)
Lemma set_flag_ends_while_loop fuel i w :
  stop_event w = true ->
  (signal_at env (ops w) = true -> log_error env (ops w) = None) ->
  exists w',
    while_loop env args (S fuel) proxies ovpns i w = (Ret i, w')
    /\ did w w' [EIsSet true]
    /\ stop_event w' = true /\ ops w' = S (ops w) /\ clock w' = clock w.
Proof.
  intros Hset Hh.
  destruct (is_set_when_set env w Hset Hh) as (w' & E & D & S' & O & C).
  exists w'. cbn [while_loop]. rewrite (bind_Ret _ _ _ _ _ E). now repeat split.
Qed.

End Exit.

(** Why [run_loop] has returned. *)
Lemma run_loop_exit env args fuel w n w' :
  run_loop env args fuel w = (Ret n, w') ->
  stop_event w' = true
  \/ (run_once args = true /\ n = 1)
  \/ (run_once args = false /\ 0 < count args /\ n = count args)
  \/ (run_once args = false /\ count args < 0 /\ n = 1).
Proof.
  intros H. unfold run_loop in H.
  apply bind_Ret_inv in H as (ps & w1 & E1 & H).
  apply bind_Ret_inv in H as (os & w2 & E2 & H).
  apply bind_Ret_inv in H as (k0 & w3 & E3 & H).
  apply bind_Ret_inv in H as ([] & w4 & E4 & H).
  injection H as <- <-.
  pose proof (while_loop_exit env args ps os fuel 0 w2 k0 w3 E3)
    as (_ & _ & _ & H4).
  destruct H4 as [H4 | [H4 | (H4 & H5 & H6)]].
  - left.
    assert (F : respects frame (log env (Py.lit "AutoChanger finished.")))
      by walk frame_leaf.
    specialize (F w3). rewrite E4 in F. now apply F.
  - right. left. exact H4.
  - right. right. destruct (Z.lt_trichotomy (count args) 0) as [Hc | [Hc | Hc]].
    + right. repeat split; [assumption | assumption | lia].
    + contradiction.
    + left. repeat split; [assumption | assumption | lia].
Qed.

(** With [run_once], or with a positive count, the loop does end. *)
Lemma run_loop_total env args fuel :
  (run_once args = true /\ (1 <= fuel)%nat)
  \/ (0 < count args /\ count args <= Z.of_nat fuel) ->
  total (run_loop env args fuel).
Proof.
  intros Hf. destruct (total_prepare env args) as [T1 T2].
  unfold run_loop.
  apply total_bind; [exact T1 | intros ps'].
  apply total_bind; [exact T2 | intros os'].
  apply total_bind; [|intros k'; walk_total].
  apply while_loop_total.
  destruct Hf as [Hf | [Hc Hf]]; [now left | right]. lia.
Qed.

(** A run that is out of fuel after [fuel] passes, the flag being set by
    then, returns when given fuel for one more: the poll at the head of the
    next pass ends the loop. *)
Lemma cancelled_loop_returns env args fuel w w' :
  (forall n, log_error env n = None) ->
  run_loop env args fuel w = (Diverge, w') ->
  stop_event w' = true ->
  exists w'',
    run_loop env args (S fuel) w = (Ret (Z.of_nat fuel), w'')
    /\ did w' w'' [EIsSet true; ELog (Py.lit "AutoChanger finished.")].
Proof.
  intros Hlog H Hset. unfold run_loop in H |- *.
  destruct (total_prepare env args) as [T1 T2].
  apply bind_Diverge_total in H as (ps & w1 & E1 & H); [|exact T1].
  apply bind_Diverge_total in H as (os & w2 & E2 & H); [|exact T2].
  apply bind_Diverge_inv in H as [H | (k & w3 & _ & H)].
  2: { apply bind_Diverge_total in H as ([] & w4 & _ & H);
         [discriminate | apply total_call]. }
  rewrite (bind_Ret _ _ _ _ _ E1), (bind_Ret _ _ _ _ _ E2).
  destruct (set_flag_ends_while_loop env args ps os 0 (0 + Z.of_nat fuel) w' Hset
              (fun _ => Hlog _)) as (w3 & E3 & D3 & _).
  assert (E3' : while_loop env args (S fuel) ps os 0 w2 = (Ret (Z.of_nat fuel), w3)).
  { replace (S fuel) with (fuel + 1)%nat by lia.
    rewrite (while_loop_more_fuel env args ps os fuel 0 w2 w' H 1). exact E3. }
  rewrite (bind_Ret _ _ _ _ _ E3').
  destruct (log_performs env Hlog (Py.lit "AutoChanger finished.") w3 eq_refl)
    as (w4 & E4 & D4 & _).
  rewrite (bind_Ret _ _ _ _ _ E4). exists w4. split; [reflexivity|].
  apply (did_then _ _ _ [_] [_] D3 D4).
Qed.

(** Without signals, a run that returns has made the single pass of
    [run_once], or all the passes of the count. *)
Lemma run_loop_count env args fuel w n w' :
  (forall k, signal_at env k = false) ->
  stop_event w = false ->
  run_loop env args fuel w = (Ret n, w') ->
  (run_once args = true /\ n = 1)
  \/ (run_once args = false /\ 0 < count args /\ n = count args)
  \/ (run_once args = false /\ count args < 0 /\ n = 1).
Proof.
  intros Hquiet Hw H.
  pose proof (flag_of _ _ _ _ (flag_run_loop env Hquiet args fuel) H) as F.
  destruct (run_loop_exit env args fuel w n w' H) as [Hs | Hr]; [|exact Hr].
  congruence.
Qed.

(** Without signals, when no pass can raise, the loop returns after the
    single pass of [run_once], or when the count is reached. *)
Lemma while_loop_reaches_count env args fuel proxies ovpns i w :
  (forall n, log_error env n = None) ->
  (forall k, signal_at env k = false) ->
  in_tor_all (mode args) = false ->
  (in_proxy_all (mode args) = true ->
   accepts env (wait_after_change args * 1000)) ->
  (in_vpn_all (mode args) = true ->
   accepts env (Z.max 5 (wait_after_change args) * 1000)) ->
  stop_event w = false ->
  (run_once args = true -> (1 <= fuel)%nat ->
   exists w', while_loop env args fuel proxies ovpns i w = (Ret (i + 1), w'))
  /\ (run_once args = false -> 0 <= i < count args ->
      count args - i <= Z.of_nat fuel ->
      exists w', while_loop env args fuel proxies ovpns i w = (Ret (count args), w')).
Proof.
  intros Hlog Hquiet Hm Hw Hs Hflag.
  pose proof (while_loop_cannot_raise env Hlog args Hm Hw Hs fuel proxies ovpns i w)
    as Hsafe.
  pose proof (flag_while_loop env Hquiet args fuel proxies ovpns i w) as F.
  unfold same_flag in F. rewrite Hflag in F.
  pose proof (while_loop_exit env args proxies ovpns fuel i w) as Hexit.
  pose proof (fun Hf => while_loop_total env args proxies ovpns fuel i Hf w) as Htotal.
  destruct (while_loop env args fuel proxies ovpns i w) as [[n|e|] w'].
  - cbn [snd] in F. specialize (Hexit n w' eq_refl) as (_ & _ & _ & Hexit).
    split.
    + intros Hr _. exists w'.
      destruct Hexit as [Hexit | [[_ ->] | [Hexit _]]]; [congruence | reflexivity | congruence].
    + intros Hr Hi _. exists w'.
      destruct Hexit as [Hexit | [[Hexit _] | (_ & _ & ->)]];
        [congruence | congruence |].
      do 2 f_equal. lia.
  - exfalso. exact (Hsafe e eq_refl).
  - split.
    + intros Hr Hf. exfalso. now apply (Htotal (or_introl (conj Hr Hf))).
    + intros Hr Hi Hf. exfalso.
      assert (Hc : 0 < count args) by lia.
      assert (H1 : (1 <= fuel)%nat) by lia.
      now apply (Htotal (or_intror (conj Hc (conj Hf H1)))).
Qed.

(** C3.  The passes of [run_loop] and its exits.

    - A run that returns has made exactly [n] passes, whose headers
      "--- Iteration 1 ---", ..., "--- Iteration n ---" are in the log, one
      per pass and in this order; and it has returned because the flag is
      set, or after the single pass of [run_once] (whatever the count), or
      after the [count] passes of a positive count (a negative count ends
      the loop after the first pass).
    - Whatever the outcome of a run, the headers logged are those of passes
      1, ..., [k]; there is at most one pass with [run_once] and there are
      at most [count] passes when the count is positive.
    - With [run_once], or with a positive count, the loop does end: fuel
      for that many passes suffices.
    - The flag is polled at the head of every pass: a loop entered with the
      flag set returns at once with the count as it is, having done nothing
      but the poll (provided the signal handler, if it runs in that poll,
      can log its line).
    - Cancellation ends the unbounded loop: when no call of [log] raises, a
      run that is still going after [fuel] passes, the flag being set by
      then, returns with the count [fuel] at the poll that follows, logs
      "AutoChanger finished." and does nothing else.
    - Without signals the flag does not end the loop: a run entered with
      the flag unset that returns has made the single pass of [run_once] or
      the [count] passes; so with a count of 0 and without [run_once] it
      does not return.
    - Outside Tor mode, when no call of [log] raises, [time.sleep] accepts
      the settle times and no signal arrives, the loop entered with the flag
      unset does return: after one pass with [run_once], and otherwise with
      the count [count] once fuel for the remaining passes is there. *)
Theorem run_loop_iterations env args :
  (forall fuel w n w',
     run_loop env args fuel w = (Ret n, w') ->
     0 <= n
     /\ (exists evs,
           trace w' = trace w ++ evs
           /\ headers evs = map header (upto 1 (Z.to_nat n)))
     /\ (stop_event w' = true
         \/ (run_once args = true /\ n = 1)
         \/ (run_once args = false /\ 0 < count args /\ n = count args)
         \/ (run_once args = false /\ count args < 0 /\ n = 1)))
  /\ (forall fuel w r w',
        run_loop env args fuel w = (r, w') ->
        exists evs k,
          trace w' = trace w ++ evs
          /\ headers evs = map header (upto 1 k)
          /\ (run_once args = true -> (k <= 1)%nat)
          /\ (run_once args = false -> 0 < count args ->
              Z.of_nat k <= count args)
          /\ (forall n, r = Ret n -> n = Z.of_nat k))
  /\ (forall fuel w,
        (run_once args = true /\ (1 <= fuel)%nat)
        \/ (0 < count args /\ count args <= Z.of_nat fuel) ->
        fst (run_loop env args fuel w) <> Diverge)
  /\ (forall fuel proxies ovpns i w,
        stop_event w = true ->
        (signal_at env (ops w) = true -> log_error env (ops w) = None) ->
        exists w',
          while_loop env args (S fuel) proxies ovpns i w = (Ret i, w')
          /\ did w w' [EIsSet true])
  /\ ((forall k, log_error env k = None) ->
      forall fuel w w',
        run_loop env args fuel w = (Diverge, w') ->
        stop_event w' = true ->
        exists w'',
          run_loop env args (S fuel) w = (Ret (Z.of_nat fuel), w'')
          /\ did w' w'' [EIsSet true; ELog (Py.lit "AutoChanger finished.")])
  /\ ((forall k, signal_at env k = false) ->
      forall fuel w n w',
        stop_event w = false ->
        run_loop env args fuel w = (Ret n, w') ->
        (run_once args = true /\ n = 1)
        \/ (run_once args = false /\ 0 < count args /\ n = count args)
        \/ (run_once args = false /\ count args < 0 /\ n = 1))
  /\ ((forall k, log_error env k = None) ->
      (forall k, signal_at env k = false) ->
      in_tor_all (mode args) = false ->
      (in_proxy_all (mode args) = true ->
       accepts env (wait_after_change args * 1000)) ->
      (in_vpn_all (mode args) = true ->
       accepts env (Z.max 5 (wait_after_change args) * 1000)) ->
      forall fuel proxies ovpns i w,
        stop_event w = false ->
        (run_once args = true -> (1 <= fuel)%nat ->
         exists w',
           while_loop env args fuel proxies ovpns i w = (Ret (i + 1), w'))
        /\ (run_once args = false -> 0 <= i < count args ->
            count args - i <= Z.of_nat fuel ->
            exists w',
              while_loop env args fuel proxies ovpns i w
              = (Ret (count args), w'))).
Proof.
  split; [|split; [|split; [|split; [|split; [|split]]]]].
  - intros fuel w n w' H.
    destruct (run_loop_passes env args fuel w _ _ H) as (evs & k & T & N & _ & _ & R).
    specialize (R n eq_refl).
    split; [lia|].
    split; [exists evs; split; [exact T|]; rewrite N; f_equal; f_equal; lia|].
    exact (run_loop_exit env args fuel w n w' H).
  - intros fuel w r w'. apply run_loop_passes.
  - intros fuel w Hf. exact (run_loop_total env args fuel Hf w).
  - intros fuel proxies ovpns i w Hset Hh.
    destruct (set_flag_ends_while_loop env args proxies ovpns fuel i w Hset Hh)
      as (w' & E & D & _).
    exists w'. now split.
  - intros Hlog fuel w w'. now apply cancelled_loop_returns.
  - intros Hquiet fuel w n w'. now apply run_loop_count.
  - intros Hlog Hquiet Hm Hw Hs fuel proxies ovpns i w.
    now apply while_loop_reaches_count.
Qed.

Lemma run_loop_iterations_witness :
  (let w' := snd (run_loop (env_fine [] []) args_tor_twice 2 world0) in
   0 <= 2
   /\ (exists evs,
         trace w' = trace world0 ++ evs
         /\ headers evs = map header (upto 1 (Z.to_nat 2)))
   /\ (stop_event w' = true
       \/ (run_once args_tor_twice = true /\ 2 = 1)
       \/ (run_once args_tor_twice = false /\ 0 < count args_tor_twice
           /\ 2 = count args_tor_twice)
       \/ (run_once args_tor_twice = false /\ count args_tor_twice < 0 /\ 2 = 1)))
  /\ (exists w'',
        run_loop (env_signal_at 5) args_proxy_loop 2 (install world0) = (Ret 1, w'')
        /\ did (snd (run_loop (env_signal_at 5) args_proxy_loop 1 (install world0))) w''
             [EIsSet true; ELog (Py.lit "AutoChanger finished.")])
  /\ (exists w',
        while_loop (env_fine [] [Py.lit "a.ovpn"]) args_vpn_once 1 []
          [Py.lit "/etc/openvpn/a.ovpn"] 0 world0
        = (Ret 1, w')).
Proof.
  split; [|split].
  - apply (proj1 (run_loop_iterations (env_fine [] []) args_tor_twice) 2%nat world0 2
             (snd (run_loop (env_fine [] []) args_tor_twice 2 world0))).
    vm_compute. reflexivity.
  - apply (proj1 (proj2 (proj2 (proj2 (proj2
             (run_loop_iterations (env_signal_at 5) args_proxy_loop)))))
             (fun _ => eq_refl) 1%nat (install world0)).
    + vm_compute. reflexivity.
    + vm_compute. reflexivity.
  - apply (proj1 (proj2 (proj2 (proj2 (proj2 (proj2 (proj2
             (run_loop_iterations (env_fine [] [Py.lit "a.ovpn"]) args_vpn_once))))))
             (fun _ => eq_refl) (fun _ => eq_refl) eq_refl
             (fun H => False_ind _ (Bool.diff_false_true H)) (fun _ _ => eq_refl)
             1%nat [] [Py.lit "/etc/openvpn/a.ovpn"] 0 world0 eq_refl)
             eq_refl (le_n 1)).
Defined.

(** * Cancellation and the end of the loop *)

Section Cancelled.

Variable env : Env.
Variable args : Args.

(** Entered with the flag set, a [for] loop over a list that is not empty
    polls once and returns. *)
Lemma set_flag_ends_for_proxies proxies w :
  stop_event w = true ->
  (signal_at env (ops w) = true -> log_error env (ops w) = None) ->
  exists w',
    for_proxies env args proxies w = (Ret tt, w')
    /\ did w w' (if nonempty proxies then [EIsSet true] else []).
Proof.
  intros Hset Hh. destruct proxies as [|purl rest].
  - exists w. split; [reflexivity|]. exists []. now rewrite app_nil_r.
  - destruct (is_set_when_set env w Hset Hh) as (w' & E & D & _).
    exists w'. cbn [for_proxies]. rewrite (bind_Ret _ _ _ _ _ E). now split.
Qed.

Lemma set_flag_ends_for_ovpns ovpns w :
  stop_event w = true ->
  (signal_at env (ops w) = true -> log_error env (ops w) = None) ->
  exists w',
    for_ovpns env args ovpns w = (Ret tt, w')
    /\ did w w' (if nonempty ovpns then [EIsSet true] else []).
Proof.
  intros Hset Hh. destruct ovpns as [|cfg rest].
  - exists w. split; [reflexivity|]. exists []. now rewrite app_nil_r.
  - destruct (is_set_when_set env w Hset Hh) as (w' & E & D & _).
    exists w'. cbn [for_ovpns]. rewrite (bind_Ret _ _ _ _ _ E). now split.
Qed.

(** Entered with the flag set, the inter-cycle wait polls once, unless the
    interval is not positive, and returns without sleeping. *)
Lemma set_flag_ends_wait w :
  stop_event w = true ->
  (signal_at env (ops w) = true -> log_error env (ops w) = None) ->
  exists w',
    _wait_or_stop env args w = (Ret tt, w')
    /\ did w w' (if 0 <? interval args * 1000 then [EIsSet true] else [])
    /\ clock w' = clock w.
Proof.
  intros Hset Hh.
  assert (E0 : _wait_or_stop env args w
               = wait_loop env args (wait_fuel args) (clock w) w) by reflexivity.
  rewrite E0. unfold wait_fuel. cbn [wait_loop]. unfold bind at 1, now.
  rewrite Z.sub_diag.
  destruct (0 <? interval args * 1000).
  - destruct (is_set_when_set env w Hset Hh) as (w' & E & D & _ & _ & C).
    exists w'. rewrite (bind_Ret _ _ _ _ _ E). now repeat split.
  - exists w. split; [reflexivity|]. split; [|reflexivity].
    exists []. now rewrite app_nil_r.
Qed.

(** A loop that is still going after [fuel] passes, a poll having read the
    flag as set, ends at the poll that follows. *)
Lemma polled_loop_ends fuel proxies ovpns i w w' evs :
  (signal_at env (ops w') = true -> log_error env (ops w') = None) ->
  while_loop env args fuel proxies ovpns i w = (Diverge, w') ->
  trace w' = trace w ++ evs ->
  after_set_poll evs <> None ->
  exists w'',
    while_loop env args (S fuel) proxies ovpns i w = (Ret (i + Z.of_nat fuel), w'')
    /\ did w' w'' [EIsSet true]
    /\ clock w'' = clock w'.
Proof.
  intros Hh H T Hp.
  pose proof (calm_while_loop env args fuel proxies ovpns i w) as C.
  rewrite H in C. destruct C as (evs0 & T0 & _ & _ & Hs).
  cbn [snd] in T0, Hs. rewrite T in T0. apply app_inv_head in T0. subst evs0.
  destruct (set_flag_ends_while_loop env args proxies ovpns 0 (i + Z.of_nat fuel) w'
              (Hs Hp) Hh) as (w'' & E & D & _ & _ & Cl).
  exists w''. split; [|now split].
  replace (S fuel) with (fuel + 1)%nat by lia.
  rewrite (while_loop_more_fuel env args proxies ovpns fuel i w w' H 1). exact E.
Qed.

End Cancelled.

(** C4, as the code has it.  The flag is polled in the inter-cycle wait
    [_wait_or_stop], at the head of each pass of the [while] loop and before
    each item of the two [for] loops, and nowhere else.

    - The wait consists of polls and sleeps of half a second, and it ends:
      it cannot run on.  A signal that arrives during it is followed by at
      most one such sleep, and when the wait then returns the flag is set.
    - From a state with the flag set, the wait, the two [for] loops and the
      [while] loop add nothing but polls and log lines and take no time; in
      a run of the [while] loop nothing but such entries follows a poll
      that read the flag as set, and no time passes after it ([calm]): no
      sleep and no adapter invocation is started any more.
    - Entered with the flag set, the wait, each [for] loop and the [while]
      loop return at once, after one poll at most (provided the signal
      handler, if it runs in that poll, can log its line).
    - The loop exits: a [while] loop that is still going after [fuel]
      passes, a poll having read the flag as set, returns at the poll at
      the head of the next pass, with the count of the passes made, and
      takes no time for it.
    - The adapters, with their settle sleeps, never poll. *)
Theorem cancellation_is_polled_in_the_inter_cycle_wait env args :
  respects (emits wait_event) (_wait_or_stop env args)
  /\ (forall w, fst (_wait_or_stop env args w) <> Diverge)
  /\ (forall w r w',
        _wait_or_stop env args w = (r, w') ->
        exists evs,
          trace w' = trace w ++ evs
          /\ forall t, In (t, ESignal) evs ->
               clock w' <= t + 500 /\ (r = Ret tt -> stop_event w' = true))
  /\ respects calm (_wait_or_stop env args)
  /\ (forall proxies, respects calm (for_proxies env args proxies))
  /\ (forall ovpns, respects calm (for_ovpns env args ovpns))
  /\ (forall fuel proxies ovpns i,
        respects calm (while_loop env args fuel proxies ovpns i))
  /\ (forall w,
        stop_event w = true ->
        (signal_at env (ops w) = true -> log_error env (ops w) = None) ->
        (exists w',
           _wait_or_stop env args w = (Ret tt, w')
           /\ did w w' (if 0 <? interval args * 1000 then [EIsSet true] else [])
           /\ clock w' = clock w)
        /\ (forall proxies, exists w',
              for_proxies env args proxies w = (Ret tt, w')
              /\ did w w' (if nonempty proxies then [EIsSet true] else []))
        /\ (forall ovpns, exists w',
              for_ovpns env args ovpns w = (Ret tt, w')
              /\ did w w' (if nonempty ovpns then [EIsSet true] else []))
        /\ (forall fuel proxies ovpns i, exists w',
              while_loop env args (S fuel) proxies ovpns i w = (Ret i, w')
              /\ did w w' [EIsSet true]))
  /\ (forall fuel proxies ovpns i w w' evs,
        (signal_at env (ops w') = true -> log_error env (ops w') = None) ->
        while_loop env args fuel proxies ovpns i w = (Diverge, w') ->
        trace w' = trace w ++ evs ->
        after_set_poll evs <> None ->
        exists w'',
          while_loop env args (S fuel) proxies ovpns i w
          = (Ret (i + Z.of_nat fuel), w'')
          /\ did w' w'' [EIsSet true]
          /\ clock w'' = clock w')
  /\ respects (emits no_poll) (run_once_tor env args)
  /\ (forall purl, respects (emits no_poll) (run_once_proxy env args purl))
  /\ (forall cfg, respects (emits no_poll) (run_once_vpn env args cfg)).
Proof.
  split; [|split; [|split; [|split; [|split; [|split; [|split; [|split; [|split]]]]]]]].
  - pose proof (emits_invariant wait_event eq_refl eq_refl) as HW.
    assert (L : forall fuel start,
               respects (emits wait_event) (wait_loop env args fuel start)).
    { induction fuel; intros start; cbn [wait_loop]; walk emits_leaf. }
    unfold _wait_or_stop.
    apply respects_bind; [assumption | apply respects_now; assumption | intros start].
    apply L.
  - apply total_wait_or_stop.
  - intros w r w' H. unfold _wait_or_stop, bind, now in H.
    now apply wait_loop_bound in H.
  - apply calm_wait_or_stop.
  - apply calm_for_proxies.
  - apply calm_for_ovpns.
  - apply calm_while_loop.
  - intros w Hset Hh. split; [|split; [|split]].
    + now apply set_flag_ends_wait.
    + intros proxies. now apply set_flag_ends_for_proxies.
    + intros ovpns. now apply set_flag_ends_for_ovpns.
    + intros fuel proxies ovpns i.
      destruct (set_flag_ends_while_loop env args proxies ovpns fuel i w Hset Hh)
        as (w' & E & D & _).
      exists w'. now split.
  - intros fuel proxies ovpns i w w' evs. apply polled_loop_ends.
  - apply adapters_never_poll.
Qed.

Lemma cancellation_is_polled_in_the_inter_cycle_wait_witness :
  (let r := _wait_or_stop (env_signal_at 1) args_proxy_loop (install world0) in
   exists evs,
     trace (snd r) = trace (install world0) ++ evs
     /\ forall t, In (t, ESignal) evs ->
          clock (snd r) <= t + 500
          /\ (fst r = Ret tt -> stop_event (snd r) = true))
  /\ (let r := while_loop (env_signal_at 10) args_proxy_loop 1 [p1] [] 0
                 (install world0) in
      exists w'',
        while_loop (env_signal_at 10) args_proxy_loop 2 [p1] [] 0 (install world0)
        = (Ret 1, w'')
        /\ did (snd r) w'' [EIsSet true]
        /\ clock w'' = clock (snd r)).
Proof.
  split.
  - destruct (cancellation_is_polled_in_the_inter_cycle_wait
                (env_signal_at 1) args_proxy_loop) as (_ & _ & H & _).
    apply (H (install world0)). apply surjective_pairing.
  - destruct (cancellation_is_polled_in_the_inter_cycle_wait
                (env_signal_at 10) args_proxy_loop)
      as (_ & _ & _ & _ & _ & _ & _ & _ & H & _).
    apply (H 1%nat [p1] [] 0 (install world0)
             (snd (while_loop (env_signal_at 10) args_proxy_loop 1 [p1] [] 0
                     (install world0)))
             (trace (snd (while_loop (env_signal_at 10) args_proxy_loop 1 [p1] [] 0
                            (install world0))))).
    + intros _. reflexivity.
    + vm_compute. reflexivity.
    + reflexivity.
    + vm_compute. discriminate.
Defined.

(** C4, as stated, fails for the settle wait: a signal arrives at time 0,
    when the sleep of 5 seconds after the first probe begins; the flag is
    not polled during that sleep, the probe through the proxy is still made
    5 seconds later, and only then does the next poll read the flag and the
    loop end. *)
Lemma settle_sleep_is_not_interruptible :
  let r := main (env_signal_at 9) args_proxy_loop 2 world0 in
  fst r = Ret 1
  /\ nth_error (trace (snd r)) 9 = Some (0, ESignal)
  /\ nth_error (trace (snd r)) 11 = Some (0, ESleep 5000)
  /\ nth_error (trace (snd r)) 12
     = Some (5000, EHttpGet check_url (proxy_to_requests_proxies p1) 10)
  /\ nth_error (trace (snd r)) 14 = Some (5000, EIsSet true)
  /\ clock (snd r) = 5000
  /\ ~ clock (snd r) <= 0 + 1000.
Proof. vm_compute. repeat split. intros H. now apply H. Qed.
